(** * Planner: goal hierarchy, events and dashboard

    A shallow embedding of the planner's service layer
    ([goalService], [eventService], [dashboardService], [types/dashboard])
    and of the storage layer it talks to (the [goals], [events] and
    [profiles] tables with their constraints, functions and triggers).

    Conventions of the embedding.
    - A table is a finite map from the primary key to the row
      (the columns other than [id]).  The rows are those visible to the
      calling account (row-level security).
    - Timestamps are instants in milliseconds since the epoch ([Z]); the
      local time zone of the date helpers is UTC.
    - JavaScript numbers and SQL numerics are exact rationals ([Q]);
      integer columns are [Z].
    - A promise that rejects (a [throw], or an [error] returned by the
      storage client) is an [Err] carrying the message.
    - A service call writes the named columns of the addressed row: the row
      passes the BEFORE ROW triggers and the table's constraints or the
      write is refused.  The AFTER ROW trigger functions are embedded
      as functions of their own ([update_parent_goal_progress],
      [update_user_stats]). *)

From Stdlib Require Import QArith Qround Qminmax Qabs ZArith Lia Lqa Ascii String.
From stdpp Require Import gmap strings list fin_maps sorting.

Open Scope Z_scope.

(** ** Results of fallible calls *)

Inductive Result (A : Type) : Type :=
  | Ok (a : A)
  | Err (msg : string).
Arguments Ok {A} a.
Arguments Err {A} msg.

#[global] Instance Result_ret : MRet Result := λ A a, Ok a.
#[global] Instance Result_bind : MBind Result := λ A B f m,
  match m with
  | Ok a => f a
  | Err e => Err e
  end.

Definition is_Ok {A} (r : Result A) : Prop := ∃ a, r = Ok a.
Definition is_Err {A} (r : Result A) : Prop := ∃ e, r = Err e.

Definition guard_or (b : bool) (msg : string) : Result unit :=
  if b then Ok tt else Err msg.

(** ** JavaScript and SQL arithmetic *)

(** [Math.round]: the nearest integer, ties towards +infinity. *)
Definition Math_round (x : Q) : Z := Qfloor (x + (1 # 2)).

(** [Math.round(x * 100) / 100]. *)
Definition round2 (x : Q) : Q := Math_round (x * 100) # 100.

(** A value stored in a [DECIMAL(5,2)] column: two decimals, ties away from
    zero. *)
Definition numeric_5_2 (x : Q) : Q :=
  if Qle_bool 0 x then Qfloor (x * 100 + (1 # 2)) # 100
  else - (Qfloor (- x * 100 + (1 # 2)) # 100).

(** The sum of an array of numbers, as [reduce((sum, x) => sum + x, 0)]. *)
Definition Qsum (l : list Q) : Q := fold_left Qplus l 0%Q.

(** A JavaScript string used as a condition is false when it is absent or
    empty. *)
Definition truthy (s : option string) : bool :=
  match s with
  | Some s => negb (String.eqb s "")
  | None => false
  end.

(** [Array.prototype.sort(cmp)]: a stable sort; [cmp a b <= 0] keeps [a]
    before [b]. *)
Fixpoint sort_insert {A} (cmp : A → A → Z) (x : A) (l : list A) : list A :=
  match l with
  | [] => [x]
  | y :: l' => if cmp x y <=? 0 then x :: y :: l' else y :: sort_insert cmp x l'
  end.

Definition Array_sort {A} (cmp : A → A → Z) (l : list A) : list A :=
  foldr (sort_insert cmp) [] l.

(** ** The data model *)

Inductive GoalStatus := active | completed | paused | cancelled.

#[global] Instance GoalStatus_eq_dec : EqDecision GoalStatus.
Proof. solve_decision. Defined.

(** A row of [goals] (migration 003). *)
Module GoalRow.
Record t := mk {
  title : string;
  description : option string;
  parent_id : option string;
  level : Z;
  progress : Q;
  status : GoalStatus;
  start_date : option Z;
  due_date : option Z;
  completed_at : option Z;
  category_id : option string;
  user_id : string;
  created_at : Z;
  updated_at : Z;
}.
End GoalRow.

(** The [Goal] of [types/goals.ts].  The joined [category] record is display
    data and is left out. *)
Module Goal.
Record t := mk {
  id : string;
  title : string;
  description : option string;
  parentId : option string;
  level : Z;
  progress : Q;
  status : GoalStatus;
  startDate : option Z;
  dueDate : option Z;
  completedAt : option Z;
  categoryId : option string;
  userId : string;
  createdAt : Z;
  updatedAt : Z;
}.
End Goal.

(** A row of [events] (migration 001). *)
Module EventRow.
Record t := mk {
  title : string;
  description : option string;
  start_date : Z;
  end_date : Z;
  all_day : bool;
  category_id : option string;
  tags : list string;
  color : option string;
  user_id : string;
  created_at : Z;
  updated_at : Z;
}.
End EventRow.

(** The [Event] of [types/calendar.ts]. *)
Module Event.
Record t := mk {
  id : string;
  title : string;
  description : option string;
  startDate : Z;
  endDate : Z;
  allDay : bool;
  categoryId : option string;
  tags : list string;
  color : option string;
  userId : string;
  createdAt : Z;
  updatedAt : Z;
}.
End Event.

(** The [stats] document of a profile and the profile row. *)
Record Stats := mkStats {
  totalGoals : Z;
  completedGoals : Z;
  totalEvents : Z;
  completedEvents : Z;
  currentStreak : Z;
  longestStreak : Z;
}.

Record ProfileRow := mkProfile {
  profile_user_id : string;
  display_name : option string;
  stats : Stats;
}.

Record Database := mkDatabase {
  goals : gmap string GoalRow.t;
  events : gmap string EventRow.t;
  categories : gset string;
  profiles : gmap string ProfileRow;
}.

Definition set_goals (db : Database) (g : gmap string GoalRow.t) : Database :=
  mkDatabase g (events db) (categories db) (profiles db).

Definition set_events (db : Database) (e : gmap string EventRow.t) : Database :=
  mkDatabase (goals db) e (categories db) (profiles db).


(** ** The storage layer: the [goals] table *)

(** The [CHECK] constraints and column types of [goals]. *)
Definition valid_date_range (start_date due_date : option Z) : bool :=
  match start_date, due_date with
  | Some s, Some d => s <=? d
  | _, _ => true
  end.

Definition goals_checks (id : string) (r : GoalRow.t) : Result unit :=
  guard_or (Nat.leb (String.length (GoalRow.title r)) 500)
    "value too long for type character varying(500)";;
  guard_or ((1 <=? GoalRow.level r) && (GoalRow.level r <=? 4))
    "goals_level_check";;
  guard_or (Qle_bool 0 (GoalRow.progress r) && Qle_bool (GoalRow.progress r) 100)
    "goals_progress_check";;
  guard_or (valid_date_range (GoalRow.start_date r) (GoalRow.due_date r))
    "valid_date_range";;
  guard_or (negb (bool_decide (GoalRow.parent_id r = Some id)))
    "no_self_reference".

(** [parent_id REFERENCES goals(id)] and
    [category_id REFERENCES categories(id)]; the empty string is no UUID. *)
Definition goals_foreign_keys (db : Database) (r : GoalRow.t) : Result unit :=
  guard_or
    match GoalRow.parent_id r with
    | None => true
    | Some p => negb (String.eqb p "") && bool_decide (is_Some (goals db !! p))
    end "goals_parent_id_fkey";;
  guard_or
    match GoalRow.category_id r with
    | None => true
    | Some c => bool_decide (c ∈ categories db)
    end "goals_category_id_fkey".

(** Trigger function [validate_goal_hierarchy] (BEFORE INSERT OR UPDATE).
    When the parent row is missing [parent_level] is NULL, the comparison is
    NULL and the exception is not raised. *)
Definition validate_goal_hierarchy (tbl : gmap string GoalRow.t)
    (NEW : GoalRow.t) : Result GoalRow.t :=
  match GoalRow.parent_id NEW with
  | None =>
      if negb (GoalRow.level NEW =? 1) then Err "Root goals must be level 1"
      else Ok NEW
  | Some pid =>
      match GoalRow.level <$> tbl !! pid with
      | Some parent_level =>
          if negb (GoalRow.level NEW =? parent_level + 1)
          then Err "Child goal level must be exactly one greater than parent level"
          else Ok NEW
      | None => Ok NEW
      end
  end.

(** Trigger function [update_goal_updated_at] (BEFORE UPDATE). *)
Definition update_goal_updated_at (now : Z) (NEW : GoalRow.t) : GoalRow.t :=
  GoalRow.mk (GoalRow.title NEW) (GoalRow.description NEW)
    (GoalRow.parent_id NEW) (GoalRow.level NEW) (GoalRow.progress NEW)
    (GoalRow.status NEW) (GoalRow.start_date NEW) (GoalRow.due_date NEW)
    (GoalRow.completed_at NEW) (GoalRow.category_id NEW) (GoalRow.user_id NEW)
    (GoalRow.created_at NEW) now.

(** [INSERT INTO goals]: the primary key [newId] stands for
    [gen_random_uuid()]. *)
Definition goals_insert (db : Database) (newId : string) (r : GoalRow.t)
    : Result (Database * GoalRow.t) :=
  NEW ← validate_goal_hierarchy (goals db) r;
  goals_checks newId NEW;;
  guard_or (bool_decide (goals db !! newId = None)) "goals_pkey";;
  goals_foreign_keys db NEW;;
  Ok (set_goals db (<[newId := NEW]> (goals db)), NEW).

(** The columns named by an update ([goalData]); an absent column is left
    as it is. *)
Record GoalPatch := mkGoalPatch {
  p_title : option string;
  p_description : option (option string);
  p_parent_id : option (option string);
  p_level : option Z;
  p_progress : option Q;
  p_status : option GoalStatus;
  p_start_date : option (option Z);
  p_due_date : option (option Z);
  p_completed_at : option (option Z);
  p_category_id : option (option string);
}.

Definition empty_patch : GoalPatch :=
  mkGoalPatch None None None None None None None None None None.

Definition apply_patch (p : GoalPatch) (r : GoalRow.t) : GoalRow.t :=
  GoalRow.mk
    (default (GoalRow.title r) (p_title p))
    (default (GoalRow.description r) (p_description p))
    (default (GoalRow.parent_id r) (p_parent_id p))
    (default (GoalRow.level r) (p_level p))
    (default (GoalRow.progress r) (numeric_5_2 <$> p_progress p))
    (default (GoalRow.status r) (p_status p))
    (default (GoalRow.start_date r) (p_start_date p))
    (default (GoalRow.due_date r) (p_due_date p))
    (default (GoalRow.completed_at r) (p_completed_at p))
    (default (GoalRow.category_id r) (p_category_id p))
    (GoalRow.user_id r) (GoalRow.created_at r) (GoalRow.updated_at r).

Definition no_rows : string :=
  "JSON object requested, multiple (or no) rows returned".

(** [UPDATE goals SET ... WHERE id = id], returning the one row
    ([.select().single()]). *)
Definition goals_update (db : Database) (id : string) (p : GoalPatch)
    (now : Z) : Result (Database * GoalRow.t) :=
  match goals db !! id with
  | None => Err no_rows
  | Some OLD =>
      NEW ← validate_goal_hierarchy (goals db)
              (update_goal_updated_at now (apply_patch p OLD));
      goals_checks id NEW;;
      goals_foreign_keys db NEW;;
      Ok (set_goals db (<[id := NEW]> (goals db)), NEW)
  end.

(** ** [GoalService] *)

(** [transformGoal]: a row, with its key, as a [Goal]. *)
Definition transformGoal (data : string * GoalRow.t) : Goal.t :=
  let (id, r) := data in
  Goal.mk id (GoalRow.title r) (GoalRow.description r) (GoalRow.parent_id r)
    (GoalRow.level r) (GoalRow.progress r) (GoalRow.status r)
    (GoalRow.start_date r) (GoalRow.due_date r) (GoalRow.completed_at r)
    (GoalRow.category_id r) (GoalRow.user_id r) (GoalRow.created_at r)
    (GoalRow.updated_at r).

(** [GoalFilters]; the free-text [searchTerm] filter is left out. *)
Record GoalFilters := mkGoalFilters {
  f_level : option Z;
  f_status : option GoalStatus;
  f_categoryId : option string;
  f_parentId : option (option string);
}.

Definition no_filters : GoalFilters := mkGoalFilters None None None None.

Definition matches_filters (f : GoalFilters) (r : GoalRow.t) : bool :=
  match f_level f with
  | Some l => GoalRow.level r =? l
  | None => true
  end
  && match f_status f with
     | Some s => bool_decide (GoalRow.status r = s)
     | None => true
     end
  && (if truthy (f_categoryId f)
      then bool_decide (GoalRow.category_id r = f_categoryId f)
      else true)
  && match f_parentId f with
     | Some None => bool_decide (GoalRow.parent_id r = None)
     | Some (Some p) => bool_decide (GoalRow.parent_id r = Some p)
     | None => true
     end.

(** [.order('level').order('created_at')], both ascending. *)
Definition by_level_created (a b : string * GoalRow.t) : Z :=
  if negb (GoalRow.level a.2 =? GoalRow.level b.2)
  then GoalRow.level a.2 - GoalRow.level b.2
  else GoalRow.created_at a.2 - GoalRow.created_at b.2.

Definition getGoals (db : Database) (filters : GoalFilters) : list Goal.t :=
  transformGoal <$>
    Array_sort by_level_created
      (filter (λ d, matches_filters filters d.2 = true) (map_to_list (goals db))).

Definition getGoal (db : Database) (id : string) : Result Goal.t :=
  match goals db !! id with
  | Some r => Ok (transformGoal (id, r))
  | None => Err no_rows
  end.

Definition getGoalChildren (db : Database) (parentId : string) : list Goal.t :=
  getGoals db (mkGoalFilters None None None (Some (Some parentId))).

Record CreateGoalInput := mkCreateGoalInput {
  c_title : string;
  c_description : option string;
  c_parentId : option string;
  c_level : Z;
  c_startDate : option Z;
  c_dueDate : option Z;
  c_categoryId : option string;
}.

(** The row inserted by [createGoal]: [goalData] with the column defaults
    ([progress] 0, [status] 'active', no [completed_at], [created_at] and
    [updated_at] now). *)
Definition createGoal_data (input : CreateGoalInput) (user_id : string)
    (now : Z) : GoalRow.t :=
  GoalRow.mk (c_title input) (c_description input) (c_parentId input)
    (c_level input) 0%Q active (c_startDate input) (c_dueDate input)
    None (c_categoryId input) user_id now now.

(** [createGoal]; [user] is the result of [auth.getUser()]. *)
Definition createGoal (db : Database) (user : option string)
    (input : CreateGoalInput) (newId : string) (now : Z)
    : Result (Database * Goal.t) :=
  match user with
  | None => Err "User not authenticated"
  | Some user_id =>
      (if truthy (c_parentId input) then
         parent ← getGoal db (default "" (c_parentId input));
         guard_or (negb (4 <=? Goal.level parent))
           "Cannot add children to level 4 goals";;
         guard_or (c_level input =? Goal.level parent + 1)
           "Child level must be exactly one greater than parent level"
       else
         guard_or (c_level input =? 1) "Root goals must be level 1");;
      '(db', data) ← goals_insert db newId (createGoal_data input user_id now);
      Ok (db', transformGoal (newId, data))
  end.

Record UpdateGoalInput := mkUpdateGoalInput {
  u_id : string;
  u_title : option string;
  u_description : option string;
  u_progress : option Q;
  u_status : option GoalStatus;
  u_startDate : option (option Z);
  u_dueDate : option (option Z);
  u_categoryId : option (option string);
}.

(** The [goalData] object built by [updateGoal]. *)
Definition updateGoal_data (input : UpdateGoalInput) (now : Z) : GoalPatch :=
  let progress := (λ p, Qmin 100 (Qmax 0 p)) <$> u_progress input in
  let auto_complete :=
    match progress with
    | Some p => Qeq_bool p 100 && negb (bool_decide (u_status input = Some completed))
    | None => false
    end in
  mkGoalPatch
    (u_title input)
    (Some <$> u_description input)
    None
    None
    progress
    (if auto_complete then Some completed else u_status input)
    (u_startDate input)
    (u_dueDate input)
    (if auto_complete then Some (Some now) else None)
    (u_categoryId input).

Definition updateGoal (db : Database) (input : UpdateGoalInput) (now : Z)
    : Result (Database * Goal.t) :=
  '(db', data) ← goals_update db (u_id input) (updateGoal_data input now) now;
  Ok (db', transformGoal (u_id input, data)).

(** [updateProgress]. *)
Definition updateProgress (db : Database) (goalId : string) (progress : Q)
    (now : Z) : Result (Database * Goal.t) :=
  updateGoal db
    (mkUpdateGoalInput goalId None None (Some progress)
       (Some (if Qeq_bool progress 100 then completed else active))
       None None None)
    now.

(** [calculateParentProgress]. *)
Definition calculateParentProgress (db : Database) (parentId : string)
    : Result Q :=
  let children := getGoalChildren db parentId in
  if (length children =? 0)%nat then Ok 0%Q else
  let relevantChildren :=
    filter (λ child, Goal.status child = active ∨ Goal.status child = completed)
      children in
  if (length relevantChildren =? 0)%nat then Ok 0%Q else
  let totalProgress := Qsum (Goal.progress <$> relevantChildren) in
  let averageProgress :=
    (totalProgress / inject_Z (Z.of_nat (length relevantChildren)))%Q in
  Ok (round2 averageProgress).

(** The status given to the parent by [updateParentProgressChain]. *)
Definition chain_newStatus (parent : Goal.t) (newParentProgress : Q)
    : GoalStatus :=
  if Qeq_bool newParentProgress 100 then completed
  else if bool_decide (Goal.status parent = completed)
          && negb (Qle_bool 100 newParentProgress)
       then active
       else Goal.status parent.

(** [updateParentProgressChain].  The recursion follows the parent
    references; [fuel] bounds the number of calls and [None] is a run that
    needs more. *)
Fixpoint updateParentProgressChain (fuel : nat) (db : Database)
    (goalId : string) (now : Z) : option (Result Database) :=
  match fuel with
  | O => None
  | S fuel' =>
      match getGoal db goalId with
      | Err e => Some (Err e)
      | Ok goal =>
          match Goal.parentId goal with
          | Some parentId =>
              if truthy (Some parentId) then
                match calculateParentProgress db parentId with
                | Err e => Some (Err e)
                | Ok newParentProgress =>
                    match getGoal db parentId with
                    | Err e => Some (Err e)
                    | Ok parent =>
                        if negb (Qle_bool
                                   (Qabs (Goal.progress parent - newParentProgress))
                                   (1 # 100))
                        then
                          match
                            updateGoal db
                              (mkUpdateGoalInput parentId None None
                                 (Some newParentProgress)
                                 (Some (chain_newStatus parent newParentProgress))
                                 None None None)
                              now
                          with
                          | Err e => Some (Err e)
                          | Ok (db', _) =>
                              updateParentProgressChain fuel' db' parentId now
                          end
                        else Some (Ok db)
                    end
                end
              else Some (Ok db)
          | None => Some (Ok db)
          end
      end
  end.

(** [updateProgressWithParentCalculation]. *)
Definition updateProgressWithParentCalculation (fuel : nat) (db : Database)
    (goalId : string) (progress : Q) (now : Z)
    : option (Result (Database * Goal.t)) :=
  match updateProgress db goalId progress now with
  | Err e => Some (Err e)
  | Ok (db', updatedGoal) =>
      match updateParentProgressChain fuel db' goalId now with
      | None => None
      | Some (Err e) => Some (Err e)
      | Some (Ok db'') => Some (Ok (db'', updatedGoal))
      end
  end.

(** [updateDescendantLevels].  A nested call is made only with a level that
    is at most 4 and one more than the caller's, so [4 - parentLevel] calls
    deep is as far as the recursion goes.  The result of each update is not
    inspected: a refused update leaves the table as it was. *)
Fixpoint updateDescendantLevels_rec (depth : nat) (db : Database)
    (goalId : string) (parentLevel : Z) (now : Z) : Database :=
  let children := getGoalChildren db goalId in
  fold_left
    (λ db child,
       let newLevel := parentLevel + 1 in
       if newLevel <=? 4 then
         let db' :=
           match
             goals_update db (Goal.id child)
               (mkGoalPatch None None None (Some newLevel) None None None None
                  None None)
               now
           with
           | Ok (db', _) => db'
           | Err _ => db
           end in
         match depth with
         | O => db'
         | S depth' =>
             updateDescendantLevels_rec depth' db' (Goal.id child) newLevel now
         end
       else db)
    children db.

Definition updateDescendantLevels (db : Database) (goalId : string)
    (parentLevel : Z) (now : Z) : Database :=
  updateDescendantLevels_rec (Z.to_nat (4 - parentLevel)) db goalId
    parentLevel now.

(** [moveGoal]. *)
Definition moveGoal (db : Database) (goalId : string)
    (newParentId : option string) (now : Z) : Result (Database * Goal.t) :=
  goal ← getGoal db goalId;
  newLevel ←
    (if truthy newParentId then
       newParent ← getGoal db (default "" newParentId);
       guard_or (negb (4 <=? Goal.level newParent))
         "Cannot move goal to level 4 parent";;
       Ok (Goal.level newParent + 1)
     else Ok 1);
  guard_or (negb (4 <? newLevel)) "Cannot create goals deeper than level 4";;
  '(db', data) ←
    goals_update db goalId
      (mkGoalPatch None None
         (Some (if truthy newParentId then newParentId else None))
         (Some newLevel) None None None None None None)
      now;
  Ok (updateDescendantLevels db' goalId newLevel now,
      transformGoal (goalId, data)).

(** ** The storage layer: progress functions of migration 003 *)

(** SQL function [calculate_parent_goal_progress]: [AVG(progress)] over the
    children whose status is ['active'], and 0 when there is none. *)
Definition calculate_parent_goal_progress (tbl : gmap string GoalRow.t)
    (parent_goal_id : string) : Q :=
  let rows :=
    filter (λ d : string * GoalRow.t,
              GoalRow.parent_id d.2 = Some parent_goal_id
              ∧ GoalRow.status d.2 = active)
      (map_to_list tbl) in
  match rows with
  | [] => 0%Q
  | _ => (Qsum ((GoalRow.progress ∘ snd) <$> rows)
          / inject_Z (Z.of_nat (length rows)))%Q
  end.

(** The [SET] clause of the [UPDATE] in trigger function
    [update_parent_goal_progress], evaluated on the parent row. *)
Definition update_parent_goal_progress_set (parent_progress : Q) (now : Z)
    (parent : GoalRow.t) : GoalPatch :=
  mkGoalPatch None None None None
    (Some parent_progress)
    (Some (if Qeq_bool parent_progress 100 then completed
           else if bool_decide (GoalRow.status parent = completed)
                   && negb (Qle_bool 100 parent_progress)
                then active
                else GoalRow.status parent))
    None None
    (Some (if Qeq_bool parent_progress 100
              && bool_decide (GoalRow.completed_at parent = None)
           then Some now
           else if negb (Qle_bool 100 parent_progress) then None
                else GoalRow.completed_at parent))
    None.


(** ** The storage layer: the [events] table *)

Definition is_hex_digit (a : ascii) : bool :=
  let n := nat_of_ascii a in
  (Nat.leb 48 n && Nat.leb n 57) || (Nat.leb 65 n && Nat.leb n 70)
  || (Nat.leb 97 n && Nat.leb n 102).

(** The pattern [^#[0-9A-Fa-f]{6}$]. *)
Definition is_hex_color (s : string) : bool :=
  match s with
  | String "#"%char digits =>
      Nat.eqb (String.length digits) 6
      && forallb is_hex_digit (list_ascii_of_string digits)
  | _ => false
  end.

Definition events_checks (r : EventRow.t) : Result unit :=
  guard_or (Nat.leb (String.length (EventRow.title r)) 500)
    "value too long for type character varying(500)";;
  guard_or
    match EventRow.color r with
    | None => true
    | Some c => is_hex_color c
    end "events_color_check";;
  guard_or (EventRow.start_date r <=? EventRow.end_date r) "valid_date_range".

Definition events_foreign_keys (db : Database) (r : EventRow.t) : Result unit :=
  guard_or
    match EventRow.category_id r with
    | None => true
    | Some c => bool_decide (c ∈ categories db)
    end "events_category_id_fkey".

Definition events_insert (db : Database) (newId : string) (r : EventRow.t)
    : Result (Database * EventRow.t) :=
  events_checks r;;
  guard_or (bool_decide (events db !! newId = None)) "events_pkey";;
  events_foreign_keys db r;;
  Ok (set_events db (<[newId := r]> (events db)), r).

(** The columns named by an event update ([eventData]). *)
Record EventPatch := mkEventPatch {
  e_title : option string;
  e_description : option (option string);
  e_start_date : option Z;
  e_end_date : option Z;
  e_all_day : option bool;
  e_category_id : option (option string);
  e_tags : option (list string);
  e_color : option (option string);
}.

(** The row after the assignments and trigger function
    [update_updated_at_column] (BEFORE UPDATE). *)
Definition apply_event_patch (p : EventPatch) (now : Z) (r : EventRow.t)
    : EventRow.t :=
  EventRow.mk
    (default (EventRow.title r) (e_title p))
    (default (EventRow.description r) (e_description p))
    (default (EventRow.start_date r) (e_start_date p))
    (default (EventRow.end_date r) (e_end_date p))
    (default (EventRow.all_day r) (e_all_day p))
    (default (EventRow.category_id r) (e_category_id p))
    (default (EventRow.tags r) (e_tags p))
    (default (EventRow.color r) (e_color p))
    (EventRow.user_id r) (EventRow.created_at r) now.

Definition events_update (db : Database) (id : string) (p : EventPatch)
    (now : Z) : Result (Database * EventRow.t) :=
  match events db !! id with
  | None => Err no_rows
  | Some OLD =>
      let NEW := apply_event_patch p now OLD in
      events_checks NEW;;
      events_foreign_keys db NEW;;
      Ok (set_events db (<[id := NEW]> (events db)), NEW)
  end.

(** ** [EventService] *)

Definition transformEvent (data : string * EventRow.t) : Event.t :=
  let (id, r) := data in
  Event.mk id (EventRow.title r) (EventRow.description r)
    (EventRow.start_date r) (EventRow.end_date r) (EventRow.all_day r)
    (EventRow.category_id r) (EventRow.tags r) (EventRow.color r)
    (EventRow.user_id r) (EventRow.created_at r) (EventRow.updated_at r).

Definition getEvent (db : Database) (id : string) : Result Event.t :=
  match events db !! id with
  | Some r => Ok (transformEvent (id, r))
  | None => Err no_rows
  end.

Record CreateEventInput := mkCreateEventInput {
  ce_title : string;
  ce_description : option string;
  ce_startDate : Z;
  ce_endDate : Z;
  ce_allDay : option bool;
  ce_categoryId : option string;
  ce_tags : option (list string);
  ce_color : option string;
}.

Definition createEvent (db : Database) (user : option string)
    (input : CreateEventInput) (newId : string) (now : Z)
    : Result (Database * Event.t) :=
  match user with
  | None => Err "User not authenticated"
  | Some user_id =>
      let eventData :=
        EventRow.mk (ce_title input) (ce_description input)
          (ce_startDate input) (ce_endDate input)
          (default false (ce_allDay input))
          (ce_categoryId input)
          (default [] (ce_tags input))
          (ce_color input) user_id now now in
      '(db', data) ← events_insert db newId eventData;
      Ok (db', transformEvent (newId, data))
  end.

(** [UpdateEventInput]: the [id] and any of the fields of
    [CreateEventInput]. *)
Record UpdateEventInput := mkUpdateEventInput {
  ue_id : string;
  ue_title : option string;
  ue_description : option string;
  ue_startDate : option Z;
  ue_endDate : option Z;
  ue_allDay : option bool;
  ue_categoryId : option string;
  ue_tags : option (list string);
  ue_color : option string;
}.

Definition updateEvent_data (input : UpdateEventInput) : EventPatch :=
  mkEventPatch
    (ue_title input)
    (Some <$> ue_description input)
    (ue_startDate input)
    (ue_endDate input)
    (ue_allDay input)
    (Some <$> ue_categoryId input)
    (ue_tags input)
    (Some <$> ue_color input).

Definition updateEvent (db : Database) (input : UpdateEventInput) (now : Z)
    : Result (Database * Event.t) :=
  '(db', data) ← events_update db (ue_id input) (updateEvent_data input) now;
  Ok (db', transformEvent (ue_id input, data)).

(** ** Date helpers (date-fns), in UTC *)

Definition ms_per_day : Z := 86400000.

(** [isToday(date)]: the same calendar day as now. *)
Definition isToday (date now : Z) : bool :=
  date / ms_per_day =? now / ms_per_day.

(** [isPast(date)]: strictly before now. *)
Definition isPast (date now : Z) : bool := date <? now.

(** [differenceInDays(dateLeft, dateRight)]: the number of full days between
    the two instants, truncated towards zero. *)
Definition differenceInDays (dateLeft dateRight : Z) : Z :=
  (dateLeft - dateRight) `quot` ms_per_day.

Definition pad2 (n : Z) : string :=
  String (ascii_of_nat (48 + Z.to_nat (n / 10)))
    (String (ascii_of_nat (48 + Z.to_nat (n `mod` 10))) "").

(** [format(date, 'HH:mm')]. *)
Definition format_HH_mm (date : Z) : string :=
  pad2 ((date `mod` ms_per_day) / 3600000) +:+ ":"
  +:+ pad2 ((date `mod` 3600000) / 60000).

(** [a.localeCompare(b)] on such strings. *)
Definition localeCompare (a b : string) : Z :=
  match String.compare a b with
  | Lt => -1
  | Eq => 0
  | Gt => 1
  end.

(** ** [types/dashboard.ts] *)

Inductive Urgency := low | medium | high | critical.

#[global] Instance Urgency_eq_dec : EqDecision Urgency.
Proof. solve_decision. Defined.

Inductive TaskType := goal_type | event_type.

Definition calculateUrgency (daysOverdue : Z) : Urgency :=
  if 7 <=? daysOverdue then critical
  else if 3 <=? daysOverdue then high
  else if 1 <=? daysOverdue then medium
  else low.

(** [TodayTask] and [OverdueItem], without the joined category and the
    back reference [originalItem]. *)
Record TodayTask := mkTodayTask {
  task_id : string;
  task_title : string;
  task_type : TaskType;
  priority : Z;
  task_completed : bool;
  dueTime : option string;
  task_progress : option Q;
  task_description : option string;
}.

Record OverdueItem := mkOverdueItem {
  item_id : string;
  item_title : string;
  item_type : TaskType;
  item_dueDate : option Z;
  daysOverdue : Z;
  urgency : Urgency;
  item_progress : option Q;
}.

(** ** [DashboardService] *)

Definition isDueToday (goal : Goal.t) (now : Z) : bool :=
  match Goal.dueDate goal with
  | None => false
  | Some d => isToday d now
  end.

(** [isOverdue] on a goal (an object with [dueDate] and [status]) and on an
    event (neither). *)
Definition isOverdue_goal (item : Goal.t) (now : Z) : bool :=
  match Goal.dueDate item with
  | None => false
  | Some due =>
      isPast due now && negb (bool_decide (Goal.status item = completed))
  end.

Definition isOverdue_event (item : Event.t) (now : Z) : bool :=
  isPast (Event.endDate item) now.

Definition clamp_priority (p : Z) : Z := Z.min 10 (Z.max 1 p).

Definition calculateGoalPriority (goal : Goal.t) (now : Z) : Z :=
  let priority := 5 in
  let priority := priority + Goal.level goal in
  let priority :=
    match Goal.dueDate goal with
    | Some d => if isToday d now then priority + 2 else priority
    | None => priority
    end in
  let priority :=
    if negb (Qle_bool (Goal.progress goal) 80) then priority + 2
    else if negb (Qle_bool (Goal.progress goal) 60) then priority + 1
    else priority in
  clamp_priority priority.

Definition calculateEventPriority (event : Event.t) (now : Z) : Z :=
  let priority := 5 in
  let hoursUntilStart :=
    (inject_Z (Event.startDate event - now) / inject_Z (1000 * 60 * 60))%Q in
  let priority :=
    if Qle_bool hoursUntilStart 1 then priority + 3
    else if Qle_bool hoursUntilStart 3 then priority + 2
    else if Qle_bool hoursUntilStart 6 then priority + 1
    else priority in
  let priority := if Event.allDay event then priority - 1 else priority in
  clamp_priority priority.

Definition goal_task (now : Z) (goal : Goal.t) : TodayTask :=
  mkTodayTask (Goal.id goal) (Goal.title goal) goal_type
    (calculateGoalPriority goal now)
    (bool_decide (Goal.status goal = completed))
    None
    (Some (Goal.progress goal))
    (Goal.description goal).

Definition event_task (now : Z) (event : Event.t) : TodayTask :=
  mkTodayTask (Event.id event) (Event.title event) event_type
    (calculateEventPriority event now)
    (isPast (Event.endDate event) now)
    (if Event.allDay event then None
     else Some (format_HH_mm (Event.startDate event)))
    None
    (Event.description event).

(** The comparator of the sort in [getTodayTasks]. *)
Definition today_cmp (a b : TodayTask) : Z :=
  if negb (priority a =? priority b) then priority b - priority a
  else
    match dueTime a, dueTime b with
    | Some ta, Some tb => localeCompare ta tb
    | Some _, None => -1
    | None, Some _ => 1
    | None, None => 0
    end.

Definition getTodayTasks (goals : list Goal.t) (events : list Event.t)
    (now : Z) : list TodayTask :=
  let todayGoals :=
    filter (λ g, Goal.level g = 4 ∧ Goal.status g = active
                 ∧ (isDueToday g now = true ∨ Goal.dueDate g = None))
      goals in
  let todayEvents :=
    filter (λ e, isToday (Event.startDate e) now = true) events in
  let tasks := (goal_task now <$> todayGoals) ++ (event_task now <$> todayEvents) in
  Array_sort today_cmp tasks.

Definition goal_item (now : Z) (goal : Goal.t) : OverdueItem :=
  let daysOverdue :=
    match Goal.dueDate goal with
    | Some d => differenceInDays now d
    | None => 0
    end in
  mkOverdueItem (Goal.id goal) (Goal.title goal) goal_type
    (Goal.dueDate goal) daysOverdue (calculateUrgency daysOverdue)
    (Some (Goal.progress goal)).

Definition event_item (now : Z) (event : Event.t) : OverdueItem :=
  let daysOverdue := differenceInDays now (Event.endDate event) in
  mkOverdueItem (Event.id event) (Event.title event) event_type
    (Some (Event.endDate event)) daysOverdue (calculateUrgency daysOverdue)
    None.

Definition urgencyOrder (u : Urgency) : Z :=
  match u with
  | critical => 4
  | high => 3
  | medium => 2
  | low => 1
  end.

(** The comparator of the sort in [getOverdueItems]. *)
Definition overdue_cmp (a b : OverdueItem) : Z :=
  let urgencyDiff := urgencyOrder (urgency b) - urgencyOrder (urgency a) in
  if negb (urgencyDiff =? 0) then urgencyDiff
  else daysOverdue b - daysOverdue a.

Definition getOverdueItems (goals : list Goal.t) (events : list Event.t)
    (now : Z) : list OverdueItem :=
  let overdueGoals := filter (λ g, isOverdue_goal g now = true) goals in
  let overdueEvents := filter (λ e, isOverdue_event e now = true) events in
  let items :=
    (goal_item now <$> overdueGoals) ++ (event_item now <$> overdueEvents) in
  Array_sort overdue_cmp items.

(** ** The storage layer: profile statistics *)



(** ** Notions used in the statements *)

(** The children of [parentId] that count towards its progress: those whose
    status is ['active'] or ['completed']. *)
Definition eligible_children (db : Database) (parentId : string)
    : list GoalRow.t :=
  filter (λ r, GoalRow.parent_id r = Some parentId
               ∧ (GoalRow.status r = active ∨ GoalRow.status r = completed))
    (snd <$> map_to_list (goals db)).

(** The arithmetic mean of a non-empty list. *)
Definition mean (l : list Q) : Q :=
  (foldr Qplus 0 l / inject_Z (Z.of_nat (length l)))%Q.

(** Whether a call was accepted. *)
Definition accepted {A} (r : Result A) : bool :=
  match r with
  | Ok _ => true
  | Err _ => false
  end.

(** A stored row that the storage layer accepts as it stands: it passes the
    hierarchy trigger, the [CHECK] constraints and the foreign keys. *)
Definition row_accepted (db : Database) (id : string) (r : GoalRow.t) : bool :=
  accepted (validate_goal_hierarchy (goals db) r)
  && accepted (goals_checks id r)
  && accepted (goals_foreign_keys db r).

(** A [goals] table all of whose rows are accepted. *)
Definition goals_consistent (db : Database) : Prop :=
  map_Forall (λ id r, row_accepted db id r = true) (goals db).

(** Two rows that agree on the columns the hierarchy trigger, the
    constraints and the foreign keys look at, progress apart. *)
Definition same_shape (r r' : GoalRow.t) : Prop :=
  GoalRow.title r' = GoalRow.title r
  ∧ GoalRow.parent_id r' = GoalRow.parent_id r
  ∧ GoalRow.level r' = GoalRow.level r
  ∧ GoalRow.start_date r' = GoalRow.start_date r
  ∧ GoalRow.due_date r' = GoalRow.due_date r
  ∧ GoalRow.category_id r' = GoalRow.category_id r.

(** A patch that names none of those columns and no progress out of
    range. *)
Definition keeps_shape (p : GoalPatch) : Prop :=
  p_title p = None ∧ p_parent_id p = None ∧ p_level p = None
  ∧ p_start_date p = None ∧ p_due_date p = None ∧ p_category_id p = None
  ∧ match p_progress p with
    | Some x => (0 <= x <= 100)%Q
    | None => True
    end.

(** The database after row [id] of [goals] is replaced by [r']. *)
Definition rewrite_goal (db : Database) (id : string) (r' : GoalRow.t)
    : Database :=
  set_goals db (<[id := r']> (goals db)).

(** The level invariant on one row, and on the table: a goal without parent
    has level 1, a goal with a parent has the parent's level plus 1, and no
    level exceeds 4. *)
Definition level_ok (tbl : gmap string GoalRow.t) (r : GoalRow.t) : Prop :=
  GoalRow.level r ≤ 4
  ∧ match GoalRow.parent_id r with
    | None => GoalRow.level r = 1
    | Some p =>
        match tbl !! p with
        | Some parent => GoalRow.level r = GoalRow.level parent + 1
        | None => False
        end
    end.

Definition level_invariant (tbl : gmap string GoalRow.t) : Prop :=
  map_Forall (λ _ r, level_ok tbl r) tbl.

(** The parent of a goal, as [updateParentProgressChain] reads it. *)
Definition parent_of (db : Database) (id : string) : option string :=
  r ← goals db !! id;
  if truthy (GoalRow.parent_id r) then GoalRow.parent_id r else None.

(** The ancestors of a goal, nearest first, following at most [n] parent
    references. *)
Fixpoint ancestors_upto (n : nat) (db : Database) (id : string) : list string :=
  match n with
  | O => []
  | S n' =>
      match parent_of db id with
      | Some p => p :: ancestors_upto n' db p
      | None => []
      end
  end.

(** The ancestors of a goal in a hierarchy of four levels. *)
Definition ancestors (db : Database) (id : string) : list string :=
  ancestors_upto 4 db id.

(** The stored progress of [a] is within the epsilon 0.01 of its recomputed
    progress. *)
Definition within_epsilon (db : Database) (a : string) : Prop :=
  ∃ p q, goals db !! a = Some p
         ∧ calculateParentProgress db a = Ok q
         ∧ (Qabs (GoalRow.progress p - q) <= 1 # 100)%Q.

(** [visits db l db']: starting from [db], the goals of [l] are refreshed
    one after the other, each one differing from its recomputed progress by
    more than the epsilon when its turn comes and receiving that progress,
    its place in the hierarchy being kept; no other row is written. *)
Inductive visits : Database → list string → Database → Prop :=
  | visits_nil db : visits db [] db
  | visits_cons db a l db' p q p' :
      goals db !! a = Some p →
      calculateParentProgress db a = Ok q →
      (1 # 100 < Qabs (GoalRow.progress p - q))%Q →
      (GoalRow.progress p' == q)%Q →
      same_shape p p' →
      visits (rewrite_goal db a p') l db' →
      visits db (a :: l) db'.

(** The hierarchy rule of [createGoal], as violated by an input: with a
    parent, the parent's level is 4 or more or the requested level is not the
    parent's level plus 1; without, the requested level is not 1. *)
Definition hierarchy_violated (db : Database) (input : CreateGoalInput) : Prop :=
  if truthy (c_parentId input) then
    match goals db !! default "" (c_parentId input) with
    | Some parent =>
        4 ≤ GoalRow.level parent ∨ c_level input ≠ GoalRow.level parent + 1
    | None => False
    end
  else c_level input ≠ 1.

(** A parent is given and there is no such goal. *)
Definition parent_missing (db : Database) (input : CreateGoalInput) : Prop :=
  truthy (c_parentId input) = true
  ∧ goals db !! default "" (c_parentId input) = None.

(** An event row that the storage layer accepts as it stands. *)
Definition event_accepted (db : Database) (r : EventRow.t) : bool :=
  accepted (events_checks r) && accepted (events_foreign_keys db r).





(** The goal or event behind an entry of the overdue list: a goal past its
    due date and not completed, or an event past its end. *)
Definition overdue_source (goals : list Goal.t) (events : list Event.t)
    (now : Z) (it : OverdueItem) : Prop :=
  (∃ g d, g ∈ goals ∧ it = goal_item now g ∧ Goal.dueDate g = Some d
          ∧ d < now ∧ Goal.status g ≠ completed)
  ∨ (∃ e, e ∈ events ∧ it = event_item now e ∧ Event.endDate e < now).

(** The urgency bucket of a number of days overdue: 0 low, 1-2 medium,
    3-6 high, 7 and more critical. *)
Definition urgency_bucket (days : Z) : Urgency :=
  if days <=? 0 then low
  else if days <=? 2 then medium
  else if days <=? 6 then high
  else critical.

(** [a] may stand before [b] in the overdue list: a more urgent bucket, or
    the same bucket and at least as many days overdue. *)
Definition overdue_before (a b : OverdueItem) : Prop :=
  urgencyOrder (urgency b) < urgencyOrder (urgency a)
  ∨ (urgency a = urgency b ∧ daysOverdue b ≤ daysOverdue a).

(** The priority score of a goal: 5, plus the level, plus 2 when due today,
    plus 2 above 80 percent or 1 above 60 percent, kept within 1..10. *)
Definition goal_score (g : Goal.t) (now : Z) : Z :=
  Z.min 10
    (Z.max 1
       (5 + Goal.level g
        + (if isDueToday g now then 2 else 0)
        + (if Qlt_le_dec 80 (Goal.progress g) then 2
           else if Qlt_le_dec 60 (Goal.progress g) then 1 else 0))).

(** The priority score of an event: 5, plus 3, 2 or 1 when it starts within
    1, 3 or 6 hours, minus 1 when it lasts all day, kept within 1..10. *)
Definition event_score (e : Event.t) (now : Z) : Z :=
  Z.min 10
    (Z.max 1
       (5
        + (if Event.startDate e - now <=? 3600000 then 3
           else if Event.startDate e - now <=? 3 * 3600000 then 2
           else if Event.startDate e - now <=? 6 * 3600000 then 1 else 0)
        - (if Event.allDay e then 1 else 0))).

(** ** Concrete tables and inputs of the examples *)

Definition sample_goal (parent_id : option string) (level : Z) (progress : Q)
    (status : GoalStatus) (completed_at : option Z) : GoalRow.t :=
  GoalRow.mk "goal" None parent_id level progress status None None completed_at
    None "user" 0 0.

Definition goals_db (rows : list (string * GoalRow.t)) : Database :=
  mkDatabase (list_to_map rows) ∅ ∅ ∅.


(** A root at 75 with a completed child at 100 and an active child at 50. *)
Definition db_family : Database :=
  goals_db
    [("A", sample_goal None 1 75 active None);
     ("B", sample_goal (Some "A") 2 100 completed (Some 10));
     ("C", sample_goal (Some "A") 2 50 active None)].



(** Two roots, the second with a chain of descendants down to level 4. *)
Definition db_chain : Database :=
  goals_db
    [("A", sample_goal None 1 0 active None);
     ("B", sample_goal None 1 0 active None);
     ("C", sample_goal (Some "B") 2 0 active None);
     ("D", sample_goal (Some "C") 3 0 active None);
     ("E", sample_goal (Some "D") 4 0 active None)].

(** A root goal of level 1 that is due before it starts. *)
Definition input_bad_dates : CreateGoalInput :=
  mkCreateGoalInput "Read" None None 1 (Some 10) (Some 5) None.

(** The event of 2024-01-01, 09:00 to 10:00 UTC, not all day, and the
    database in which it has just been created. *)
Definition input_new_year : CreateEventInput :=
  mkCreateEventInput "Kickoff" None 1704099600000 1704103200000 (Some false)
    None None None.

Definition db_new_year : Database :=
  match createEvent (goals_db []) (Some "user") input_new_year "E" 1700000000000 with
  | Ok (db, _) => db
  | Err _ => goals_db []
  end.



(** Ten o'clock on 2024-01-01, and goals of that morning. *)
Definition ten_o_clock : Z := 1704103200000.

Definition sample_task (id : string) (level : Z) (status : GoalStatus)
    (dueDate : option Z) : Goal.t :=
  Goal.mk id "task" None None level 0 status None dueDate None None "user" 0 0.

(** Due at nine o'clock, an hour ago. *)
Definition goal_due_at_nine : Goal.t :=
  sample_task "late" 4 active (Some 1704099600000).

(** A level-4 active goal without due date, and a level-4 completed goal due
    today. *)
Definition goal_without_due_date : Goal.t := sample_task "open" 4 active None.

Definition goal_done_today : Goal.t :=
  sample_task "done" 4 completed (Some 1704099600000).

(** * Further functions *)

(** ** [types/goals.ts]: helpers on levels *)

Definition canHaveChildren (goal : Goal.t) : bool := Goal.level goal <? 4.

(** [getChildLevel]; [None] is [null]. *)
Definition getChildLevel (parentLevel : Z) : option Z :=
  if 4 <=? parentLevel then None else Some (parentLevel + 1).

(** ** [GoalService]: deletion, ancestors, statistics *)

(** A row whose [parent_id] references one of the rows in [dead]. *)
Definition references (dead : gset string) (r : GoalRow.t) : bool :=
  match GoalRow.parent_id r with
  | Some p => bool_decide (p ∈ dead)
  | None => false
  end.

(** [ON DELETE CASCADE] on [goals.parent_id]: the rows deleted with the rows
    of [dead], after [n] rounds of following the references. *)
Fixpoint cascade (n : nat) (tbl : gmap string GoalRow.t) (dead : gset string)
    : gset string :=
  match n with
  | O => dead
  | S n' =>
      cascade n' tbl
        (dead ∪ dom (filter (λ d : string * GoalRow.t,
                               references dead d.2 = true) tbl))
  end.

(** [DELETE FROM goals WHERE id = id]: the row goes, and with it every row
    that references a deleted row.  A chain of references is no longer than
    the table. *)
Definition goals_delete (db : Database) (id : string) : Database :=
  set_goals db
    (filter (λ d : string * GoalRow.t,
               d.1 ∉ cascade (size (goals db)) (goals db) {[id]})
       (goals db)).

(** [deleteGoal]; deleting has no constraint to violate, and deleting no row
    is no error. *)
Definition deleteGoal (db : Database) (id : string) : Database :=
  goals_delete db id.

(** [getGoalAncestors]: the loop [while (currentGoal.parentId)], with the
    array built by [unshift].  [fuel] bounds the number of iterations and
    [None] is a run that needs more. *)
Fixpoint getGoalAncestors_loop (fuel : nat) (db : Database)
    (currentGoal : Goal.t) (ancestors : list Goal.t)
    : option (Result (list Goal.t)) :=
  if truthy (Goal.parentId currentGoal) then
    match fuel with
    | O => None
    | S fuel' =>
        match getGoal db (default "" (Goal.parentId currentGoal)) with
        | Err e => Some (Err e)
        | Ok parent =>
            getGoalAncestors_loop fuel' db parent (parent :: ancestors)
        end
    end
  else Some (Ok ancestors).

Definition getGoalAncestors (fuel : nat) (db : Database) (id : string)
    : option (Result (list Goal.t)) :=
  match getGoal db id with
  | Err e => Some (Err e)
  | Ok currentGoal => getGoalAncestors_loop fuel db currentGoal []
  end.

(** A JavaScript number that may be [NaN]. *)
Inductive number := Num (n : Z) | NaN.

(** [obj[key]++] on an object of counters: a missing key reads [undefined]
    and becomes [NaN], and [NaN] stays. *)
Definition increment (key : Z) (obj : gmap Z number) : gmap Z number :=
  <[key := match obj !! key with
           | Some (Num n) => Num (n + 1)
           | _ => NaN
           end]> obj.

(** The counters [goalsByStatus]. *)
Record ByStatus := mkByStatus {
  n_active : Z;
  n_completed : Z;
  n_paused : Z;
  n_cancelled : Z;
}.

Definition increment_status (s : GoalStatus) (c : ByStatus) : ByStatus :=
  match s with
  | active => mkByStatus (n_active c + 1) (n_completed c) (n_paused c) (n_cancelled c)
  | completed => mkByStatus (n_active c) (n_completed c + 1) (n_paused c) (n_cancelled c)
  | paused => mkByStatus (n_active c) (n_completed c) (n_paused c + 1) (n_cancelled c)
  | cancelled => mkByStatus (n_active c) (n_completed c) (n_paused c) (n_cancelled c + 1)
  end.

Record GoalStatistics := mkGoalStatistics {
  gs_totalGoals : Z;
  gs_completedGoals : Z;
  gs_activeGoals : Z;
  gs_overallProgress : Q;
  goalsByLevel : gmap Z number;
  goalsByStatus : ByStatus;
}.

(** [getGoalStatistics]. *)
Definition getGoalStatistics (db : Database) : GoalStatistics :=
  let goals := getGoals db no_filters in
  let '(byLevel, byStatus, totalProgress) :=
    fold_left
      (λ '(byLevel, byStatus, totalProgress) goal,
         (increment (Goal.level goal) byLevel,
          increment_status (Goal.status goal) byStatus,
          (totalProgress + Goal.progress goal)%Q))
      goals
      ({[1 := Num 0; 2 := Num 0; 3 := Num 0; 4 := Num 0]},
       mkByStatus 0 0 0 0, 0%Q) in
  mkGoalStatistics
    (Z.of_nat (length goals))
    (Z.of_nat (length (filter (λ g, Goal.status g = completed) goals)))
    (Z.of_nat (length (filter (λ g, Goal.status g = active) goals)))
    (if (0 <? length goals)%nat
     then (totalProgress / inject_Z (Z.of_nat (length goals)))%Q
     else 0%Q)
    byLevel byStatus.

(** ** [EventService]: deletion *)


(** ** [DashboardService]: statistics *)

Record DashboardStatistics := mkDashboardStatistics {
  ds_totalGoals : Z;
  ds_completedGoals : Z;
  ds_activeGoals : Z;
  ds_overallProgress : Q;
  ds_totalEvents : Z;
  ds_completedEvents : Z;
  ds_overdueItems : Z;
  ds_todayTasksCount : Z;
}.

(** [calculateStatistics]. *)
Definition calculateStatistics (goals : list Goal.t) (events : list Event.t)
    (now : Z) : DashboardStatistics :=
  let completedGoals :=
    length (filter (λ g, Goal.status g = completed) goals) in
  let activeGoals := length (filter (λ g, Goal.status g = active) goals) in
  let totalProgress := Qsum (Goal.progress <$> goals) in
  let overallProgress :=
    if (0 <? length goals)%nat
    then (totalProgress / inject_Z (Z.of_nat (length goals)))%Q
    else 0%Q in
  let todayGoals :=
    filter (λ g, Goal.level g = 4 ∧ isDueToday g now = true) goals in
  let todayEvents :=
    filter (λ e, isToday (Event.startDate e) now = true) events in
  let todayTasksCount := (length todayGoals + length todayEvents)%nat in
  let completedEvents :=
    length (filter (λ e, isPast (Event.endDate e) now = true) events) in
  let overdueGoals := filter (λ g, isOverdue_goal g now = true) goals in
  let overdueEvents := filter (λ e, isOverdue_event e now = true) events in
  let overdueItems := (length overdueGoals + length overdueEvents)%nat in
  mkDashboardStatistics
    (Z.of_nat (length goals)) (Z.of_nat completedGoals) (Z.of_nat activeGoals)
    overallProgress (Z.of_nat (length events)) (Z.of_nat completedEvents)
    (Z.of_nat overdueItems) (Z.of_nat todayTasksCount).

(** ** [DashboardService]: the streak *)

(** The calendar day of an instant; [format(date, 'yyyy-MM-dd')] of two
    instants is the same string exactly when they are of the same day. *)
Definition day_of (date : Z) : Z := date / ms_per_day.

(** [subDays(date, amount)]. *)
Definition subDays (date amount : Z) : Z := date - amount * ms_per_day.

(** [dayHasActivity] for the day of [checkDate]. *)
Definition dayHasActivity (goals : list Goal.t) (events : list Event.t)
    (checkDate : Z) : bool :=
  existsb (λ g, day_of (Goal.updatedAt g) =? day_of checkDate) goals
  || existsb (λ e, day_of (Event.startDate e) =? day_of checkDate) events.

(** The loop [for (let i = 0; i < 30; i++)] of [calculateStreakDays], with
    [rounds] rounds left. *)
Fixpoint calculateStreakDays_loop (rounds : nat) (goals : list Goal.t)
    (events : list Event.t) (today : Z) (i streak : Z) : Z :=
  match rounds with
  | O => streak
  | S rounds' =>
      if dayHasActivity goals events (subDays today i)
      then calculateStreakDays_loop rounds' goals events today (i + 1)
             (streak + 1)
      else streak
  end.

Definition calculateStreakDays (goals : list Goal.t) (events : list Event.t)
    (now : Z) : Z :=
  calculateStreakDays_loop 30 goals events now 0 0.

(** ** [GoalService]: the tree of a goal *)

(** [GoalWithChildren], as built by [buildGoalBranch]: a goal with the
    array of its children. *)
#[warnings="-register-all"] Inductive GoalWithChildren :=
  Node (goal : Goal.t) (children : list GoalWithChildren).

(** [buildGoalBranch].  The recursion follows the references to parents
    downwards; [fuel] bounds its depth and [None] is a run that needs
    more. *)
Fixpoint buildGoalBranch (fuel : nat) (goal : Goal.t) (allGoals : list Goal.t)
    : option GoalWithChildren :=
  match fuel with
  | O => None
  | S fuel' =>
      children ←
        mapM (λ child, buildGoalBranch fuel' child allGoals)
          (filter (λ g, Goal.parentId g = Some (Goal.id goal)) allGoals);
      Some (Node goal children)
  end.

(** [getGoalWithChildren]. *)
Definition getGoalWithChildren (fuel : nat) (db : Database) (id : string)
    : option (Result GoalWithChildren) :=
  let goals := getGoals db no_filters in
  match List.find (λ g, bool_decide (Goal.id g = id)) goals with
  | None => Some (Err "Goal not found")
  | Some goal => Ok <$> buildGoalBranch fuel goal goals
  end.

(** A node of the tree of [buildGoalTree].  The nodes are the objects held
    by [goalMap], and a reference to a node (in a [children] array, in
    [parent], in [rootGoals]) is the key of the node in that map. *)
Record TreeNode := mkTreeNode {
  tn_goal : Goal.t;
  tn_children : list string;
  tn_parent : option string;
}.

(** The first pass of [buildGoalTree]. *)
Definition buildGoalTree_nodes (goals : list Goal.t) : gmap string TreeNode :=
  fold_left
    (λ goalMap goal, <[Goal.id goal := mkTreeNode goal [] None]> goalMap)
    goals ∅.

(** One round of the second pass; [goalNode] is the node under
    [goal.id]. *)
Definition buildGoalTree_link (st : gmap string TreeNode * list string)
    (goal : Goal.t) : gmap string TreeNode * list string :=
  let '(goalMap, rootGoals) := st in
  if truthy (Goal.parentId goal) then
    let parentId := default "" (Goal.parentId goal) in
    match goalMap !! parentId with
    | Some parent =>
        let goalMap :=
          <[parentId := mkTreeNode (tn_goal parent)
                          (tn_children parent ++ [Goal.id goal])
                          (tn_parent parent)]> goalMap in
        let goalMap :=
          alter (λ goalNode,
                   mkTreeNode (tn_goal goalNode) (tn_children goalNode)
                     (Some parentId))
            (Goal.id goal) goalMap in
        (goalMap, rootGoals)
    | None => (goalMap, rootGoals)
    end
  else (goalMap, rootGoals ++ [Goal.id goal]).

(** [buildGoalTree]: the nodes and the array [rootGoals]. *)
Definition buildGoalTree (goals : list Goal.t)
    : gmap string TreeNode * list string :=
  fold_left buildGoalTree_link goals (buildGoalTree_nodes goals, []).

(** [getGoalTree]. *)
Definition getGoalTree (db : Database) : gmap string TreeNode * list string :=
  buildGoalTree (getGoals db no_filters).

(** ** [EventService]: the list of events *)





(** ** Further notions used in the statements *)

(** An [events] table all of whose rows are accepted. *)
Definition events_consistent (db : Database) : Prop :=
  map_Forall (λ _ r, event_accepted db r = true) (events db).

(** The stored progress of [a] is its recomputed progress. *)
Definition in_sync (db : Database) (a : string) : Prop :=
  ∃ p q, goals db !! a = Some p
         ∧ calculateParentProgress db a = Ok q
         ∧ (GoalRow.progress p == q)%Q.

(** The descendants of a goal: the goals that have it among their
    ancestors. *)
Definition descendants (db : Database) (id : string) : gset string :=
  dom (filter (λ d : string * GoalRow.t, id ∈ ancestors db d.1) (goals db)).

(** A row whose level is shifted by [delta] by an update at [now]. *)
Definition relevel (delta now : Z) (r : GoalRow.t) : GoalRow.t :=
  update_goal_updated_at now
    (apply_patch
       (mkGoalPatch None None None (Some (GoalRow.level r + delta)) None None
          None None None None) r).

(** The state of a move of [goalId] in [db]: [cur] is [db] with the row
    [NEW] for [goalId] and the rows of [shifted] shifted by [delta]. *)
Definition moving (db : Database) (goalId : string) (NEW : GoalRow.t)
    (delta now : Z) (shifted : gset string) (cur : Database) : Prop :=
  categories cur = categories db
  ∧ ∀ k, goals cur !! k
         = (λ r, if decide (k = goalId) then NEW
                 else if decide (k ∈ shifted) then relevel delta now r
                 else r) <$> goals db !! k.

(** A day on which a goal was updated or an event starts. *)
Definition has_activity (goals : list Goal.t) (events : list Event.t)
    (day : Z) : Prop :=
  (∃ g, g ∈ goals ∧ day_of (Goal.updatedAt g) = day)
  ∨ (∃ e, e ∈ events ∧ day_of (Event.startDate e) = day).

(** [child] names [id] as its parent, as [buildGoalTree] reads it. *)
Definition child_of (id : string) (child : Goal.t) : Prop :=
  truthy (Goal.parentId child) = true ∧ Goal.parentId child = Some id.

#[global] Instance child_of_dec id child : Decision (child_of id child).
Proof. unfold child_of. apply _. Defined.

(** The node of [g] once the goals of [done] have been linked: its children
    are the goals of [done] that name it, and its parent is set if [g] is
    one of [done] and names a goal of the list. *)
Definition linked (goals done : list Goal.t) (g : Goal.t) : TreeNode :=
  mkTreeNode g
    (Goal.id <$> filter (child_of (Goal.id g)) done)
    (if bool_decide (Goal.id g ∈ Goal.id <$> done) && truthy (Goal.parentId g)
        && bool_decide (default "" (Goal.parentId g) ∈ Goal.id <$> goals)
     then Some (default "" (Goal.parentId g))
     else None).

(** The goals of a tree, the root first. *)
Fixpoint nodes (t : GoalWithChildren) : list Goal.t :=
  match t with
  | Node goal children => goal :: flat_map nodes children
  end.


(** ** Further inputs of the examples *)

(** A goal of level 3 to be created under ["B"]. *)
Definition input_child : CreateGoalInput :=
  mkCreateGoalInput "Chapter" None (Some "B") 3 None None None.


(** An update of event ["E"] that renames it and moves its end to 11:00. *)
Definition input_longer : UpdateEventInput :=
  mkUpdateEventInput "E" (Some "Workshop") None None (Some 1704106800000)
    None None None None.

(** * Properties *)

(** ** Sorting *)

Section sorting.
Context {A : Type} (cmp : A → A → Z).

Lemma sort_insert_Permutation x l : sort_insert cmp x l ≡ₚ x :: l.
Proof.
  induction l as [|y l IH]; simpl; [done|].
  destruct (cmp x y <=? 0); [done|].
  rewrite IH. apply Permutation_swap.
Qed.

Lemma Array_sort_Permutation l : Array_sort cmp l ≡ₚ l.
Proof.
  induction l as [|x l IH]; simpl; [done|].
  rewrite sort_insert_Permutation. by rewrite IH.
Qed.

Context (R : relation A).
Context (R_trans : Transitive R).
Context (cmp_le : ∀ x y, cmp x y ≤ 0 → R x y).
Context (cmp_gt : ∀ x y, 0 < cmp x y → R y x).

Lemma sort_insert_Sorted x l :
  StronglySorted R l → StronglySorted R (sort_insert cmp x l).
Proof.
  induction 1 as [|y l Hl IH Hy]; simpl.
  - repeat constructor.
  - destruct (Z.leb_spec (cmp x y) 0) as [Hle|Hgt].
    + constructor; [by constructor|].
      constructor; [by apply cmp_le|].
      eapply Forall_impl; [exact Hy|]. intros z Hz.
      etrans; [by apply cmp_le|done].
    + constructor; [done|].
      rewrite sort_insert_Permutation. constructor; [by apply cmp_gt|done].
Qed.

Lemma Array_sort_Sorted l : StronglySorted R (Array_sort cmp l).
Proof.
  induction l as [|x l IH]; simpl; [constructor|].
  by apply sort_insert_Sorted.
Qed.
End sorting.

(** ** The recomputed progress of a parent *)

Lemma filter_fmap_comm {A B} (f : A → B) (P : B → Prop) `{∀ x, Decision (P x)}
    (l : list A) :
  filter P (f <$> l) = f <$> filter (P ∘ f) l.
Proof.
  induction l as [|x l IH]; [done|].
  rewrite fmap_cons, !filter_cons. simpl.
  destruct (decide (P (f x))); by rewrite IH.
Qed.

Lemma fold_left_Qplus_acc l a : (fold_left Qplus l a == a + foldr Qplus 0 l)%Q.
Proof.
  revert a. induction l as [|x l IH]; intros a; simpl.
  - lra.
  - rewrite IH. lra.
Qed.

Lemma Qsum_foldr l : (Qsum l == foldr Qplus 0 l)%Q.
Proof. unfold Qsum. rewrite fold_left_Qplus_acc. lra. Qed.

Lemma foldr_Qplus_Permutation l1 l2 :
  l1 ≡ₚ l2 → (foldr Qplus 0 l1 == foldr Qplus 0 l2)%Q.
Proof.
  induction 1 as [|x l1 l2 _ IH|x y l|l1 l2 l3 _ IH1 _ IH2]; simpl.
  - reflexivity.
  - by rewrite IH.
  - lra.
  - by rewrite IH1.
Qed.


Lemma Qmake_100 n : (n # 100 == inject_Z n / 100)%Q.
Proof. rewrite Qmake_Qdiv. reflexivity. Qed.


Lemma round2_comp x y : (x == y)%Q → round2 x = round2 y.
Proof.
  intros H. unfold round2, Math_round. f_equal.
  apply Qfloor_comp. by rewrite H.
Qed.

(** The progress values averaged by the service are those of the eligible
    children, in some order. *)
Lemma relevantChildren_eligible db parentId :
  Goal.progress <$>
    filter (λ child, Goal.status child = active ∨ Goal.status child = completed)
      (getGoalChildren db parentId)
  ≡ₚ GoalRow.progress <$> eligible_children db parentId.
Proof.
  unfold getGoalChildren, getGoals, eligible_children.
  rewrite filter_fmap_comm, Array_sort_Permutation, list_filter_filter.
  rewrite filter_fmap_comm, <-!list_fmap_compose.
  induction (map_to_list (goals db)) as [|[k r] l IH]; [done|].
  rewrite !filter_cons. simpl.
  unfold matches_filters. simpl.
  destruct (decide (GoalRow.parent_id r = Some parentId)) as [Hp|Hp].
  - rewrite (bool_decide_eq_true_2 _ Hp). simpl.
    destruct (decide (GoalRow.status r = active ∨ GoalRow.status r = completed)).
    + rewrite decide_True by done. rewrite decide_True by done.
      rewrite !fmap_cons. simpl. by rewrite IH.
    + rewrite decide_False by tauto. rewrite decide_False by tauto. done.
  - rewrite (bool_decide_eq_false_2 _ Hp). simpl.
    rewrite decide_False by (intros [_ ?]; done).
    rewrite decide_False by tauto. done.
Qed.

Lemma getGoalChildren_nil_eligible db parentId :
  getGoalChildren db parentId = [] → eligible_children db parentId = [].
Proof.
  intros H. pose proof (relevantChildren_eligible db parentId) as HP.
  rewrite H in HP. simpl in HP.
  apply Permutation_nil_l in HP. symmetry in HP. by apply fmap_nil_inv in HP.
Qed.

Lemma calculateParentProgress_eq db parentId :
  calculateParentProgress db parentId
  = Ok match GoalRow.progress <$> eligible_children db parentId with
       | [] => 0%Q
       | ps => round2 (mean ps)
       end.
Proof.
  unfold calculateParentProgress.
  pose proof (relevantChildren_eligible db parentId) as HP.
  destruct (Nat.eqb_spec (length (getGoalChildren db parentId)) 0) as [Hn|Hn].
  { apply length_zero_iff_nil in Hn.
    by rewrite (getGoalChildren_nil_eligible _ _ Hn). }
  set (rel := filter _ (getGoalChildren db parentId)) in *.
  destruct (Nat.eqb_spec (length rel) 0) as [Hr|Hr].
  { apply length_zero_iff_nil in Hr. rewrite Hr in HP.
    apply Permutation_nil_l in HP. by rewrite <-HP. }
  assert (round2 (Qsum (Goal.progress <$> rel) / inject_Z (Z.of_nat (length rel)))
          = round2 (mean (GoalRow.progress <$> eligible_children db parentId)))
    as ->.
  { apply round2_comp. unfold mean.
    rewrite Qsum_foldr, (foldr_Qplus_Permutation _ _ HP).
    rewrite <-(Permutation_length HP), length_fmap. reflexivity. }
  destruct (GoalRow.progress <$> eligible_children db parentId) as [|p ps] eqn:E;
    [|done].
  apply Permutation_nil_r in HP. apply fmap_nil_inv in HP.
  by rewrite HP in Hr.
Qed.



(** The storage function averages the 'active' children only: next to a
    completed child at 100, an active child at 50 gives 50 where the service
    gives 75. *)
Lemma calculate_parent_goal_progress_active_only :
  (calculate_parent_goal_progress (goals db_family) "A" == 50)%Q
  ∧ calculateParentProgress db_family "A" = Ok (7500 # 100)%Q.
Proof. split; by vm_compute. Qed.

(** ** Arithmetic of stored progress values *)

Lemma Qle_bool_true x y : Qle_bool x y = true ↔ (x <= y)%Q.
Proof. apply Qle_bool_iff. Qed.

Lemma Qle_bool_false x y : Qle_bool x y = false ↔ (y < x)%Q.
Proof.
  rewrite <-not_true_iff_false, Qle_bool_iff. split.
  - apply Qnot_le_lt.
  - apply Qlt_not_le.
Qed.

Lemma clamp_range p : (0 <= Qmin 100 (Qmax 0 p) <= 100)%Q.
Proof.
  split.
  - apply Q.min_glb; [done|]. apply Q.le_max_l.
  - apply Q.le_min_l.
Qed.

Lemma clamp_id p : (0 <= p <= 100)%Q → (Qmin 100 (Qmax 0 p) == p)%Q.
Proof.
  intros [H0 H1]. rewrite (Q.max_r 0 p) by done. by apply Q.min_r.
Qed.

Lemma hundredths_range x :
  (0 <= x <= 100)%Q →
  0 ≤ Qfloor (x * 100 + (1 # 2)) ≤ 10000.
Proof.
  intros [H0 H1]. split.
  - change 0 with (Qfloor 0). apply Qfloor_resp_le. lra.
  - change 10000 with (Qfloor (10000 + (1 # 2))). apply Qfloor_resp_le. lra.
Qed.

Lemma Qmake_100_range n : 0 ≤ n ≤ 10000 → (0 <= n # 100 <= 100)%Q.
Proof. intros [??]. unfold Qle. simpl. lia. Qed.

Lemma numeric_5_2_range x : (0 <= x <= 100)%Q → (0 <= numeric_5_2 x <= 100)%Q.
Proof.
  intros H. unfold numeric_5_2.
  rewrite (proj2 (Qle_bool_true 0 x)) by apply H.
  by apply Qmake_100_range, hundredths_range.
Qed.

Lemma numeric_5_2_comp x y : (x == y)%Q → numeric_5_2 x = numeric_5_2 y.
Proof.
  intros H. unfold numeric_5_2.
  assert (Qle_bool 0 x = Qle_bool 0 y) as ->.
  { apply eq_true_iff_eq. rewrite !Qle_bool_true. by rewrite H. }
  destruct (Qle_bool 0 y).
  - f_equal. apply Qfloor_comp. by rewrite H.
  - do 2 f_equal. apply Qfloor_comp. by rewrite H.
Qed.

Lemma round2_range x : (0 <= x <= 100)%Q → (0 <= round2 x <= 100)%Q.
Proof. intros H. by apply Qmake_100_range, hundredths_range. Qed.

Lemma numeric_5_2_hundredths n : 0 ≤ n → numeric_5_2 (n # 100) = n # 100.
Proof.
  intros Hn. unfold numeric_5_2.
  rewrite (proj2 (Qle_bool_true 0 (n # 100))) by (unfold Qle; simpl; lia).
  f_equal.
  assert ((n # 100) * 100 + (1 # 2) == inject_Z n + (1 # 2))%Q as ->.
  { rewrite Qmake_100. field. }
  apply Z.le_antisymm.
  - apply Z.lt_succ_r. rewrite <-Z.add_1_r, Zlt_Qlt, inject_Z_plus.
    pose proof (Qfloor_le (inject_Z n + (1 # 2))) as H.
    change (inject_Z 1) with 1%Q. lra.
  - rewrite <-(Qfloor_Z n) at 1. apply Qfloor_resp_le. lra.
Qed.

(** ** Acceptance of rows by the storage layer *)

Lemma accepted_unit (r : Result unit) : accepted r = true → r = Ok tt.
Proof. by destruct r as [[]|]. Qed.

Lemma validate_accepted tbl r :
  accepted (validate_goal_hierarchy tbl r) = true →
  validate_goal_hierarchy tbl r = Ok r.
Proof.
  unfold validate_goal_hierarchy.
  destruct (GoalRow.parent_id r) as [pid|].
  - destruct (GoalRow.level <$> tbl !! pid); [|done].
    by destruct (negb _).
  - by destruct (negb _).
Qed.

Lemma row_accepted_inv db id r :
  row_accepted db id r = true →
  validate_goal_hierarchy (goals db) r = Ok r
  ∧ goals_checks id r = Ok tt
  ∧ goals_foreign_keys db r = Ok tt.
Proof.
  unfold row_accepted. rewrite !andb_true_iff. intros [[H1 H2] H3].
  auto using validate_accepted, accepted_unit.
Qed.

Lemma row_accepted_intro db id r :
  validate_goal_hierarchy (goals db) r = Ok r →
  goals_checks id r = Ok tt →
  goals_foreign_keys db r = Ok tt →
  row_accepted db id r = true.
Proof. unfold row_accepted. by intros -> -> ->. Qed.

Lemma validate_same_shape tbl r r' :
  same_shape r r' →
  validate_goal_hierarchy tbl r = Ok r →
  validate_goal_hierarchy tbl r' = Ok r'.
Proof.
  intros (_ & Hp & Hl & _). unfold validate_goal_hierarchy.
  rewrite Hp, Hl.
  destruct (GoalRow.parent_id r) as [pid|].
  - destruct (GoalRow.level <$> tbl !! pid); [|done].
    by destruct (negb _).
  - by destruct (negb _).
Qed.

Lemma guard_or_Ok b msg : guard_or b msg = Ok tt ↔ b = true.
Proof. by destruct b. Qed.

Lemma goals_checks_Ok id r :
  goals_checks id r = Ok tt ↔
    Nat.leb (String.length (GoalRow.title r)) 500 = true
    ∧ ((1 <=? GoalRow.level r) && (GoalRow.level r <=? 4)) = true
    ∧ (Qle_bool 0 (GoalRow.progress r) && Qle_bool (GoalRow.progress r) 100) = true
    ∧ valid_date_range (GoalRow.start_date r) (GoalRow.due_date r) = true
    ∧ negb (bool_decide (GoalRow.parent_id r = Some id)) = true.
Proof.
  unfold goals_checks.
  destruct (Nat.leb _ 500); simpl; [|split; [done|by intros [? _]]].
  destruct ((1 <=? _) && _); simpl; [|split; [done|by intros (_ & ? & _)]].
  destruct (Qle_bool 0 _ && _); simpl;
    [|split; [done|by intros (_ & _ & ? & _)]].
  destruct (valid_date_range _ _); simpl;
    [|split; [done|by intros (_ & _ & _ & ? & _)]].
  destruct (negb _); simpl; [done|].
  split; [done|by intros (_ & _ & _ & _ & ?)].
Qed.

Lemma goals_checks_same_shape id r r' :
  same_shape r r' →
  (0 <= GoalRow.progress r' <= 100)%Q →
  goals_checks id r = Ok tt →
  goals_checks id r' = Ok tt.
Proof.
  intros (Ht & Hp & Hl & Hs & Hd & _) [H0 H1].
  rewrite !goals_checks_Ok, Ht, Hp, Hl, Hs, Hd.
  intros (? & ? & _ & ? & ?). repeat split; try done.
  apply andb_true_iff. by rewrite !Qle_bool_true.
Qed.

Lemma goals_foreign_keys_same_shape db r r' :
  same_shape r r' →
  goals_foreign_keys db r = Ok tt →
  goals_foreign_keys db r' = Ok tt.
Proof.
  intros (_ & Hp & _ & _ & _ & Hc). unfold goals_foreign_keys.
  by rewrite Hp, Hc.
Qed.

(** Writing a row of the same level and parent under an existing key changes
    neither the levels seen by the hierarchy trigger nor the keys. *)
Section rewrite_row.
Context (db : Database) (id : string) (r r' : GoalRow.t).
Context (Hid : goals db !! id = Some r).
Context (Hshape : same_shape r r').


Lemma rewrite_row_level pid :
  GoalRow.level <$> goals (rewrite_goal db id r') !! pid = GoalRow.level <$> goals db !! pid.
Proof.
  simpl. destruct (decide (id = pid)) as [<-|Hne].
  - rewrite lookup_insert_eq, Hid. simpl. f_equal. apply Hshape.
  - by rewrite lookup_insert_ne.
Qed.

Lemma rewrite_row_parent pid :
  GoalRow.parent_id <$> goals (rewrite_goal db id r') !! pid = GoalRow.parent_id <$> goals db !! pid.
Proof.
  simpl. destruct (decide (id = pid)) as [<-|Hne].
  - rewrite lookup_insert_eq, Hid. simpl. f_equal. apply Hshape.
  - by rewrite lookup_insert_ne.
Qed.

Lemma rewrite_row_is_Some pid :
  is_Some (goals (rewrite_goal db id r') !! pid) ↔ is_Some (goals db !! pid).
Proof. by rewrite <-!(fmap_is_Some GoalRow.level), rewrite_row_level. Qed.

Lemma rewrite_row_validate x :
  validate_goal_hierarchy (goals (rewrite_goal db id r')) x = validate_goal_hierarchy (goals db) x.
Proof.
  unfold validate_goal_hierarchy.
  destruct (GoalRow.parent_id x) as [pid|]; [|done].
  by rewrite rewrite_row_level.
Qed.

Lemma rewrite_row_foreign_keys x :
  goals_foreign_keys (rewrite_goal db id r') x = goals_foreign_keys db x.
Proof.
  unfold goals_foreign_keys.
  destruct (GoalRow.parent_id x) as [pid|]; [|done].
  assert (bool_decide (is_Some (goals (rewrite_goal db id r') !! pid))
          = bool_decide (is_Some (goals db !! pid))) as ->; [|done].
  apply bool_decide_ext, rewrite_row_is_Some.
Qed.

Lemma rewrite_row_accepted k x :
  row_accepted (rewrite_goal db id r') k x = row_accepted db k x.
Proof.
  unfold row_accepted.
  by rewrite rewrite_row_validate, rewrite_row_foreign_keys.
Qed.

Lemma rewrite_row_consistent :
  (0 <= GoalRow.progress r' <= 100)%Q →
  goals_consistent db → goals_consistent (rewrite_goal db id r').
Proof.
  intros Hprog Hc k x. simpl. intros Hk.
  rewrite rewrite_row_accepted.
  destruct (decide (id = k)) as [<-|Hne].
  - rewrite lookup_insert_eq in Hk. injection Hk as <-.
    destruct (row_accepted_inv _ _ _ (Hc _ _ Hid)) as (Hv & Hch & Hfk).
    apply row_accepted_intro;
      eauto using validate_same_shape, goals_checks_same_shape,
        goals_foreign_keys_same_shape.
  - rewrite lookup_insert_ne in Hk by done. by apply Hc.
Qed.

Lemma rewrite_row_parent_of k : parent_of (rewrite_goal db id r') k = parent_of db k.
Proof.
  unfold parent_of.
  pose proof (rewrite_row_parent k) as H.
  destruct (goals (rewrite_goal db id r') !! k) as [x|], (goals db !! k) as [y|];
    simpl in *; try done.
  injection H as H. by rewrite H.
Qed.

Lemma rewrite_row_ancestors n k :
  ancestors_upto n (rewrite_goal db id r') k = ancestors_upto n db k.
Proof.
  revert k. induction n as [|n IH]; intros k; simpl; [done|].
  rewrite rewrite_row_parent_of.
  destruct (parent_of db k); [|done]. by rewrite IH.
Qed.
End rewrite_row.

(** ** The recomputed progress stays in range *)

Lemma foldr_Qplus_bounds l :
  Forall (λ p, 0 <= p <= 100)%Q l →
  (0 <= foldr Qplus 0 l
   ∧ foldr Qplus 0 l <= 100 * inject_Z (Z.of_nat (length l)))%Q.
Proof.
  induction 1 as [|p l [H0 H1] _ [IH0 IH1]]; simpl length; simpl foldr.
  - split; by vm_compute.
  - rewrite Nat2Z.inj_succ, <-Z.add_1_r, inject_Z_plus.
    change (inject_Z 1) with 1%Q. split; lra.
Qed.

Lemma mean_range l :
  l ≠ [] → Forall (λ p, 0 <= p <= 100)%Q l → (0 <= mean l <= 100)%Q.
Proof.
  intros Hne Hl. destruct (foldr_Qplus_bounds l Hl) as [H0 H1].
  assert (0 < inject_Z (Z.of_nat (length l)))%Q as Hlen.
  { change 0%Q with (inject_Z 0). rewrite <-Zlt_Qlt.
    destruct l; [done|]. simpl length. lia. }
  unfold mean. split.
  - apply Qle_shift_div_l; [done|]. lra.
  - apply Qle_shift_div_r; [done|]. lra.
Qed.

Lemma accepted_progress_range db id r :
  row_accepted db id r = true → (0 <= GoalRow.progress r <= 100)%Q.
Proof.
  intros H. apply row_accepted_inv in H as (_ & H & _).
  apply goals_checks_Ok in H as (_ & _ & H & _).
  apply andb_true_iff in H. by rewrite !Qle_bool_true in H.
Qed.

Lemma eligible_children_range db parentId :
  goals_consistent db →
  Forall (λ p, 0 <= p <= 100)%Q
    (GoalRow.progress <$> eligible_children db parentId).
Proof.
  intros Hc. apply Forall_fmap, Forall_forall. intros r Hr.
  apply list_elem_of_filter in Hr as [_ Hr].
  apply list_elem_of_fmap in Hr as ([k r'] & -> & Hr).
  apply elem_of_map_to_list in Hr. simpl.
  by eapply accepted_progress_range, Hc.
Qed.

(** The recomputed progress is a number of hundredths between 0 and 100: the
    column stores it as it is. *)
Lemma calculateParentProgress_stored db parentId :
  goals_consistent db →
  ∃ q, calculateParentProgress db parentId = Ok q
       ∧ (0 <= q <= 100)%Q
       ∧ (numeric_5_2 (Qmin 100 (Qmax 0 q)) == q)%Q.
Proof.
  intros Hc. rewrite calculateParentProgress_eq.
  pose proof (eligible_children_range db parentId Hc) as Hr.
  destruct (GoalRow.progress <$> eligible_children db parentId) as [|p ps] eqn:E.
  - eexists; split; [done|]. split; [lra|]. by vm_compute.
  - eexists; split; [done|].
    assert (0 <= mean (p :: ps) <= 100)%Q as Hm by by apply mean_range.
    split; [by apply round2_range|].
    rewrite (numeric_5_2_comp _ (round2 (mean (p :: ps)))).
    + unfold round2. rewrite numeric_5_2_hundredths; [done|].
      apply hundredths_range, Hm.
    + by apply clamp_id, round2_range.
Qed.

(** ** Updates that keep the shape of a row *)

Lemma apply_patch_same_shape p r now :
  keeps_shape p → same_shape r (update_goal_updated_at now (apply_patch p r)).
Proof.
  intros (Ht & Hp & Hl & Hs & Hd & Hc & _).
  unfold same_shape. simpl. by rewrite Ht, Hp, Hl, Hs, Hd, Hc.
Qed.

Lemma apply_patch_progress_range p r now db id :
  keeps_shape p → row_accepted db id r = true →
  (0 <= GoalRow.progress (update_goal_updated_at now (apply_patch p r)) <= 100)%Q.
Proof.
  intros (_ & _ & _ & _ & _ & _ & Hx) Hr. simpl.
  destruct (p_progress p) as [x|]; simpl.
  - by apply numeric_5_2_range.
  - by eapply accepted_progress_range.
Qed.

Lemma goals_update_accepted db id r p now :
  goals db !! id = Some r → row_accepted db id r = true → keeps_shape p →
  let NEW := update_goal_updated_at now (apply_patch p r) in
  goals_update db id p now = Ok (rewrite_goal db id NEW, NEW)
  ∧ same_shape r NEW
  ∧ (0 <= GoalRow.progress NEW <= 100)%Q.
Proof.
  intros Hid Hacc Hp NEW.
  pose proof (apply_patch_same_shape p r now Hp) as Hshape.
  pose proof (apply_patch_progress_range p r now db id Hp Hacc) as Hrange.
  destruct (row_accepted_inv _ _ _ Hacc) as (Hv & Hch & Hfk).
  subst NEW. split; [|done].
  unfold goals_update. rewrite Hid.
  rewrite (validate_same_shape _ _ _ Hshape Hv). simpl.
  rewrite (goals_checks_same_shape _ _ _ Hshape Hrange Hch). simpl.
  by rewrite (goals_foreign_keys_same_shape _ _ _ Hshape Hfk).
Qed.

Lemma goals_update_keeps_shape db id r p now :
  goals_consistent db → goals db !! id = Some r → keeps_shape p →
  let NEW := update_goal_updated_at now (apply_patch p r) in
  goals_update db id p now = Ok (rewrite_goal db id NEW, NEW)
  ∧ same_shape r NEW
  ∧ goals_consistent (rewrite_goal db id NEW).
Proof.
  intros Hc Hid Hp NEW.
  destruct (goals_update_accepted db id r p now Hid (Hc _ _ Hid) Hp)
    as (Hup & Hshape & Hrange).
  split; [done|]. split; [done|]. by eapply rewrite_row_consistent.
Qed.

#[local] Instance level_ok_dec tbl r : Decision (level_ok tbl r).
Proof.
  unfold level_ok. destruct (GoalRow.parent_id r) as [p|]; [|apply _].
  destruct (tbl !! p); apply _.
Defined.

#[local] Instance level_invariant_dec tbl : Decision (level_invariant tbl).
Proof. unfold level_invariant. apply _. Defined.

#[local] Instance goals_consistent_dec db : Decision (goals_consistent db).
Proof. unfold goals_consistent. apply _. Defined.


(** ** Parents and levels in a consistent table *)

Lemma parent_of_Some db g rg p :
  goals db !! g = Some rg → parent_of db g = Some p →
  GoalRow.parent_id rg = Some p ∧ truthy (Some p) = true.
Proof.
  unfold parent_of. intros -> H. simpl in H.
  destruct (truthy (GoalRow.parent_id rg)) eqn:Ht; [|done].
  by rewrite H in Ht.
Qed.

Lemma parent_of_None db g rg :
  goals db !! g = Some rg → parent_of db g = None →
  truthy (GoalRow.parent_id rg) = false.
Proof.
  unfold parent_of. intros -> H. simpl in H.
  destruct (truthy (GoalRow.parent_id rg)) eqn:Ht; [|done].
  by destruct (GoalRow.parent_id rg).
Qed.

Lemma consistent_level db g rg :
  goals_consistent db → goals db !! g = Some rg → 1 ≤ GoalRow.level rg ≤ 4.
Proof.
  intros Hc Hg. destruct (row_accepted_inv _ _ _ (Hc _ _ Hg)) as (_ & H & _).
  apply goals_checks_Ok in H as (_ & H & _). lia.
Qed.

Lemma consistent_parent db g rg p :
  goals_consistent db → goals db !! g = Some rg →
  GoalRow.parent_id rg = Some p →
  ∃ rp, goals db !! p = Some rp ∧ GoalRow.level rg = GoalRow.level rp + 1.
Proof.
  intros Hc Hg Hp.
  destruct (row_accepted_inv _ _ _ (Hc _ _ Hg)) as (Hv & _ & Hfk).
  unfold goals_foreign_keys in Hfk. rewrite Hp in Hfk.
  destruct (String.eqb p ""); [done|]. simpl in Hfk.
  destruct (decide (is_Some (goals db !! p))) as [[rp Hrp]|Hn].
  - exists rp. split; [done|].
    unfold validate_goal_hierarchy in Hv. rewrite Hp, Hrp in Hv. simpl in Hv.
    destruct (Z.eqb_spec (GoalRow.level rg) (GoalRow.level rp + 1)); done.
  - by rewrite (bool_decide_eq_false_2 _ Hn) in Hfk.
Qed.

Lemma ancestors_upto_levels n db g rg :
  goals_consistent db → goals db !! g = Some rg →
  Forall (λ a, ∃ ra, goals db !! a = Some ra
                     ∧ GoalRow.level ra < GoalRow.level rg)
    (ancestors_upto n db g).
Proof.
  intros Hc. revert g rg. induction n as [|n IH]; intros g rg Hg; simpl.
  { constructor. }
  destruct (parent_of db g) as [p|] eqn:Hp; [|constructor].
  destruct (parent_of_Some _ _ _ _ Hg Hp) as [Hpid _].
  destruct (consistent_parent _ _ _ _ Hc Hg Hpid) as (rp & Hrp & Hl).
  constructor.
  - exists rp. split; [done|lia].
  - eapply Forall_impl; [by apply IH|].
    intros a (ra & Ha & Hlt). exists ra. split; [done|lia].
Qed.

Lemma ancestors_upto_NoDup n db g rg :
  goals_consistent db → goals db !! g = Some rg →
  NoDup (ancestors_upto n db g).
Proof.
  intros Hc. revert g rg. induction n as [|n IH]; intros g rg Hg; simpl.
  { constructor. }
  destruct (parent_of db g) as [p|] eqn:Hp; [|constructor].
  destruct (parent_of_Some _ _ _ _ Hg Hp) as [Hpid _].
  destruct (consistent_parent _ _ _ _ Hc Hg Hpid) as (rp & Hrp & Hl).
  constructor; [|by eapply IH].
  intros Hin.
  pose proof (ancestors_upto_levels n db p rp Hc Hrp) as Hall.
  rewrite Forall_forall in Hall.
  destruct (Hall _ Hin) as (ra & Ha & Hlt).
  rewrite Hrp in Ha. injection Ha as <-. lia.
Qed.



(** ** One call of [updateParentProgressChain] *)

Section chain.
#[local] Arguments truthy : simpl never.
#[local] Arguments calculateParentProgress : simpl never.
#[local] Arguments updateGoal : simpl never.
#[local] Arguments getGoal : simpl never.

Lemma chain_at_root fuel db g rg now :
  goals db !! g = Some rg → parent_of db g = None →
  updateParentProgressChain (S fuel) db g now = Some (Ok db).
Proof.
  intros Hg Hp. pose proof (parent_of_None _ _ _ Hg Hp) as Ht.
  simpl. unfold getGoal. rewrite Hg. simpl.
  destruct (GoalRow.parent_id rg) as [pid|]; [|done].
  by rewrite Ht.
Qed.

(** The row written to the parent. *)
Lemma chain_step fuel db g rg p rp now :
  goals_consistent db → goals db !! g = Some rg →
  parent_of db g = Some p → goals db !! p = Some rp →
  ∃ q NEW,
    calculateParentProgress db p = Ok q
    ∧ (GoalRow.progress NEW == q)%Q
    ∧ same_shape rp NEW
    ∧ goals_consistent (rewrite_goal db p NEW)
    ∧ updateParentProgressChain (S fuel) db g now =
        if Qle_bool (Qabs (GoalRow.progress rp - q)) (1 # 100)
        then Some (Ok db)
        else updateParentProgressChain fuel (rewrite_goal db p NEW) p now.
Proof.
  intros Hc Hg Hp Hrp.
  destruct (parent_of_Some _ _ _ _ Hg Hp) as [Hpid Ht].
  destruct (calculateParentProgress_stored db p Hc) as (q & Hq & Hrange & Hst).
  set (input := mkUpdateGoalInput p None None (Some q)
                  (Some (chain_newStatus (transformGoal (p, rp)) q))
                  None None None).
  assert (keeps_shape (updateGoal_data input now)) as Hks.
  { unfold keeps_shape. simpl. repeat split; apply clamp_range. }
  destruct (goals_update_keeps_shape db p rp _ now Hc Hrp Hks)
    as (Hup & Hshape & Hc').
  exists q, (update_goal_updated_at now (apply_patch (updateGoal_data input now) rp)).
  split; [done|]. split; [exact Hst|]. split; [exact Hshape|].
  split; [exact Hc'|].
  simpl. unfold getGoal at 1. rewrite Hg. simpl. rewrite Hpid, Ht, Hq.
  unfold getGoal. rewrite Hrp. simpl.
  destruct (Qle_bool _ (1 # 100)); simpl; [done|].
  unfold updateGoal. simpl u_id.
  change (goals_update db p _ now)
    with (goals_update db p (updateGoal_data input now) now).
  by rewrite Hup.
Qed.

(** ** The run of the chain *)

Lemma chain_run now n :
  ∀ db g rg m fuel,
    goals_consistent db → goals db !! g = Some rg →
    GoalRow.level rg ≤ Z.of_nat n → (n ≤ fuel)%nat → (n ≤ S m)%nat →
    ∃ db' visited rest,
      updateParentProgressChain fuel db g now = Some (Ok db')
      ∧ ancestors_upto m db g = visited ++ rest
      ∧ visits db visited db'
      ∧ match rest with
        | [] => True
        | a :: _ => within_epsilon db' a
        end
      ∧ (∀ id, id ∉ visited → goals db' !! id = goals db !! id).
Proof.
  induction n as [|n IH]; intros db g rg m fuel Hc Hg Hl Hfuel Hm.
  { pose proof (consistent_level _ _ _ Hc Hg). lia. }
  destruct fuel as [|fuel]; [lia|].
  destruct (parent_of db g) as [p|] eqn:Hp.
  - destruct (parent_of_Some _ _ _ _ Hg Hp) as [Hpid _].
    destruct (consistent_parent _ _ _ _ Hc Hg Hpid) as (rp & Hrp & Hlp).
    pose proof (consistent_level _ _ _ Hc Hrp) as Hlrp.
    destruct m as [|m]; [lia|].
    destruct (chain_step fuel db g rg p rp now Hc Hg Hp Hrp)
      as (q & NEW & Hq & Hprog & Hshape & Hc' & ->).
    simpl ancestors_upto. rewrite Hp.
    destruct (Qle_bool _ (1 # 100)) eqn:Hd.
    + exists db, [], (p :: ancestors_upto m db p).
      split; [done|]. split; [done|]. split; [constructor|]. split; [|done].
      exists rp, q. by rewrite <-Qle_bool_true.
    + assert (goals (rewrite_goal db p NEW) !! p = Some NEW) as Hnew.
      { simpl. apply lookup_insert_eq. }
      destruct (IH (rewrite_goal db p NEW) p NEW m fuel Hc' Hnew)
        as (db' & visited & rest & Hrun & Hanc & Hvis & Hstop & Hframe).
      { destruct Hshape as (_ & _ & -> & _). lia. }
      { lia. }
      { lia. }
      rewrite (rewrite_row_ancestors db p rp NEW Hrp Hshape) in Hanc.
      exists db', (p :: visited), rest.
      split; [done|]. split; [by rewrite Hanc|].
      split; [|split; [done|]].
      * econstructor; [exact Hrp|exact Hq| |exact Hprog|exact Hshape|exact Hvis].
        by apply Qle_bool_false.
      * intros id Hid. apply not_elem_of_cons in Hid as [Hne Hid].
        rewrite (Hframe _ Hid). simpl. by rewrite lookup_insert_ne.
  - rewrite (chain_at_root _ _ _ _ _ Hg Hp).
    exists db, [], []. split; [done|]. split; [|by repeat constructor].
    destruct m; simpl; [done|]. by rewrite Hp.
Qed.

End chain.


(** C10 (amended) at a paused goal set to 40: it becomes 'active'. *)

(** ** [updateProgress] *)

Lemma Qeq_bool_false x y : Qeq_bool x y = false ↔ ¬ (x == y)%Q.
Proof. by rewrite <-not_true_iff_false, Qeq_bool_iff. Qed.







(** ** Completion of the parent *)

(** The trigger's [UPDATE] completes the parent and stamps it once, and
    reopens it and clears the stamp. *)
Lemma update_parent_goal_progress_set_spec parent_progress now parent :
  let parent' :=
    apply_patch (update_parent_goal_progress_set parent_progress now parent)
      parent in
  ((parent_progress == 100)%Q →
     GoalRow.status parent' = completed
     ∧ GoalRow.completed_at parent'
       = Some (default now (GoalRow.completed_at parent)))
  ∧ ((parent_progress < 100)%Q →
       GoalRow.completed_at parent' = None
       ∧ (GoalRow.status parent = completed → GoalRow.status parent' = active)).
Proof.
  unfold update_parent_goal_progress_set, apply_patch. simpl. split.
  - intros H. rewrite (proj2 (Qeq_bool_iff _ _) H). simpl. split; [done|].
    rewrite (proj2 (Qle_bool_true 100 parent_progress)) by lra.
    by destruct (GoalRow.completed_at parent).
  - intros H.
    assert (Qeq_bool parent_progress 100 = false) as ->.
    { apply Qeq_bool_false. lra. }
    rewrite (proj2 (Qle_bool_false 100 parent_progress)) by done. simpl.
    split; [done|]. intros ->. by rewrite bool_decide_eq_true_2.
Qed.



(** ** The level invariant *)

Lemma consistent_level_invariant db :
  goals_consistent db → level_invariant (goals db).
Proof.
  intros Hc id r Hid. unfold level_ok.
  pose proof (consistent_level _ _ _ Hc Hid) as Hl. split; [lia|].
  destruct (GoalRow.parent_id r) as [p|] eqn:Hp.
  - destruct (consistent_parent _ _ _ _ Hc Hid Hp) as (rp & -> & ?). done.
  - destruct (row_accepted_inv _ _ _ (Hc _ _ Hid)) as (Hv & _).
    unfold validate_goal_hierarchy in Hv. rewrite Hp in Hv.
    by destruct (Z.eqb_spec (GoalRow.level r) 1).
Qed.

(** C4, at one input.  The table satisfies the storage constraints and the
    level invariant; moving root B, which has descendants C, D and E at
    levels 2, 3 and 4, under root A succeeds and leaves E at level 4 below D
    at level 4. *)
Theorem moveGoal_breaks_level_invariant :
  goals_consistent db_chain
  ∧ level_invariant (goals db_chain)
  ∧ ∃ db g,
      moveGoal db_chain "B" (Some "A") 1000 = Ok (db, g)
      ∧ ((λ r, (GoalRow.parent_id r, GoalRow.level r)) <$> goals db !! "D")
        = Some (Some "C", 4)
      ∧ ((λ r, (GoalRow.parent_id r, GoalRow.level r)) <$> goals db !! "E")
        = Some (Some "D", 4)
      ∧ ¬ level_invariant (goals db).
Proof.
  assert (goals_consistent db_chain) as Hc.
  { apply (bool_decide_unpack (goals_consistent db_chain)). by vm_compute. }
  split; [done|]. split; [by apply consistent_level_invariant|].
  do 2 eexists. split; [by vm_compute|].
  split; [by vm_compute|]. split; [by vm_compute|].
  intros H. apply (bool_decide_pack _) in H. by vm_compute in H.
Qed.

(** C3 at the child at 100 of a root at 0 whose other children are at 0. *)

(** ** [createGoal] *)

Lemma bind_is_Err {A B} (m : Result A) (f : A → Result B) :
  is_Err (m ≫= f) ↔ is_Err m ∨ ∃ a, m = Ok a ∧ is_Err (f a).
Proof.
  destruct m as [a|e]; simpl.
  - split; [eauto|]. intros [[? [=]]|(? & [= <-] & ?)]. done.
  - split; [intros _; left; by eexists|by eexists].
Qed.

Lemma guard_or_is_Err b msg : is_Err (guard_or b msg) ↔ b = false.
Proof. destruct b; simpl; split; try done; [by intros [? [=]]|by eexists]. Qed.

Lemma Ok_not_Err {A} (a : A) : ¬ is_Err (Ok a).
Proof. by intros [? [=]]. Qed.

Lemma createGoal_rule_is_Err db input :
  is_Err
    (if truthy (c_parentId input) then
       parent ← getGoal db (default "" (c_parentId input));
       guard_or (negb (4 <=? Goal.level parent))
         "Cannot add children to level 4 goals";;
       guard_or (c_level input =? Goal.level parent + 1)
         "Child level must be exactly one greater than parent level"
     else guard_or (c_level input =? 1) "Root goals must be level 1")
  ↔ hierarchy_violated db input ∨ parent_missing db input.
Proof.
  unfold hierarchy_violated, parent_missing, getGoal.
  destruct (truthy (c_parentId input)).
  - destruct (goals db !! default "" (c_parentId input)) as [parent|]; simpl.
    + destruct (Z.leb_spec 4 (GoalRow.level parent)); simpl.
      { split; [intros _; left; by left|by eexists]. }
      rewrite guard_or_is_Err, Z.eqb_neq. split; [intros ?; left; by right|].
      intros [[?|?]|[_ [=]]]; [lia|done].
    + split; [intros _; by right|by eexists].
  - rewrite guard_or_is_Err, Z.eqb_neq. split; [by left|].
    by intros [?|[[=] _]].
Qed.

(** C5 (amended).  For an authenticated user, [createGoal] fails, and then
    creates nothing, exactly when the hierarchy rule is violated (with a
    parent: the parent's level is 4 or more or the requested level is not
    the parent's level plus 1; without: the requested level is not 1), or
    the given parent does not exist, or the storage layer refuses the
    row. *)
Theorem createGoal_fails_iff db user_id input newId now :
  is_Err (createGoal db (Some user_id) input newId now)
  ↔ hierarchy_violated db input
    ∨ parent_missing db input
    ∨ is_Err (goals_insert db newId (createGoal_data input user_id now)).
Proof.
  unfold createGoal. rewrite bind_is_Err.
  pose proof (createGoal_rule_is_Err db input) as Hrule.
  destruct (if truthy (c_parentId input) then _ else _) as [[]|e] eqn:E.
  - split.
    + intros [H|([] & _ & H)]; [by apply Ok_not_Err in H|].
      right; right. apply bind_is_Err in H as [H|([db' data] & _ & H)]; [done|].
      by apply Ok_not_Err in H.
    + intros [H|[H|H]].
      * left. apply Hrule. by left.
      * left. apply Hrule. by right.
      * right. exists tt. split; [done|]. apply bind_is_Err. by left.
  - split.
    + intros _. destruct (proj1 Hrule) as [?|?]; [by eexists|by left|by right; left].
    + intros _. left. by eexists.
Qed.

(** C5, as stated, fails: a root goal of level 1 that is due before it
    starts breaks no hierarchy rule and is refused all the same, by the
    [valid_date_range] constraint. *)
Lemma createGoal_bad_dates :
  createGoal (goals_db []) (Some "user") input_bad_dates "G" 0
  = Err "valid_date_range"
  ∧ ¬ hierarchy_violated (goals_db []) input_bad_dates.
Proof. split; [by vm_compute|]. unfold hierarchy_violated. simpl. lia. Qed.

(** ** [updateEvent] *)





(** ** [update_user_stats] *)






(** ** The overdue list *)

Lemma calculateUrgency_bucket d : calculateUrgency d = urgency_bucket d.
Proof.
  unfold calculateUrgency, urgency_bucket.
  repeat match goal with
         | |- context [?a <=? ?b] => destruct (Z.leb_spec a b)
         end; (done || lia).
Qed.

Lemma differenceInDays_nonneg now d : d < now → 0 ≤ differenceInDays now d.
Proof. intros H. unfold differenceInDays, ms_per_day. apply Z.quot_pos; lia. Qed.

Lemma urgencyOrder_inj u v : urgencyOrder u = urgencyOrder v → u = v.
Proof. by destruct u, v. Qed.

#[local] Instance overdue_before_trans : Transitive overdue_before.
Proof.
  intros a b c [H1|[H1 H1']] [H2|[H2 H2']]; unfold overdue_before.
  - left. lia.
  - left. rewrite <-H2. lia.
  - left. rewrite H1. lia.
  - right. split; [congruence|lia].
Qed.

Lemma overdue_cmp_le a b : overdue_cmp a b ≤ 0 → overdue_before a b.
Proof.
  unfold overdue_cmp, overdue_before.
  destruct (Z.eqb_spec (urgencyOrder (urgency b) - urgencyOrder (urgency a)) 0)
    as [He|Hne]; simpl; intros H.
  - right. split; [apply urgencyOrder_inj|]; lia.
  - left. lia.
Qed.

Lemma overdue_cmp_gt a b : 0 < overdue_cmp a b → overdue_before b a.
Proof.
  unfold overdue_cmp, overdue_before.
  destruct (Z.eqb_spec (urgencyOrder (urgency b) - urgencyOrder (urgency a)) 0)
    as [He|Hne]; simpl; intros H.
  - right. split; [apply urgencyOrder_inj|]; lia.
  - left. lia.
Qed.

Lemma isOverdue_goal_true g now :
  isOverdue_goal g now = true ↔
  ∃ d, Goal.dueDate g = Some d ∧ d < now ∧ Goal.status g ≠ completed.
Proof.
  unfold isOverdue_goal, isPast. destruct (Goal.dueDate g) as [d|].
  - rewrite andb_true_iff, Z.ltb_lt, negb_true_iff, bool_decide_eq_false.
    split; [intros [??]; by exists d|by intros (? & [= <-] & ?)].
  - split; [done|by intros (? & ? & _)].
Qed.

Lemma getOverdueItems_elem goals events now it :
  it ∈ getOverdueItems goals events now ↔ overdue_source goals events now it.
Proof.
  unfold getOverdueItems, overdue_source.
  rewrite Array_sort_Permutation, elem_of_app, !list_elem_of_fmap.
  split.
  - intros [(g & -> & Hg)|(e & -> & He)].
    + apply list_elem_of_filter in Hg as [Hov Hg].
      apply isOverdue_goal_true in Hov as (d & ? & ? & ?).
      left. by exists g, d.
    + apply list_elem_of_filter in He as [Hov He].
      right. exists e. split; [done|]. split; [done|].
      by apply Z.ltb_lt.
  - intros [(g & d & Hg & -> & Hd & Hlt & Hst)|(e & He & -> & Hlt)].
    + left. exists g. split; [done|]. apply list_elem_of_filter. split; [|done].
      apply isOverdue_goal_true. by exists d.
    + right. exists e. split; [done|]. apply list_elem_of_filter. split; [|done].
      by apply Z.ltb_lt.
Qed.

(** C6 (amended).  The overdue list holds exactly the goals past their due
    date and not completed and the events past their end: an item whose
    deadline is not yet past is excluded, an item past by less than a full
    day is listed with 0 days overdue.  Every listed item has at least 0
    days overdue and the bucket of its days: 'low' for 0, 'medium' for 1-2,
    'high' for 3-6, 'critical' for 7 or more.  The list is sorted by bucket,
    most urgent first, then by days overdue descending. *)
Theorem getOverdueItems_spec goals events now :
  (∀ it, it ∈ getOverdueItems goals events now
         ↔ overdue_source goals events now it)
  ∧ Forall (λ it, 0 ≤ daysOverdue it
                  ∧ urgency it = urgency_bucket (daysOverdue it))
      (getOverdueItems goals events now)
  ∧ StronglySorted overdue_before (getOverdueItems goals events now).
Proof.
  split; [intros it; apply getOverdueItems_elem|]. split.
  - apply Forall_forall. intros it Hit.
    apply getOverdueItems_elem in Hit
      as [(g & d & _ & -> & Hd & Hlt & _)|(e & _ & -> & Hlt)]; simpl.
    + rewrite Hd. split; [by apply differenceInDays_nonneg|].
      apply calculateUrgency_bucket.
    + split; [by apply differenceInDays_nonneg|].
      apply calculateUrgency_bucket.
  - apply Array_sort_Sorted;
      auto using overdue_before_trans, overdue_cmp_le, overdue_cmp_gt.
Qed.

(** C6, as stated, fails: a goal that was due an hour ago is listed, with 0
    days overdue and urgency 'low'. *)
Lemma getOverdueItems_zero_days :
  ∃ it, it ∈ getOverdueItems [goal_due_at_nine] [] ten_o_clock
        ∧ daysOverdue it = 0 ∧ urgency it = low.
Proof. eexists. split; [by constructor|]. by vm_compute. Qed.

(** ** The list of today's tasks *)

Lemma calculateGoalPriority_score g now :
  calculateGoalPriority g now = goal_score g now.
Proof.
  unfold calculateGoalPriority, goal_score, clamp_priority, isDueToday.
  f_equal. f_equal.
  assert ((if negb (Qle_bool (Goal.progress g) 80) then 2
           else if negb (Qle_bool (Goal.progress g) 60) then 1 else 0)
          = (if Qlt_le_dec 80 (Goal.progress g) then 2
             else if Qlt_le_dec 60 (Goal.progress g) then 1 else 0)) as <-.
  { destruct (Qlt_le_dec 80 (Goal.progress g)) as [H80|H80].
    - by rewrite (proj2 (Qle_bool_false _ _) H80).
    - rewrite (proj2 (Qle_bool_true _ _) H80). simpl.
      destruct (Qlt_le_dec 60 (Goal.progress g)) as [H60|H60].
      + by rewrite (proj2 (Qle_bool_false _ _) H60).
      + by rewrite (proj2 (Qle_bool_true _ _) H60). }
  destruct (Goal.dueDate g) as [d|]; [destruct (isToday d now)|];
    destruct (negb (Qle_bool (Goal.progress g) 80));
    try destruct (negb (Qle_bool (Goal.progress g) 60)); lia.
Qed.

Lemma hours_le (ms k : Z) :
  Qle_bool (inject_Z ms / inject_Z (1000 * 60 * 60)) (inject_Z k)
  = (ms <=? k * 3600000).
Proof.
  apply eq_true_iff_eq. rewrite Qle_bool_true, Z.leb_le.
  change (1000 * 60 * 60) with 3600000.
  rewrite Zle_Qle, inject_Z_mult. split; intros H.
  - apply (Qmult_le_r _ _ (/ inject_Z 3600000)); [done|].
    rewrite <-Qmult_assoc, Qmult_inv_r, Qmult_1_r by done. exact H.
  - apply Qle_shift_div_r; [done|exact H].
Qed.

Lemma calculateEventPriority_score e now :
  calculateEventPriority e now = event_score e now.
Proof.
  unfold calculateEventPriority, event_score, clamp_priority.
  change 1%Q with (inject_Z 1). change 3%Q with (inject_Z 3).
  change 6%Q with (inject_Z 6). rewrite !hours_le.
  change (1 * 3600000) with 3600000.
  f_equal. f_equal.
  repeat match goal with
         | |- context [?a <=? ?b] => destruct (a <=? b)
         end; destruct (Event.allDay e); lia.
Qed.

Lemma today_cmp_le a b : today_cmp a b ≤ 0 → priority b ≤ priority a.
Proof.
  unfold today_cmp. destruct (Z.eqb_spec (priority a) (priority b)); simpl; lia.
Qed.

Lemma today_cmp_gt a b : 0 < today_cmp a b → priority a ≤ priority b.
Proof.
  unfold today_cmp. destruct (Z.eqb_spec (priority a) (priority b)); simpl; lia.
Qed.

(** C7 (amended).  The today-task list is a rearrangement of the tasks of
    the level-4 goals in 'active' status that are due today or have no due
    date, and of the events starting today.  Each goal task carries the goal
    score and each event task the event score, and the list is ordered by
    that score descending. *)
Theorem getTodayTasks_spec goals events now :
  getTodayTasks goals events now
  ≡ₚ (goal_task now <$>
        filter (λ g, Goal.level g = 4 ∧ Goal.status g = active
                     ∧ (isDueToday g now = true ∨ Goal.dueDate g = None))
          goals)
     ++ (event_task now <$>
           filter (λ e, isToday (Event.startDate e) now = true) events)
  ∧ (∀ g, priority (goal_task now g) = goal_score g now)
  ∧ (∀ e, priority (event_task now e) = event_score e now)
  ∧ StronglySorted (λ a b, priority b ≤ priority a)
      (getTodayTasks goals events now).
Proof.
  split; [apply Array_sort_Permutation|].
  split; [intros g; apply calculateGoalPriority_score|].
  split; [intros e; apply calculateEventPriority_score|].
  apply Array_sort_Sorted; [|apply today_cmp_le|apply today_cmp_gt].
  intros a b c ??. lia.
Qed.

(** C7, as stated, fails: of a level-4 active goal without due date and a
    level-4 completed goal due today, the list holds the first, which is not
    due today, and not the second, which is. *)
Lemma getTodayTasks_not_due_today :
  getTodayTasks [goal_without_due_date; goal_done_today] [] ten_o_clock
  = [goal_task ten_o_clock goal_without_due_date]
  ∧ filter (λ g, Goal.level g = 4 ∧ isDueToday g ten_o_clock = true)
      [goal_without_due_date; goal_done_today]
    = [goal_done_today].
Proof. split; by vm_compute. Qed.

(** * Further properties *)

(** ** Writes that keep the table consistent *)

Lemma bind_Ok_inv {A B} (m : Result A) (f : A → Result B) b :
  m ≫= f = Ok b → ∃ a, m = Ok a ∧ f a = Ok b.
Proof. destruct m as [a|e]; [by exists a|done]. Qed.

Lemma guard_or_Ok_inv b msg u : guard_or b msg = Ok u → b = true.
Proof. by destruct b. Qed.

Lemma validate_Ok_inv tbl r x : validate_goal_hierarchy tbl r = Ok x → x = r.
Proof.
  unfold validate_goal_hierarchy.
  destruct (GoalRow.parent_id r) as [pid|].
  - destruct (GoalRow.level <$> tbl !! pid); [|by intros [= <-]].
    destruct (negb _); [done|by intros [= <-]].
  - destruct (negb _); [done|by intros [= <-]].
Qed.


Lemma goals_update_Ok_inv db id p now x :
  goals_update db id p now = Ok x →
  ∃ OLD,
    goals db !! id = Some OLD
    ∧ x = (rewrite_goal db id (update_goal_updated_at now (apply_patch p OLD)),
           update_goal_updated_at now (apply_patch p OLD))
    ∧ row_accepted db id (update_goal_updated_at now (apply_patch p OLD)) = true.
Proof.
  unfold goals_update. destruct (goals db !! id) as [OLD|]; [|done].
  intros H. exists OLD. split; [done|].
  apply bind_Ok_inv in H as (NEW & Hv & H).
  pose proof (validate_Ok_inv _ _ _ Hv) as ->.
  apply bind_Ok_inv in H as ([] & Hch & H).
  apply bind_Ok_inv in H as ([] & Hfk & H).
  injection H as <-. split; [done|].
  unfold row_accepted. by rewrite Hv, Hch, Hfk.
Qed.

Lemma accepted_not_self db id r :
  row_accepted db id r = true → GoalRow.parent_id r ≠ Some id.
Proof.
  intros H. apply row_accepted_inv in H as (_ & H & _).
  apply goals_checks_Ok in H as (_ & _ & _ & _ & H).
  by apply negb_true_iff, bool_decide_eq_false in H.
Qed.


(** Acceptance of a row looks at the table only through the level and the
    presence of the row's parent. *)
Lemma row_accepted_ext db db' k x :
  categories db' = categories db →
  (∀ p, GoalRow.parent_id x = Some p →
        GoalRow.level <$> goals db' !! p = GoalRow.level <$> goals db !! p) →
  row_accepted db' k x = row_accepted db k x.
Proof.
  intros Hcat Hp. unfold row_accepted. f_equal; [f_equal|].
  - unfold validate_goal_hierarchy.
    destruct (GoalRow.parent_id x) as [p|]; [|done]. by rewrite Hp.
  - unfold goals_foreign_keys. rewrite Hcat.
    destruct (GoalRow.parent_id x) as [p|]; [|done].
    assert (bool_decide (is_Some (goals db' !! p))
            = bool_decide (is_Some (goals db !! p))) as ->; [|done].
    apply bool_decide_ext. by rewrite <-!(fmap_is_Some GoalRow.level), Hp.
Qed.

(** Writing an accepted row under key [id] keeps the table consistent when
    the rows that reference [id] still see the level they saw. *)
Lemma consistent_rewrite db id r' :
  goals_consistent db →
  row_accepted db id r' = true →
  (∀ k x, goals db !! k = Some x → GoalRow.parent_id x = Some id →
          GoalRow.level <$> goals db !! id = Some (GoalRow.level r')) →
  goals_consistent (rewrite_goal db id r').
Proof.
  intros Hc Hacc Hrefs k x Hk.
  assert (∀ y, (y = r' ∨ ∃ j, goals db !! j = Some y) →
               row_accepted (rewrite_goal db id r') k y = row_accepted db k y)
    as Hext.
  { intros y Hy. apply row_accepted_ext; [done|]. intros p Hp. simpl.
    destruct (decide (id = p)) as [<-|Hne]; [|by rewrite lookup_insert_ne].
    rewrite lookup_insert_eq. simpl.
    destruct Hy as [->|[j Hj]].
    - by apply accepted_not_self in Hacc.
    - by rewrite (Hrefs _ _ Hj Hp). }
  simpl in Hk. destruct (decide (id = k)) as [<-|Hne].
  - rewrite lookup_insert_eq in Hk. injection Hk as <-.
    rewrite Hext by by left. done.
  - rewrite lookup_insert_ne in Hk by done.
    rewrite Hext by (right; by exists k). by apply Hc.
Qed.

(** ** [createGoal] *)





(** ** [updateGoal] *)


(** ** [moveGoal] of a goal without children *)

Lemma filter_none {A} (P : A → Prop) `{∀ x, Decision (P x)} (l : list A) :
  Forall (λ x, ¬ P x) l → filter P l = [].
Proof.
  induction 1 as [|x l Hx _ IH]; [done|].
  by rewrite filter_cons, decide_False.
Qed.

Lemma getGoalChildren_nil db goalId :
  (∀ k x, goals db !! k = Some x → GoalRow.parent_id x ≠ Some goalId) →
  getGoalChildren db goalId = [].
Proof.
  intros Hno. unfold getGoalChildren, getGoals.
  assert (filter (λ d : string * GoalRow.t,
                    matches_filters
                      (mkGoalFilters None None None (Some (Some goalId))) d.2
                    = true)
            (map_to_list (goals db)) = []) as ->; [|done].
  apply filter_none, Forall_forall. intros [k x] Hk.
  apply elem_of_map_to_list in Hk. unfold matches_filters. simpl.
  rewrite bool_decide_eq_false_2 by by eapply Hno. done.
Qed.

Lemma updateDescendantLevels_childless db goalId parentLevel now :
  (∀ k x, goals db !! k = Some x → GoalRow.parent_id x ≠ Some goalId) →
  updateDescendantLevels db goalId parentLevel now = db.
Proof.
  intros Hno. unfold updateDescendantLevels.
  destruct (Z.to_nat (4 - parentLevel)); simpl;
    by rewrite (getGoalChildren_nil _ _ Hno).
Qed.

(** X4.  Moving a goal without children, in a table that satisfies the
    storage constraints: when [moveGoal] succeeds the table satisfies them
    again and the level invariant holds, the goal is read back as it was
    returned, with the new parent (none for an absent or empty one), and the
    other goals are untouched. *)
Theorem moveGoal_childless db goalId newParentId now db' g :
  goals_consistent db →
  (∀ k x, goals db !! k = Some x → GoalRow.parent_id x ≠ Some goalId) →
  moveGoal db goalId newParentId now = Ok (db', g) →
  goals_consistent db'
  ∧ level_invariant (goals db')
  ∧ getGoal db' goalId = Ok g
  ∧ (∀ k, k ≠ goalId → goals db' !! k = goals db !! k)
  ∧ Goal.parentId g = (if truthy newParentId then newParentId else None).
Proof.
  intros Hc Hno H. unfold moveGoal in H.
  apply bind_Ok_inv in H as (goal & _ & H).
  apply bind_Ok_inv in H as (newLevel & _ & H).
  apply bind_Ok_inv in H as ([] & _ & H).
  apply bind_Ok_inv in H as ([db1 data] & Hup & H).
  apply goals_update_Ok_inv in Hup as (OLD & Hold & [= -> ->] & Hacc).
  set (NEW := update_goal_updated_at now _) in *.
  assert (∀ k x, goals (rewrite_goal db goalId NEW) !! k = Some x →
                 GoalRow.parent_id x ≠ Some goalId) as Hno'.
  { intros k x. simpl. destruct (decide (goalId = k)) as [<-|Hne].
    - rewrite lookup_insert_eq. intros [= <-].
      by apply accepted_not_self in Hacc.
    - rewrite lookup_insert_ne by done. apply Hno. }
  rewrite (updateDescendantLevels_childless _ _ _ _ Hno') in H.
  injection H as <- <-.
  assert (goals_consistent (rewrite_goal db goalId NEW)) as Hc'.
  { apply consistent_rewrite; [done|done|].
    intros k x Hk Hp. by apply Hno in Hk. }
  split; [done|]. split; [by apply consistent_level_invariant|].
  split; [|split; [|done]].
  - unfold getGoal. simpl. by rewrite lookup_insert_eq.
  - intros k Hk. simpl. by rewrite lookup_insert_ne.
Qed.

(** ** The level helpers and the hierarchy rule *)

(** X5.  The helpers on levels agree with the hierarchy rule of
    [createGoal]: a stored parent [canHaveChildren] exactly when
    [getChildLevel] of its level is not null, and an input that names it as
    parent passes the rule exactly when the requested level is that
    [getChildLevel]. *)
Theorem getChildLevel_rule db p parent input :
  goals db !! p = Some parent → c_parentId input = Some p → p ≠ "" →
  (canHaveChildren (transformGoal (p, parent)) = true
   ↔ is_Some (getChildLevel (GoalRow.level parent)))
  ∧ (¬ hierarchy_violated db input
     ↔ getChildLevel (GoalRow.level parent) = Some (c_level input)).
Proof.
  intros Hp Hin Hne. unfold canHaveChildren, getChildLevel, hierarchy_violated.
  rewrite Hin. simpl. apply String.eqb_neq in Hne. rewrite Hne. simpl.
  rewrite Hp.
  destruct (Z.leb_spec 4 (GoalRow.level parent)) as [Hle|Hlt]; split.
  - rewrite Z.ltb_lt. split; [lia|]. by intros [? [=]].
  - split; [intros H; exfalso; apply H; by left|done].
  - rewrite Z.ltb_lt. split; [by eexists|done].
  - split.
    + intros H. f_equal.
      destruct (decide (c_level input = GoalRow.level parent + 1)); [done|].
      exfalso. apply H. by right.
    + intros [= <-]. lia.
Qed.

(** ** Chains of ancestors *)

Lemma consistent_truthy db g rg p :
  goals_consistent db → goals db !! g = Some rg →
  GoalRow.parent_id rg = Some p → parent_of db g = Some p.
Proof.
  intros Hc Hg Hp.
  destruct (row_accepted_inv _ _ _ (Hc _ _ Hg)) as (_ & _ & Hfk).
  unfold goals_foreign_keys in Hfk. rewrite Hp in Hfk.
  unfold parent_of. rewrite Hg. simpl. rewrite Hp.
  unfold truthy. destruct (String.eqb p "") eqn:E; [done|].
  by destruct p.
Qed.

Lemma consistent_root db g rg :
  goals_consistent db → goals db !! g = Some rg →
  parent_of db g = None → GoalRow.parent_id rg = None ∧ GoalRow.level rg = 1.
Proof.
  intros Hc Hg Hp.
  destruct (GoalRow.parent_id rg) as [p|] eqn:Hpid.
  { by rewrite (consistent_truthy _ _ _ _ Hc Hg Hpid) in Hp. }
  split; [done|].
  destruct (row_accepted_inv _ _ _ (Hc _ _ Hg)) as (Hv & _ & _).
  unfold validate_goal_hierarchy in Hv. rewrite Hpid in Hv.
  by destruct (Z.eqb_spec (GoalRow.level rg) 1).
Qed.

Lemma ancestors_upto_snoc n db k a :
  a ∈ ancestors_upto (S n) db k
  ↔ parent_of db k = Some a
    ∨ ∃ b, b ∈ ancestors_upto n db k ∧ parent_of db b = Some a.
Proof.
  revert k. induction n as [|n IH]; intros k.
  - simpl. destruct (parent_of db k) as [p|].
    + rewrite list_elem_of_singleton. split.
      * intros ->. by left.
      * intros [[= ->]|(b & Hb & _)]; [done|by apply elem_of_nil in Hb].
    + split; [by intros ?%elem_of_nil|].
      intros [|(b & Hb & _)]; [done|by apply elem_of_nil in Hb].
  - change (ancestors_upto (S (S n)) db k)
      with (match parent_of db k with
            | Some p => p :: ancestors_upto (S n) db p
            | None => []
            end).
    change (ancestors_upto (S n) db k)
      with (match parent_of db k with
            | Some p => p :: ancestors_upto n db p
            | None => []
            end).
    destruct (parent_of db k) as [p|].
    + rewrite elem_of_cons, IH. split.
      * intros [->|[Hp|(b & Hb & Hpb)]].
        -- by left.
        -- right. exists p. split; [by left|done].
        -- right. exists b. split; [by right|done].
      * intros [[= ->]|(b & Hb & Hpb)]; [by left|].
        apply elem_of_cons in Hb as [->|Hb].
        -- right. by left.
        -- right. right. by exists b.
    + split; [by intros ?%elem_of_nil|].
      intros [|(b & Hb & _)]; [done|by apply elem_of_nil in Hb].
Qed.

Lemma ancestors_upto_mono n db k a :
  a ∈ ancestors_upto n db k → a ∈ ancestors_upto (S n) db k.
Proof.
  revert k. induction n as [|n IH]; intros k; [by intros ?%elem_of_nil|].
  change (ancestors_upto (S (S n)) db k)
    with (match parent_of db k with
          | Some p => p :: ancestors_upto (S n) db p
          | None => []
          end).
  change (ancestors_upto (S n) db k)
    with (match parent_of db k with
          | Some p => p :: ancestors_upto n db p
          | None => []
          end).
  destruct (parent_of db k) as [p|]; [|done].
  rewrite !elem_of_cons. intros [->|H]; [by left|]. right. by apply IH.
Qed.

(** Following more parent references than the level allows finds nothing
    more. *)
Lemma ancestors_upto_stable db n :
  ∀ m g rg,
    goals_consistent db → goals db !! g = Some rg →
    GoalRow.level rg ≤ Z.of_nat (S n) → GoalRow.level rg ≤ Z.of_nat (S m) →
    ancestors_upto n db g = ancestors_upto m db g.
Proof.
  induction n as [|n IH]; intros m g rg Hc Hg Hn Hm.
  - destruct (parent_of db g) as [p|] eqn:Hp.
    + destruct (parent_of_Some _ _ _ _ Hg Hp) as [Hpid _].
      destruct (consistent_parent _ _ _ _ Hc Hg Hpid) as (rp & Hrp & Hlp).
      pose proof (consistent_level _ _ _ Hc Hrp). lia.
    + destruct m; simpl; [done|]. by rewrite Hp.
  - destruct (parent_of db g) as [p|] eqn:Hp.
    + destruct (parent_of_Some _ _ _ _ Hg Hp) as [Hpid _].
      destruct (consistent_parent _ _ _ _ Hc Hg Hpid) as (rp & Hrp & Hlp).
      pose proof (consistent_level _ _ _ Hc Hrp).
      destruct m as [|m]; [lia|]. simpl. rewrite Hp. f_equal.
      apply (IH m p rp Hc Hrp); lia.
    + destruct m; simpl; by rewrite ?Hp.
Qed.

Lemma ancestors_upto_length db n :
  ∀ g rg,
    goals_consistent db → goals db !! g = Some rg →
    GoalRow.level rg ≤ Z.of_nat (S n) →
    Z.of_nat (length (ancestors_upto n db g)) = GoalRow.level rg - 1.
Proof.
  induction n as [|n IH]; intros g rg Hc Hg Hn.
  - pose proof (consistent_level _ _ _ Hc Hg). simpl. lia.
  - simpl. destruct (parent_of db g) as [p|] eqn:Hp.
    + destruct (parent_of_Some _ _ _ _ Hg Hp) as [Hpid _].
      destruct (consistent_parent _ _ _ _ Hc Hg Hpid) as (rp & Hrp & Hlp).
      simpl length. rewrite Nat2Z.inj_succ, (IH p rp Hc Hrp); lia.
    + destruct (consistent_root _ _ _ Hc Hg Hp) as [_ ->]. done.
Qed.

(** A goal of level [n] stands on a chain of [n] distinct rows. *)
Lemma consistent_level_size db g rg :
  goals_consistent db → goals db !! g = Some rg →
  GoalRow.level rg ≤ Z.of_nat (size (goals db)).
Proof.
  intros Hc Hg.
  pose proof (consistent_level _ _ _ Hc Hg) as Hl.
  pose proof (ancestors_upto_length db 4 g rg Hc Hg ltac:(lia)) as Hlen.
  pose proof (ancestors_upto_NoDup 4 db g rg Hc Hg) as Hnd.
  pose proof (ancestors_upto_levels 4 db g rg Hc Hg) as Hall.
  rewrite Forall_forall in Hall.
  assert (NoDup (g :: ancestors_upto 4 db g)) as Hnd'.
  { constructor; [|done]. intros Hin.
    destruct (Hall _ Hin) as (ra & Ha & Hlt). rewrite Hg in Ha.
    injection Ha as <-. lia. }
  assert (g :: ancestors_upto 4 db g ⊆+ (map_to_list (goals db)).*1) as Hsub.
  { apply NoDup_submseteq; [done|]. intros x Hx.
    apply elem_of_cons in Hx as [->|Hx].
    - apply list_elem_of_fmap. exists (g, rg). split; [done|].
      by apply elem_of_map_to_list.
    - destruct (Hall _ Hx) as (ra & Ha & _).
      apply list_elem_of_fmap. exists (x, ra). split; [done|].
      by apply elem_of_map_to_list. }
  apply submseteq_length in Hsub.
  rewrite length_fmap, length_map_to_list, length_cons in Hsub. lia.
Qed.

Lemma ancestors_upto_size db g rg :
  goals_consistent db → goals db !! g = Some rg →
  ancestors_upto (size (goals db)) db g = ancestors db g.
Proof.
  intros Hc Hg. unfold ancestors.
  pose proof (consistent_level _ _ _ Hc Hg).
  pose proof (consistent_level_size _ _ _ Hc Hg).
  apply (ancestors_upto_stable db _ _ g rg Hc Hg); lia.
Qed.

(** ** [getGoalAncestors] *)

Lemma getGoalAncestors_loop_S fuel db currentGoal acc :
  getGoalAncestors_loop (S fuel) db currentGoal acc
  = if truthy (Goal.parentId currentGoal) then
      match getGoal db (default "" (Goal.parentId currentGoal)) with
      | Err e => Some (Err e)
      | Ok parent => getGoalAncestors_loop fuel db parent (parent :: acc)
      end
    else Some (Ok acc).
Proof. done. Qed.

Lemma getGoalAncestors_loop_run db n :
  ∀ g rg m fuel acc,
    goals_consistent db → goals db !! g = Some rg →
    GoalRow.level rg ≤ Z.of_nat n → (n ≤ S fuel)%nat → (n ≤ S m)%nat →
    ∃ l,
      getGoalAncestors_loop fuel db (transformGoal (g, rg)) acc
      = Some (Ok (l ++ acc))
      ∧ Goal.id <$> l = reverse (ancestors_upto m db g)
      ∧ Goal.level <$> l = seqZ 1 (GoalRow.level rg - 1)
      ∧ Forall (λ a, getGoal db (Goal.id a) = Ok a) l.
Proof.
  induction n as [|n IH]; intros g rg m fuel acc Hc Hg Hl Hfuel Hm.
  { pose proof (consistent_level _ _ _ Hc Hg). lia. }
  destruct (parent_of db g) as [p|] eqn:Hp.
  - destruct (parent_of_Some _ _ _ _ Hg Hp) as [Hpid Ht].
    destruct (consistent_parent _ _ _ _ Hc Hg Hpid) as (rp & Hrp & Hlp).
    pose proof (consistent_level _ _ _ Hc Hrp) as Hlrp.
    destruct fuel as [|fuel]; [lia|]. destruct m as [|m]; [lia|].
    destruct (IH p rp m fuel (transformGoal (p, rp) :: acc) Hc Hrp)
      as (l & Hrun & Hids & Hlv & Hall); [lia|lia|lia|].
    exists (l ++ [transformGoal (p, rp)]).
    split; [|split; [|split]].
    + rewrite getGoalAncestors_loop_S.
      change (Goal.parentId (transformGoal (g, rg)))
        with (GoalRow.parent_id rg).
      rewrite Hpid, Ht. change (default "" (Some p)) with p.
      unfold getGoal. rewrite Hrp, Hrun. by rewrite <-app_assoc.
    + simpl ancestors_upto. rewrite Hp, reverse_cons, fmap_app, Hids. done.
    + rewrite fmap_app, Hlv. simpl.
      replace (GoalRow.level rg - 1) with ((GoalRow.level rp - 1) + 1) by lia.
      rewrite seqZ_app by lia. f_equal.
      replace (1 + (GoalRow.level rp - 1)) with (GoalRow.level rp) by lia.
      unfold seqZ. simpl. by f_equal.
    + apply Forall_app. split; [done|]. constructor; [|done].
      simpl. unfold getGoal. by rewrite Hrp.
  - pose proof (parent_of_None _ _ _ Hg Hp) as Ht.
    destruct (consistent_root _ _ _ Hc Hg Hp) as [_ Hone].
    exists []. split; [|split; [|split]].
    + destruct fuel; simpl; by rewrite Ht.
    + destruct m; simpl; by rewrite ?Hp.
    + by rewrite Hone.
    + constructor.
Qed.

(** X6.  For a goal of a table that satisfies the storage constraints,
    [getGoalAncestors] returns after at most three rounds of its loop, and
    returns the goal's ancestors root first: their ids are the chain of
    parents read backwards, their levels are 1, 2, ... up to the level of the
    goal less one, and each is the goal that [getGoal] returns for its id. *)
Theorem getGoalAncestors_root_first db id rg fuel :
  goals_consistent db → goals db !! id = Some rg → (3 ≤ fuel)%nat →
  ∃ l,
    getGoalAncestors fuel db id = Some (Ok l)
    ∧ Goal.id <$> l = reverse (ancestors db id)
    ∧ Goal.level <$> l = seqZ 1 (GoalRow.level rg - 1)
    ∧ Forall (λ a, getGoal db (Goal.id a) = Ok a) l.
Proof.
  intros Hc Hg Hfuel.
  pose proof (consistent_level _ _ _ Hc Hg) as Hl.
  destruct (getGoalAncestors_loop_run db 4 id rg 4 fuel [] Hc Hg)
    as (l & Hrun & Hids & Hlv & Hall); [lia|lia|lia|].
  exists l. rewrite app_nil_r in Hrun.
  split; [|done]. unfold getGoalAncestors, getGoal. by rewrite Hg.
Qed.

(** ** [deleteGoal] *)

Lemma child_of_dead db dead k :
  goals_consistent db →
  k ∈ dom (filter (λ d : string * GoalRow.t, references dead d.2 = true)
             (goals db))
  ↔ ∃ p, parent_of db k = Some p ∧ p ∈ dead.
Proof.
  intros Hc. rewrite elem_of_dom. unfold is_Some.
  setoid_rewrite map_lookup_filter_Some. simpl. split.
  - intros (x & Hk & Href). unfold references in Href.
    destruct (GoalRow.parent_id x) as [p|] eqn:Hp; [|done].
    exists p. split; [by eapply consistent_truthy|].
    by apply bool_decide_eq_true in Href.
  - intros (p & Hp & Hdead).
    destruct (goals db !! k) as [x|] eqn:Hk; [|by unfold parent_of in Hp; rewrite Hk in Hp].
    destruct (parent_of_Some _ _ _ _ Hk Hp) as [Hpid _].
    exists x. split; [done|]. unfold references. rewrite Hpid.
    by apply bool_decide_eq_true.
Qed.

Lemma cascade_spec db :
  goals_consistent db →
  ∀ n dead k,
    k ∈ cascade n (goals db) dead
    ↔ k ∈ dead ∨ ∃ a, a ∈ ancestors_upto n db k ∧ a ∈ dead.
Proof.
  intros Hc. induction n as [|n IH]; intros dead k.
  - simpl. split; [by left|].
    intros [|(a & Ha & _)]; [done|by apply elem_of_nil in Ha].
  - change (cascade (S n) (goals db) dead)
      with (cascade n (goals db)
              (dead ∪ dom (filter (λ d : string * GoalRow.t,
                                     references dead d.2 = true) (goals db)))).
    rewrite IH. setoid_rewrite elem_of_union.
    setoid_rewrite (child_of_dead db dead _ Hc). split.
    + intros [[Hk|(p & Hp & Hd)]|(a & Ha & [Hd|(p & Hp & Hd)])].
      * by left.
      * right. exists p. split; [|done]. apply ancestors_upto_snoc. by left.
      * right. exists a. split; [|done].
        by apply ancestors_upto_mono.
      * right. exists p. split; [|done]. apply ancestors_upto_snoc.
        right. by exists a.
    + intros [Hk|(a & Ha & Hd)].
      * left. by left.
      * apply ancestors_upto_snoc in Ha as [Ha|(b & Hb & Hpb)].
        -- left. right. by exists a.
        -- right. exists b. split; [done|]. right. by exists a.
Qed.

Lemma goals_delete_lookup db id k x :
  goals_consistent db → goals db !! k = Some x →
  k ∉ cascade (size (goals db)) (goals db) {[id]}
  ↔ k ≠ id ∧ id ∉ ancestors db k.
Proof.
  intros Hc Hk. rewrite (cascade_spec db Hc).
  rewrite (ancestors_upto_size db k x Hc Hk), elem_of_singleton. split.
  - intros H. split; [by intros ->; apply H; left|].
    intros Hin. apply H. right. exists id. by rewrite elem_of_singleton.
  - intros [Hne Hnot] [->|(a & Ha & ->%elem_of_singleton)]; done.
Qed.

Lemma ancestors_of_parent db k x p :
  goals_consistent db → goals db !! k = Some x →
  GoalRow.parent_id x = Some p →
  ∀ a, a = p ∨ a ∈ ancestors db p → a ∈ ancestors db k.
Proof.
  intros Hc Hk Hp a Ha.
  pose proof (consistent_truthy _ _ _ _ Hc Hk Hp) as Hpar.
  destruct (consistent_parent _ _ _ _ Hc Hk Hp) as (rp & Hrp & Hl).
  pose proof (consistent_level _ _ _ Hc Hk).
  unfold ancestors in *.
  change (ancestors_upto 4 db k)
    with (match parent_of db k with
          | Some p => p :: ancestors_upto 3 db p
          | None => []
          end).
  rewrite Hpar, (ancestors_upto_stable db 3 4 p rp Hc Hrp) by lia.
  apply elem_of_cons. destruct Ha as [->|Ha]; [by left|by right].
Qed.

(** X7.  In a table that satisfies the storage constraints, [deleteGoal]
    removes the goal and all its descendants (the goals that have it among
    their ancestors) and no other row, and the table that is left satisfies
    the storage constraints again: no remaining goal references a deleted
    one. *)
Theorem deleteGoal_cascade db id :
  goals_consistent db →
  goals (deleteGoal db id)
  = filter (λ d : string * GoalRow.t, d.1 ≠ id ∧ id ∉ ancestors db d.1)
      (goals db)
  ∧ goals_consistent (deleteGoal db id).
Proof.
  intros Hc.
  assert (goals (deleteGoal db id)
          = filter (λ d : string * GoalRow.t,
                      d.1 ≠ id ∧ id ∉ ancestors db d.1) (goals db)) as Heq.
  { unfold deleteGoal, goals_delete. simpl. apply map_filter_ext.
    intros k x Hk. simpl. by apply (goals_delete_lookup db id k x). }
  split; [done|].
  intros k x Hk. rewrite Heq in Hk.
  apply map_lookup_filter_Some in Hk as (Hk & Hne & Hnot). simpl in Hne, Hnot.
  rewrite <-(Hc k x Hk). apply row_accepted_ext; [done|].
  intros p Hp. rewrite Heq.
  destruct (consistent_parent _ _ _ _ Hc Hk Hp) as (rp & Hrp & _).
  rewrite Hrp.
  assert (filter (λ d : string * GoalRow.t,
                    d.1 ≠ id ∧ id ∉ ancestors db d.1) (goals db) !! p
          = Some rp) as ->; [|done].
  apply map_lookup_filter_Some. split; [done|]. simpl. split.
  - intros ->. apply Hnot. eapply ancestors_of_parent; eauto.
  - intros Hin. apply Hnot. eapply ancestors_of_parent; eauto.
Qed.

(** ** The dashboard lists, as a whole *)

Lemma StronglySorted_weaken {A} (R R' : relation A) (P : A → Prop) l :
  (∀ a b, P a → P b → R a b → R' a b) →
  Forall P l → StronglySorted R l → StronglySorted R' l.
Proof.
  intros HR HP Hs. induction Hs as [|a l Hs IH Ha]; [constructor|].
  apply Forall_cons in HP as [Pa HP]. constructor; [by apply IH|].
  rewrite Forall_forall in Ha, HP. apply Forall_forall. intros b Hb.
  apply HR; auto.
Qed.

Lemma getOverdueItems_urgency goals events now :
  Forall (λ it, urgency it = calculateUrgency (daysOverdue it))
    (getOverdueItems goals events now).
Proof.
  apply Forall_forall. intros it Hit.
  by apply getOverdueItems_elem in Hit
    as [(g & d & _ & -> & _)|(e & _ & -> & _)].
Qed.

Lemma calculateUrgency_mono d d' :
  urgencyOrder (calculateUrgency d') < urgencyOrder (calculateUrgency d) →
  d' ≤ d.
Proof.
  unfold calculateUrgency.
  repeat match goal with
         | |- context [?a <=? ?b] => destruct (Z.leb_spec a b)
         end; simpl; lia.
Qed.

(** X8.  The overdue list is in descending order of days overdue as a
    whole, not only within a bucket of urgency: the item that has been
    overdue the longest comes first. *)
Theorem getOverdueItems_longest_first goals events now :
  StronglySorted (λ a b, daysOverdue b ≤ daysOverdue a)
    (getOverdueItems goals events now).
Proof.
  eapply StronglySorted_weaken;
    [|apply getOverdueItems_urgency
     |apply Array_sort_Sorted;
        auto using overdue_before_trans, overdue_cmp_le, overdue_cmp_gt].
  intros a b Ha Hb [Hlt|[_ Hle]]; [|done]. simpl in *.
  rewrite Ha, Hb in Hlt. by apply calculateUrgency_mono.
Qed.

Lemma clamp_priority_range p : 1 ≤ clamp_priority p ≤ 10.
Proof. unfold clamp_priority. lia. Qed.

Lemma calculateGoalPriority_level_4 g now :
  Goal.level g = 4 → 9 ≤ calculateGoalPriority g now ≤ 10.
Proof.
  intros Hl. unfold calculateGoalPriority, clamp_priority. rewrite Hl.
  destruct (Goal.dueDate g) as [d|]; [destruct (isToday d now)|];
    destruct (negb (Qle_bool (Goal.progress g) 80));
    destruct (negb (Qle_bool (Goal.progress g) 60)); lia.
Qed.

Lemma calculateEventPriority_range e now :
  4 ≤ calculateEventPriority e now ≤ 8.
Proof.
  unfold calculateEventPriority, clamp_priority.
  repeat match goal with
         | |- context [Qle_bool ?a ?b] => destruct (Qle_bool a b)
         end; destruct (Event.allDay e); lia.
Qed.

Lemma sorted_split (l : list TodayTask) :
  StronglySorted (λ a b, priority b ≤ priority a) l →
  Forall (λ t, (task_type t = goal_type ∧ 9 ≤ priority t ≤ 10)
               ∨ (task_type t = event_type ∧ 4 ≤ priority t ≤ 8)) l →
  ∃ gs es,
    l = gs ++ es
    ∧ Forall (λ t, task_type t = goal_type ∧ 9 ≤ priority t ≤ 10) gs
    ∧ Forall (λ t, task_type t = event_type ∧ 4 ≤ priority t ≤ 8) es.
Proof.
  induction 1 as [|a l Hs IH Ha]; intros Hall.
  { exists [], []. by repeat constructor. }
  apply Forall_cons in Hall as [[Hg|He] Hall].
  - destruct (IH Hall) as (gs & es & -> & Hgs & Hes).
    exists (a :: gs), es. split; [done|]. split; [by constructor|done].
  - exists [], (a :: l). split; [done|]. split; [constructor|].
    constructor; [done|].
    rewrite Forall_forall in Ha, Hall. apply Forall_forall. intros b Hb.
    destruct (Hall b Hb) as [[_ Hg]|Hev]; [|done].
    pose proof (Ha b Hb). lia.
Qed.

(** X9.  In the list of today's tasks every goal comes before every event:
    a goal task has priority 9 or 10, an event task a priority from 4 to 8,
    and the list is a run of goal tasks followed by a run of event tasks. *)
Theorem getTodayTasks_goals_first goals events now :
  ∃ gs es,
    getTodayTasks goals events now = gs ++ es
    ∧ Forall (λ t, task_type t = goal_type ∧ 9 ≤ priority t ≤ 10) gs
    ∧ Forall (λ t, task_type t = event_type ∧ 4 ≤ priority t ≤ 8) es.
Proof.
  apply sorted_split.
  - apply Array_sort_Sorted; [|apply today_cmp_le|apply today_cmp_gt].
    intros a b c ??. lia.
  - unfold getTodayTasks. rewrite Array_sort_Permutation.
    apply Forall_app. split; apply Forall_fmap, Forall_forall.
    + intros g Hg. apply list_elem_of_filter in Hg as [(Hl & _) _].
      left. split; [done|]. by apply calculateGoalPriority_level_4.
    + intros e _. right. split; [done|]. apply calculateEventPriority_range.
Qed.

(** X10.  The number of overdue items shown in the statistics is the length
    of the overdue list, and every event that the statistics count as
    completed (its end is past) is counted as overdue as well. *)
Theorem calculateStatistics_overdue goals events now :
  ds_overdueItems (calculateStatistics goals events now)
  = Z.of_nat (length (getOverdueItems goals events now))
  ∧ ds_overdueItems (calculateStatistics goals events now)
    = Z.of_nat (length (filter (λ g, isOverdue_goal g now = true) goals))
      + ds_completedEvents (calculateStatistics goals events now).
Proof.
  unfold calculateStatistics, getOverdueItems. simpl. split.
  - f_equal.
    rewrite (Permutation_length (Array_sort_Permutation overdue_cmp _)).
    by rewrite length_app, !length_fmap.
  - by rewrite Nat2Z.inj_add.
Qed.

(** ** [EventService]: what is written is read back *)


Lemma events_update_Ok_inv db id p now x :
  events_update db id p now = Ok x →
  ∃ OLD,
    events db !! id = Some OLD
    ∧ x = (set_events db (<[id := apply_event_patch p now OLD]> (events db)),
           apply_event_patch p now OLD)
    ∧ event_accepted db (apply_event_patch p now OLD) = true.
Proof.
  unfold events_update, event_accepted.
  destruct (events db !! id) as [OLD|]; [|done]. intros H.
  apply bind_Ok_inv in H as ([] & Hch & H).
  apply bind_Ok_inv in H as ([] & Hfk & H).
  injection H as <-. exists OLD. by rewrite Hch, Hfk.
Qed.

Lemma event_accepted_range db r :
  event_accepted db r = true → EventRow.start_date r ≤ EventRow.end_date r.
Proof.
  unfold event_accepted, events_checks. intros H.
  apply andb_true_iff in H as [H _].
  destruct (guard_or (Nat.leb _ _) _) as [[]|]; [|done]. simpl in H.
  destruct (guard_or match EventRow.color r with
                     | Some c => is_hex_color c
                     | None => true
                     end _) as [[]|]; [|done]. simpl in H.
  destruct (Z.leb_spec (EventRow.start_date r) (EventRow.end_date r)); done.
Qed.

Lemma events_consistent_insert db id r :
  events_consistent db → event_accepted db r = true →
  events_consistent (set_events db (<[id := r]> (events db))).
Proof.
  intros Hc Hr k x. simpl. intros Hk.
  change (event_accepted db x = true).
  destruct (decide (id = k)) as [<-|Hne].
  - rewrite lookup_insert_eq in Hk. by injection Hk as <-.
  - rewrite lookup_insert_ne in Hk by done. by eapply Hc.
Qed.


(** X12.  An update that [updateEvent] carries out is read back by
    [getEvent]; it leaves the other events, the owner and the time of
    creation as they were, sets the time of the update, and every stored
    event, the updated one included, is still one that the storage accepts:
    it does not end before it starts. *)
Theorem updateEvent_keeps_consistent db input now db' e :
  events_consistent db →
  updateEvent db input now = Ok (db', e) →
  getEvent db' (ue_id input) = Ok e
  ∧ (∀ k, k ≠ ue_id input → events db' !! k = events db !! k)
  ∧ events_consistent db'
  ∧ Event.startDate e ≤ Event.endDate e
  ∧ Event.updatedAt e = now
  ∧ ∃ old,
      getEvent db (ue_id input) = Ok old
      ∧ Event.userId e = Event.userId old
      ∧ Event.createdAt e = Event.createdAt old.
Proof.
  intros Hc H. unfold updateEvent in H.
  apply bind_Ok_inv in H as ([db1 data] & Hup & H). injection H as <- <-.
  apply events_update_Ok_inv in Hup as (OLD & Hold & [= -> ->] & Hacc).
  split; [unfold getEvent; simpl; by rewrite lookup_insert_eq|].
  split; [intros k Hk; simpl; by rewrite lookup_insert_ne|].
  split; [by apply events_consistent_insert|].
  split; [apply (event_accepted_range _ _ Hacc)|].
  split; [done|].
  exists (transformEvent (ue_id input, OLD)).
  unfold getEvent. by rewrite Hold.
Qed.

(** ** [getGoals] *)




Lemma getGoals_elem db filters g :
  g ∈ getGoals db filters
  ↔ ∃ r, goals db !! Goal.id g = Some r
         ∧ g = transformGoal (Goal.id g, r)
         ∧ matches_filters filters r = true.
Proof.
  unfold getGoals. rewrite list_elem_of_fmap. split.
  - intros ([k r] & -> & H). rewrite Array_sort_Permutation in H.
    apply list_elem_of_filter in H as [Hm H].
    apply elem_of_map_to_list in H. by exists r.
  - intros (r & Hr & Hg & Hm). exists (Goal.id g, r). split; [done|].
    rewrite Array_sort_Permutation. apply list_elem_of_filter.
    split; [done|]. by apply elem_of_map_to_list.
Qed.

Lemma getGoals_NoDup db filters : NoDup (Goal.id <$> getGoals db filters).
Proof.
  unfold getGoals. rewrite <-list_fmap_compose.
  assert (∀ l : list (string * GoalRow.t),
            (Goal.id ∘ transformGoal) <$> l = l.*1) as ->.
  { intros l. apply list_fmap_ext. by intros ? [??]. }
  rewrite Array_sort_Permutation.
  eapply sublist_NoDup; [apply (NoDup_fst_map_to_list (goals db))|].
  apply fmap_sublist, sublist_filter.
Qed.


(** ** The trigger function [update_parent_goal_progress] *)

Lemma same_shape_refl r : same_shape r r.
Proof. by repeat split. Qed.



(** ** [getGoalStatistics] *)

Lemma filter_all {A} (P : A → Prop) `{∀ x, Decision (P x)} (l : list A) :
  Forall P l → filter P l = l.
Proof.
  induction 1 as [|x l Hx _ IH]; [done|].
  by rewrite filter_cons, decide_True, IH.
Qed.

Lemma getGoals_all_length db :
  length (getGoals db no_filters) = size (goals db).
Proof.
  unfold getGoals.
  rewrite length_fmap, (Permutation_length (Array_sort_Permutation _ _)).
  rewrite filter_all; [apply length_map_to_list|].
  by apply Forall_forall.
Qed.

Lemma getGoals_progress_range db filters :
  goals_consistent db →
  Forall (λ p, 0 <= p <= 100)%Q (Goal.progress <$> getGoals db filters).
Proof.
  intros Hc. apply Forall_fmap, Forall_forall. intros g Hg.
  apply getGoals_elem in Hg as (r & Hr & -> & _). simpl.
  by eapply accepted_progress_range, Hc.
Qed.

Lemma count_by_status (l : list Goal.t) :
  (length (filter (λ g, Goal.status g = active) l)
   + length (filter (λ g, Goal.status g = completed) l)
   + length (filter (λ g, Goal.status g = paused) l)
   + length (filter (λ g, Goal.status g = cancelled) l))%nat
  = length l.
Proof.
  induction l as [|g l IH]; [done|].
  rewrite !filter_cons.
  destruct (Goal.status g); simpl; lia.
Qed.

Section statistics.
Context (F : gmap Z number * ByStatus * Q → Goal.t
             → gmap Z number * ByStatus * Q).
Context (HF : ∀ bl bs tp g,
           F (bl, bs, tp) g
           = (increment (Goal.level g) bl,
              increment_status (Goal.status g) bs,
              (tp + Goal.progress g)%Q)).

Lemma statistics_fold l :
  ∀ bl bs tp,
    (∀ i n, bl !! i = Some (Num n) →
            (fold_left F l (bl, bs, tp)).1.1 !! i
            = Some (Num (n + Z.of_nat
                               (length (filter (λ g, Goal.level g = i) l)))))
    ∧ (fold_left F l (bl, bs, tp)).1.2
      = mkByStatus
          (n_active bs
           + Z.of_nat (length (filter (λ g, Goal.status g = active) l)))
          (n_completed bs
           + Z.of_nat (length (filter (λ g, Goal.status g = completed) l)))
          (n_paused bs
           + Z.of_nat (length (filter (λ g, Goal.status g = paused) l)))
          (n_cancelled bs
           + Z.of_nat (length (filter (λ g, Goal.status g = cancelled) l)))
    ∧ (fold_left F l (bl, bs, tp)).2
      = fold_left Qplus (Goal.progress <$> l) tp.
Proof.
  induction l as [|g l IH]; intros bl bs tp.
  - simpl. split; [|split; [|done]].
    + intros i n ->. by rewrite Z.add_0_r.
    + destruct bs. simpl. by rewrite !Z.add_0_r.
  - simpl fold_left. rewrite HF.
    destruct (IH (increment (Goal.level g) bl)
                (increment_status (Goal.status g) bs)
                (tp + Goal.progress g)%Q) as (IH1 & IH2 & IH3).
    split; [|split; [|done]].
    + intros i n Hi. rewrite filter_cons.
      destruct (decide (Goal.level g = i)) as [<-|Hne].
      * rewrite (IH1 _ (n + 1)).
        -- simpl length. do 2 f_equal. lia.
        -- unfold increment. by rewrite lookup_insert_eq, Hi.
      * apply IH1. unfold increment. by rewrite lookup_insert_ne.
    + rewrite IH2, !filter_cons.
      destruct (Goal.status g); simpl; f_equal; lia.
Qed.
End statistics.

(** X15.  In a table that satisfies the storage constraints,
    [getGoalStatistics] counts every stored goal: the total is the number of
    rows, the counter of each level from 1 to 4 is the number of goals of
    that level (never [NaN]), the counters by status add up to the total and
    agree with [completedGoals] and [activeGoals], and the overall progress
    lies between 0 and 100. *)
Theorem getGoalStatistics_counts db :
  goals_consistent db →
  gs_totalGoals (getGoalStatistics db) = Z.of_nat (size (goals db))
  ∧ (∀ i, 1 ≤ i ≤ 4 →
          goalsByLevel (getGoalStatistics db) !! i
          = Some (Num (Z.of_nat
                         (length (filter (λ g, Goal.level g = i)
                                    (getGoals db no_filters))))))
  ∧ n_completed (goalsByStatus (getGoalStatistics db))
    = gs_completedGoals (getGoalStatistics db)
  ∧ n_active (goalsByStatus (getGoalStatistics db))
    = gs_activeGoals (getGoalStatistics db)
  ∧ n_active (goalsByStatus (getGoalStatistics db))
    + n_completed (goalsByStatus (getGoalStatistics db))
    + n_paused (goalsByStatus (getGoalStatistics db))
    + n_cancelled (goalsByStatus (getGoalStatistics db))
    = gs_totalGoals (getGoalStatistics db)
  ∧ (0 <= gs_overallProgress (getGoalStatistics db) <= 100)%Q.
Proof.
  intros Hc. unfold getGoalStatistics.
  match goal with
  | |- context [fold_left ?F ?l ?a] =>
      destruct (statistics_fold F ltac:(done) l
                  {[1 := Num 0; 2 := Num 0; 3 := Num 0; 4 := Num 0]}
                  (mkByStatus 0 0 0 0) 0%Q) as (H1 & H2 & H3);
      destruct (fold_left F l a) as [[bl bs] tp]
  end.
  simpl in H1, H2, H3. simpl.
  split; [by rewrite getGoals_all_length|].
  split.
  { intros i Hi. 
    assert (i = 1 ∨ i = 2 ∨ i = 3 ∨ i = 4) as Hcases by lia.
    destruct Hcases as [Hi'|[Hi'|[Hi'|Hi']]]; subst i; by rewrite (H1 _ 0). }
  subst bs. simpl.
  split; [done|]. split; [done|]. split.
  { pose proof (count_by_status (getGoals db no_filters)). lia. }
  pose proof (getGoals_progress_range db no_filters Hc) as Hr.
  destruct (getGoals db no_filters) as [|g l] eqn:E; [simpl; lra|].
  assert (Goal.progress <$> g :: l ≠ []) as Hne by (by rewrite fmap_cons).
  pose proof (mean_range _ Hne Hr) as Hm. unfold mean in Hm.
  rewrite length_fmap, <-Qsum_foldr in Hm. subst tp.
  change (0 <? length (g :: l))%nat with true. exact Hm.
Qed.

(** ** The recomputed progress depends on the children only *)

Lemma filter_map_to_list {A} (P : string * A → Prop)
    `{∀ x, Decision (P x)} (m : gmap string A) :
  filter P (map_to_list m) ≡ₚ map_to_list (filter P m).
Proof.
  rewrite map_filter_alt. symmetry. apply map_to_list_to_map.
  eapply sublist_NoDup; [apply (NoDup_fst_map_to_list m)|].
  apply fmap_sublist, sublist_filter.
Qed.

Lemma eligible_children_frame db db' a :
  (∀ k r, GoalRow.parent_id r = Some a →
          goals db' !! k = Some r ↔ goals db !! k = Some r) →
  eligible_children db' a ≡ₚ eligible_children db a.
Proof.
  intros Hch. unfold eligible_children.
  rewrite !filter_fmap_comm, !filter_map_to_list.
  match goal with
  | |- _ <$> map_to_list ?m1 ≡ₚ _ <$> map_to_list ?m2 =>
      assert (m1 = m2) as ->; [|done]
  end.
  apply map_eq. intros k. apply option_eq. intros r.
  rewrite !map_lookup_filter_Some. simpl. split.
  - intros (Hk & Hp & Hs). split; [by apply Hch|done].
  - intros (Hk & Hp & Hs). split; [by apply Hch|done].
Qed.

Lemma calculateParentProgress_frame db db' a :
  (∀ k r, GoalRow.parent_id r = Some a →
          goals db' !! k = Some r ↔ goals db !! k = Some r) →
  calculateParentProgress db' a = calculateParentProgress db a.
Proof.
  intros Hch. rewrite !calculateParentProgress_eq. f_equal.
  pose proof (eligible_children_frame db db' a Hch) as HP.
  apply (fmap_Permutation GoalRow.progress) in HP.
  destruct (GoalRow.progress <$> eligible_children db' a) as [|x l] eqn:E',
    (GoalRow.progress <$> eligible_children db a) as [|y l'] eqn:E.
  - done.
  - by apply Permutation_nil_l in HP.
  - by apply Permutation_nil_r in HP.
  - apply round2_comp. unfold mean.
    by rewrite (foldr_Qplus_Permutation _ _ HP), (Permutation_length HP).
Qed.

Lemma same_shape_trans r1 r2 r3 :
  same_shape r1 r2 → same_shape r2 r3 → same_shape r1 r3.
Proof.
  intros (?&?&?&?&?&?) (?&?&?&?&?&?). unfold same_shape.
  repeat split; congruence.
Qed.

(** ** After the propagation *)

Lemma visits_in_sync db l db' :
  visits db l db' →
  goals_consistent db →
  (∃ g m rest,
     is_Some (goals db !! g) ∧ ancestors_upto m db g = l ++ rest) →
  goals_consistent db'
  ∧ Forall (in_sync db') l
  ∧ (∀ k, k ∉ l → goals db' !! k = goals db !! k)
  ∧ (∀ k r, goals db !! k = Some r →
            ∃ r', goals db' !! k = Some r' ∧ same_shape r r').
Proof.
  induction 1 as [db|db a l db' p q p' Hp Hq Hgt Hprog Hshape Hvis IH];
    intros Hc Hchain.
  { split; [done|]. split; [constructor|]. split; [done|].
    intros k r Hk. exists r. split; [done|apply same_shape_refl]. }
  destruct Hchain as (g & m & rest & [rg Hg] & Hanc).
  destruct m as [|m]; [done|]. simpl in Hanc.
  destruct (parent_of db g) as [a'|] eqn:Hpar; [|done].
  injection Hanc as -> Hanc.
  destruct (calculateParentProgress_stored db a Hc) as (q0 & Hq0 & Hrange & _).
  rewrite Hq in Hq0. injection Hq0 as <-.
  assert (0 <= GoalRow.progress p' <= 100)%Q as Hr by (by rewrite Hprog).
  assert (goals_consistent (rewrite_goal db a p')) as Hc1
    by (by eapply rewrite_row_consistent).
  destruct IH as (Hc' & Hsync & Hframe & Hshapes); [done| |].
  { exists a, m, rest. split; [simpl; rewrite lookup_insert_eq; by eexists|].
    by rewrite (rewrite_row_ancestors db a p p' Hp Hshape). }
  pose proof (ancestors_upto_levels m db a p Hc Hp) as Hlev.
  rewrite Hanc in Hlev. apply Forall_app in Hlev as [Hlev _].
  rewrite Forall_forall in Hlev.
  assert (a ∉ l) as Hal.
  { intros Hin. destruct (Hlev _ Hin) as (ra & Ha & Hlt).
    rewrite Hp in Ha. injection Ha as <-. lia. }
  pose proof (accepted_not_self db a p (Hc _ _ Hp)) as Hself.
  split; [done|]. split; [|split].
  - constructor; [|done].
    exists p', q.
    split; [rewrite (Hframe a Hal); simpl; apply lookup_insert_eq|].
    split; [|done].
    rewrite <-Hq. apply calculateParentProgress_frame. intros k r Hpr.
    destruct (decide (k = a)) as [->|Hka].
    + rewrite (Hframe a Hal). simpl. rewrite lookup_insert_eq, Hp.
      split; intros [= <-]; exfalso; apply Hself; [|done].
      destruct Hshape as (_ & Hpp & _). by rewrite <-Hpp.
    + destruct (decide (k ∈ l)) as [Hkl|Hkl].
      * destruct (Hlev _ Hkl) as (rk & Hk & Hlt).
        assert (goals (rewrite_goal db a p') !! k = Some rk) as Hk1
          by (simpl; by rewrite lookup_insert_ne).
        destruct (Hshapes k rk Hk1) as (rk' & Hk' & Hsh).
        rewrite Hk', Hk.
        assert (GoalRow.parent_id rk ≠ Some a) as Hno.
        { intros Hpa.
          destruct (consistent_parent _ _ _ _ Hc Hk Hpa) as (rp & Hrp & Hl).
          rewrite Hp in Hrp. injection Hrp as <-. lia. }
        split; intros [= <-]; exfalso; apply Hno; [|done].
        destruct Hsh as (_ & Hpp & _). by rewrite <-Hpp.
      * rewrite (Hframe k Hkl). simpl. by rewrite lookup_insert_ne.
  - intros k Hk. apply not_elem_of_cons in Hk as [Hka Hkl].
    rewrite (Hframe k Hkl). simpl. by rewrite lookup_insert_ne.
  - intros k r Hk. destruct (decide (k = a)) as [->|Hka].
    + rewrite Hp in Hk. injection Hk as <-.
      destruct (Hshapes a p') as (r' & Hr' & Hsh);
        [simpl; apply lookup_insert_eq|].
      exists r'. split; [done|]. by eapply same_shape_trans.
    + apply Hshapes. simpl. by rewrite lookup_insert_ne.
Qed.


(** X17.  For a goal of a table that satisfies the storage constraints,
    [updateProgressWithParentCalculation] raises no error, whatever the
    number given: it terminates, stores the progress clamped to 0..100 with
    two decimals on the goal and returns that goal; the rows it writes are
    the goal and ancestors of the goal, every goal stays where it was in the
    hierarchy, and the table satisfies the storage constraints again. *)
Theorem updateProgressWithParentCalculation_total db goalId progress now fuel :
  goals_consistent db → is_Some (goals db !! goalId) → (4 ≤ fuel)%nat →
  ∃ db' g,
    updateProgressWithParentCalculation fuel db goalId progress now
    = Some (Ok (db', g))
    ∧ goals_consistent db'
    ∧ getGoal db' goalId = Ok g
    ∧ Goal.progress g = numeric_5_2 (Qmin 100 (Qmax 0 progress))
    ∧ (∀ k, k ≠ goalId → k ∉ ancestors db goalId →
            goals db' !! k = goals db !! k)
    ∧ (∀ k r, goals db !! k = Some r →
              ∃ r', goals db' !! k = Some r' ∧ same_shape r r').
Proof.
  intros Hc [rg Hg] Hfuel.
  set (input := mkUpdateGoalInput goalId None None (Some progress)
                  (Some (if Qeq_bool progress 100 then completed else active))
                  None None None).
  assert (keeps_shape (updateGoal_data input now)) as Hks.
  { unfold keeps_shape. simpl. repeat split; apply clamp_range. }
  destruct (goals_update_keeps_shape db goalId rg _ now Hc Hg Hks)
    as (Hup & Hshape & Hc1).
  set (NEW := update_goal_updated_at now
                (apply_patch (updateGoal_data input now) rg)) in *.
  set (db1 := rewrite_goal db goalId NEW) in *.
  assert (goals db1 !! goalId = Some NEW) as Hnew
    by (subst db1; simpl; apply lookup_insert_eq).
  assert (GoalRow.level NEW ≤ 4) as Hl.
  { pose proof (consistent_level _ _ _ Hc1 Hnew). lia. }
  destruct (chain_run now 4 db1 goalId NEW 4 fuel Hc1 Hnew)
    as (db' & visited & rest & Hrun & Hanc & Hvis & _ & Hframe);
    [lia|lia|lia|].
  destruct (visits_in_sync db1 visited db' Hvis Hc1)
    as (Hc' & _ & _ & Hshapes).
  { exists goalId, 4%nat, rest. split; [by eexists|done]. }
  pose proof (ancestors_upto_levels 4 db1 goalId NEW Hc1 Hnew) as Hlev.
  rewrite Hanc in Hlev. apply Forall_app in Hlev as [Hlev _].
  rewrite Forall_forall in Hlev.
  assert (goalId ∉ visited) as Hnot.
  { intros Hin. destruct (Hlev _ Hin) as (ra & Ha & Hlt).
    rewrite Hnew in Ha. injection Ha as <-. lia. }
  exists db', (transformGoal (goalId, NEW)).
  split; [|split; [done|split; [|split; [done|split]]]].
  - unfold updateProgressWithParentCalculation, updateProgress, updateGoal.
    fold input. change (u_id input) with goalId.
    rewrite Hup. simpl. by rewrite Hrun.
  - unfold getGoal. by rewrite (Hframe goalId Hnot), Hnew.
  - intros k Hk Hka. rewrite Hframe.
    + subst db1. simpl. by rewrite lookup_insert_ne.
    + intros Hin. apply Hka. unfold ancestors.
      rewrite <-(rewrite_row_ancestors db goalId rg NEW Hg Hshape).
      fold db1. rewrite Hanc. apply elem_of_app. by left.
  - intros k r Hk. destruct (decide (k = goalId)) as [->|Hne].
    + rewrite Hg in Hk. injection Hk as <-.
      destruct (Hshapes goalId NEW Hnew) as (r' & Hr' & Hsh).
      exists r'. split; [done|]. by eapply same_shape_trans.
    + apply Hshapes. subst db1. simpl. by rewrite lookup_insert_ne.
Qed.

(** ** [updateProgress] and the time of completion *)



(** ** When [moveGoal] is accepted *)

Lemma truthy_Some p : truthy (Some p) = true ↔ p ≠ "".
Proof. unfold truthy. rewrite negb_true_iff. apply String.eqb_neq. Qed.

Lemma bind_Ok {A B} (a : A) (f : A → Result B) : Ok a ≫= f = f a.
Proof. done. Qed.

Lemma guard_or_true msg : guard_or true msg = Ok tt.
Proof. done. Qed.

Lemma goals_foreign_keys_Ok db r :
  goals_foreign_keys db r = Ok tt
  ↔ match GoalRow.parent_id r with
    | None => true
    | Some p => negb (String.eqb p "") && bool_decide (is_Some (goals db !! p))
    end = true
    ∧ match GoalRow.category_id r with
      | None => true
      | Some c => bool_decide (c ∈ categories db)
      end = true.
Proof.
  unfold goals_foreign_keys.
  destruct (match GoalRow.parent_id r with
            | Some p => _
            | None => true
            end); simpl; [|split; [done|by intros [? _]]].
  destruct (match GoalRow.category_id r with
            | Some c => _
            | None => true
            end); simpl; [done|split; [done|by intros [_ ?]]].
Qed.

Lemma goals_update_Ok_intro db id p now OLD :
  goals db !! id = Some OLD →
  row_accepted db id (update_goal_updated_at now (apply_patch p OLD)) = true →
  goals_update db id p now
  = Ok (rewrite_goal db id (update_goal_updated_at now (apply_patch p OLD)),
        update_goal_updated_at now (apply_patch p OLD)).
Proof.
  intros Hid Hacc. destruct (row_accepted_inv _ _ _ Hacc) as (Hv & Hch & Hfk).
  unfold goals_update. rewrite Hid, Hv, bind_Ok, Hch, bind_Ok, Hfk. done.
Qed.

Lemma moved_row_accepted db goalId rg parent_id level now :
  goals_consistent db → goals db !! goalId = Some rg →
  parent_id ≠ Some goalId →
  match parent_id with
  | Some p =>
      p ≠ ""
      ∧ ∃ parent, goals db !! p = Some parent
                  ∧ level = GoalRow.level parent + 1
                  ∧ GoalRow.level parent < 4
  | None => level = 1
  end →
  row_accepted db goalId
    (update_goal_updated_at now
       (apply_patch
          (mkGoalPatch None None (Some parent_id) (Some level) None None None
             None None None) rg))
  = true.
Proof.
  intros Hc Hg Hself Hpar.
  destruct (row_accepted_inv _ _ _ (Hc _ _ Hg)) as (_ & Hch & Hfk).
  apply goals_checks_Ok in Hch as (Ht & _ & Hpr & Hd & _).
  apply goals_foreign_keys_Ok in Hfk as [_ Hcat].
  apply row_accepted_intro.
  - unfold validate_goal_hierarchy. simpl. destruct parent_id as [p|].
    + destruct Hpar as (_ & parent & -> & -> & _). simpl.
      by rewrite Z.eqb_refl.
    + by rewrite Hpar.
  - apply goals_checks_Ok. simpl.
    split; [done|]. split; [|split; [done|split; [done|]]].
    + destruct parent_id as [p|].
      * destruct Hpar as (_ & parent & Hp & -> & Hlt).
        pose proof (consistent_level _ _ _ Hc Hp).
        apply andb_true_iff. rewrite !Z.leb_le. lia.
      * by rewrite Hpar.
    + by apply negb_true_iff, bool_decide_eq_false.
  - apply goals_foreign_keys_Ok. simpl. split; [|done].
    destruct parent_id as [p|]; [|done].
    destruct Hpar as (Hne & parent & Hp & _).
    apply String.eqb_neq in Hne. by rewrite Hne, Hp.
Qed.

(** X19.  In a table that satisfies the storage constraints, [moveGoal]
    succeeds exactly when the goal exists and, with a new parent, the new
    parent exists, is not the goal itself and has a level below 4.  Nothing
    else is asked of the new parent: a goal can be moved under one of its own
    descendants. *)
Theorem moveGoal_accepted_iff db goalId newParentId now :
  goals_consistent db →
  is_Ok (moveGoal db goalId newParentId now)
  ↔ is_Some (goals db !! goalId)
    ∧ (truthy newParentId = true →
       ∃ p parent,
         newParentId = Some p ∧ p ≠ goalId
         ∧ goals db !! p = Some parent ∧ GoalRow.level parent < 4).
Proof.
  intros Hc. split.
  - intros [x H]. unfold moveGoal in H.
    apply bind_Ok_inv in H as (goal & Hgoal & H).
    apply bind_Ok_inv in H as (newLevel & HnewLevel & H).
    apply bind_Ok_inv in H as ([] & _ & H).
    apply bind_Ok_inv in H as ([db1 data] & Hup & _).
    apply goals_update_Ok_inv in Hup as (OLD & Hold & _ & Hacc).
    split; [by eexists|]. intros Ht. rewrite Ht in HnewLevel, Hacc.
    destruct newParentId as [p|]; [|done].
    apply bind_Ok_inv in HnewLevel as (newParent & Hparent & HnewLevel).
    apply bind_Ok_inv in HnewLevel as ([] & Hguard & _).
    apply guard_or_Ok_inv, negb_true_iff, Z.leb_gt in Hguard.
    unfold getGoal in Hparent. simpl in Hparent.
    destruct (goals db !! p) as [parent|] eqn:Hp; [|done].
    injection Hparent as <-.
    exists p, parent. split; [done|]. split; [|done].
    apply accepted_not_self in Hacc. simpl in Hacc. by intros ->.
  - intros [[rg Hg] Hpar]. unfold moveGoal.
    assert (getGoal db goalId = Ok (transformGoal (goalId, rg))) as ->
      by (unfold getGoal; by rewrite Hg).
    rewrite bind_Ok.
    destruct (truthy newParentId) eqn:Ht.
    + destruct (Hpar eq_refl) as (p & parent & -> & Hne & Hp & Hlt).
      simpl default.
      assert (getGoal db p = Ok (transformGoal (p, parent))) as ->
        by (unfold getGoal; by rewrite Hp).
      rewrite bind_Ok.
      change (Goal.level (transformGoal (p, parent)))
        with (GoalRow.level parent).
      rewrite (proj2 (Z.leb_gt 4 (GoalRow.level parent)) Hlt).
      simpl negb. rewrite guard_or_true, !bind_Ok.
      rewrite (proj2 (Z.ltb_ge 4 (GoalRow.level parent + 1))) by lia.
      simpl negb. rewrite guard_or_true, bind_Ok.
      erewrite goals_update_Ok_intro; [by eexists|done|].
      apply moved_row_accepted; [done|done|by intros [= ->]|].
      split; [by apply truthy_Some|]. by exists parent.
    + rewrite bind_Ok. simpl negb. rewrite guard_or_true, bind_Ok.
      erewrite goals_update_Ok_intro; [by eexists|done|].
      by apply moved_row_accepted.
Qed.

(** ** [getEvents] *)




(** ** [getGoalWithChildren] *)

Lemma getGoals_all_elem db g :
  g ∈ getGoals db no_filters ↔ getGoal db (Goal.id g) = Ok g.
Proof.
  rewrite getGoals_elem. unfold getGoal. split.
  - intros (r & Hr & Hg & _). rewrite Hr. by rewrite Hg at 2.
  - intros H. destruct (goals db !! Goal.id g) as [r|]; [|done].
    injection H as H. by exists r.
Qed.

Lemma find_getGoals db id rg :
  goals db !! id = Some rg →
  List.find (λ g, bool_decide (Goal.id g = id)) (getGoals db no_filters)
  = Some (transformGoal (id, rg)).
Proof.
  intros Hg.
  destruct (List.find _ (getGoals db no_filters)) as [y|] eqn:Hfind.
  - apply find_some in Hfind as [Hin Hid].
    apply bool_decide_eq_true in Hid.
    apply list_elem_of_In, getGoals_all_elem in Hin.
    unfold getGoal in Hin. rewrite Hid, Hg in Hin. by injection Hin as <-.
  - exfalso.
    assert (transformGoal (id, rg) ∈ getGoals db no_filters) as Hin.
    { apply getGoals_all_elem. unfold getGoal. simpl. by rewrite Hg. }
    apply list_elem_of_In in Hin.
    pose proof (find_none _ _ Hfind _ Hin) as Hno. simpl in Hno.
    by rewrite bool_decide_eq_true_2 in Hno.
Qed.

Lemma find_getGoals_None db id :
  goals db !! id = None →
  List.find (λ g, bool_decide (Goal.id g = id)) (getGoals db no_filters)
  = None.
Proof.
  intros Hg.
  destruct (List.find _ (getGoals db no_filters)) as [y|] eqn:Hfind; [|done].
  apply find_some in Hfind as [Hin Hid].
  apply bool_decide_eq_true in Hid.
  apply list_elem_of_In, getGoals_all_elem in Hin.
  unfold getGoal in Hin. by rewrite Hid, Hg in Hin.
Qed.

Lemma ancestors_nonempty db k a :
  a ∈ ancestors db k → is_Some (goals db !! k).
Proof.
  unfold ancestors. simpl. unfold parent_of at 1.
  destruct (goals db !! k); [by eexists|]. by intros ?%elem_of_nil.
Qed.

(** The parent of an ancestor is an ancestor. *)
Lemma ancestors_closed db k a b :
  goals_consistent db →
  b ∈ ancestors db k → parent_of db b = Some a → a ∈ ancestors db k.
Proof.
  intros Hc Hb Hpar. destruct (ancestors_nonempty _ _ _ Hb) as [rk Hk].
  pose proof (consistent_level _ _ _ Hc Hk).
  unfold ancestors in *.
  rewrite (ancestors_upto_stable db 4 5 k rk Hc Hk) by lia.
  apply ancestors_upto_snoc. right. by exists b.
Qed.

Lemma children_elem db g c :
  goals_consistent db →
  c ∈ filter (λ x, Goal.parentId x = Some g) (getGoals db no_filters)
  ↔ ∃ rc, goals db !! Goal.id c = Some rc
          ∧ c = transformGoal (Goal.id c, rc)
          ∧ parent_of db (Goal.id c) = Some g.
Proof.
  intros Hc. rewrite list_elem_of_filter, getGoals_elem. split.
  - intros (Hp & rc & Hrc & Heq & _). exists rc. split; [done|].
    split; [done|]. apply (consistent_truthy _ _ rc _ Hc Hrc).
    by rewrite Heq in Hp.
  - intros (rc & Hrc & Heq & Hp).
    destruct (parent_of_Some _ _ _ _ Hrc Hp) as [Hpid _].
    split; [by rewrite Heq|]. by exists rc.
Qed.

Lemma elem_of_flat_map {A B} (f : A → list B) (l : list A) (y : B) :
  y ∈ flat_map f l ↔ ∃ x, x ∈ l ∧ y ∈ f x.
Proof.
  rewrite list_elem_of_In, in_flat_map.
  by setoid_rewrite list_elem_of_In.
Qed.

Lemma Forall2_elem_r {A B} (P : A → B → Prop) l k y :
  Forall2 P l k → y ∈ k → ∃ x, x ∈ l ∧ P x y.
Proof.
  induction 1 as [|a b l k Hab _ IH]; [by intros ?%elem_of_nil|].
  intros [->|Hy]%elem_of_cons.
  - exists a. split; [by left|done].
  - destruct (IH Hy) as (x & Hx & HP). exists x. split; [by right|done].
Qed.

Lemma Forall2_elem_l {A B} (P : A → B → Prop) l k x :
  Forall2 P l k → x ∈ l → ∃ y, y ∈ k ∧ P x y.
Proof.
  induction 1 as [|a b l k Hab _ IH]; [by intros ?%elem_of_nil|].
  intros [->|Hx]%elem_of_cons.
  - exists b. split; [by left|done].
  - destruct (IH Hx) as (y & Hy & HP). exists y. split; [by right|done].
Qed.

Lemma buildGoalBranch_run db :
  goals_consistent db →
  ∀ fuel g rg,
    goals db !! g = Some rg → 5 - GoalRow.level rg ≤ Z.of_nat fuel →
    ∃ children,
      buildGoalBranch fuel (transformGoal (g, rg)) (getGoals db no_filters)
      = Some (Node (transformGoal (g, rg)) children)
      ∧ ∀ x, x ∈ nodes (Node (transformGoal (g, rg)) children)
             ↔ getGoal db (Goal.id x) = Ok x
               ∧ (Goal.id x = g ∨ g ∈ ancestors db (Goal.id x)).
Proof.
  intros Hc. induction fuel as [|fuel IH]; intros g rg Hg Hfuel.
  { pose proof (consistent_level _ _ _ Hc Hg). lia. }
  set (all := getGoals db no_filters) in *.
  set (cs := filter (λ x, Goal.parentId x = Some g) all).
  assert (∀ c, c ∈ cs →
               ∃ t, buildGoalBranch fuel c all = Some t
                    ∧ ∀ x, x ∈ nodes t
                           ↔ getGoal db (Goal.id x) = Ok x
                             ∧ (Goal.id x = Goal.id c
                                ∨ Goal.id c ∈ ancestors db (Goal.id x)))
    as Hsub.
  { intros c Hin. apply (children_elem db g c Hc) in Hin
      as (rc & Hrc & Heq & Hp).
    destruct (parent_of_Some _ _ _ _ Hrc Hp) as [Hpid _].
    destruct (consistent_parent _ _ _ _ Hc Hrc Hpid) as (rp & Hrp & Hl).
    rewrite Hg in Hrp. injection Hrp as <-.
    destruct (IH (Goal.id c) rc Hrc) as (ch & Hrun & Hnodes); [lia|].
    rewrite <-Heq in Hrun, Hnodes. by eexists. }
  assert (is_Some (mapM (λ child, buildGoalBranch fuel child all) cs))
    as [ts Hts].
  { apply mapM_is_Some, Forall_forall. intros c Hin.
    destruct (Hsub c Hin) as (t & Ht & _). by exists t. }
  exists ts. split.
  { simpl. fold all. fold cs. by rewrite Hts. }
  apply mapM_Some in Hts.
  intros x. simpl nodes. rewrite elem_of_cons, elem_of_flat_map.
  split.
  - intros [->|(t & Ht & Hx)].
    + split; [unfold getGoal; simpl; by rewrite Hg|by left].
    + destruct (Forall2_elem_r _ _ _ _ Hts Ht) as (c & Hin & Hbuild).
      destruct (Hsub c Hin) as (t' & Ht' & Hnodes).
      rewrite Hbuild in Ht'. injection Ht' as <-.
      destruct (proj1 (Hnodes x) Hx) as [Hget Hx']. split; [done|]. right.
      destruct (proj1 (children_elem db g c Hc) Hin) as (rc & Hrc & Heq & Hp).
      destruct Hx' as [Hid|Hanc].
      * rewrite Hid. unfold ancestors. simpl. rewrite Hp. by left.
      * by eapply ancestors_closed.
  - intros [Hget [Hid|Hanc]].
    + left. unfold getGoal in Hget. rewrite Hid, Hg in Hget.
      by injection Hget as <-.
    + right. unfold ancestors in Hanc.
      apply (ancestors_upto_snoc 3) in Hanc as [Hp|(b & Hb & Hp)].
      * assert (x ∈ cs) as Hin.
        { apply (children_elem db g x Hc).
          unfold getGoal in Hget.
          destruct (goals db !! Goal.id x) as [rx|]; [|done].
          injection Hget as Hget. by exists rx. }
        destruct (Forall2_elem_l _ _ _ _ Hts Hin) as (t & Ht & Hbuild).
        exists t. split; [done|].
        destruct (Hsub x Hin) as (t' & Ht' & Hnodes).
        rewrite Hbuild in Ht'. injection Ht' as <-.
        apply Hnodes. split; [done|by left].
      * destruct (goals db !! b) as [rb|] eqn:Hrb;
          [|by unfold parent_of in Hp; rewrite Hrb in Hp].
        assert (transformGoal (b, rb) ∈ cs) as Hin.
        { apply (children_elem db g _ Hc). by exists rb. }
        destruct (Forall2_elem_l _ _ _ _ Hts Hin) as (t & Ht & Hbuild).
        exists t. split; [done|].
        destruct (Hsub _ Hin) as (t' & Ht' & Hnodes).
        rewrite Hbuild in Ht'. injection Ht' as <-.
        apply Hnodes. split; [done|]. right. simpl.
        unfold ancestors. by apply ancestors_upto_mono.
Qed.

(** X21.  [getGoalWithChildren] of an absent goal fails with 'Goal not
    found'.  For a goal of a table that satisfies the storage constraints it
    terminates, at a depth of at most four, and returns the tree rooted at
    the goal whose nodes are the goal and all its descendants (the goals
    that have it among their ancestors), each as [getGoal] reads it; these
    are the goals that [deleteGoal] of the goal removes. *)
Theorem getGoalWithChildren_descendants db id fuel :
  goals_consistent db → (4 ≤ fuel)%nat →
  match goals db !! id with
  | None => getGoalWithChildren fuel db id = Some (Err "Goal not found")
  | Some rg =>
      ∃ children,
        getGoalWithChildren fuel db id
        = Some (Ok (Node (transformGoal (id, rg)) children))
        ∧ (∀ x, x ∈ nodes (Node (transformGoal (id, rg)) children)
                ↔ getGoal db (Goal.id x) = Ok x
                  ∧ (Goal.id x = id ∨ id ∈ ancestors db (Goal.id x)))
        ∧ (∀ k, is_Some (goals db !! k) →
                goals (deleteGoal db id) !! k = None
                ↔ k ∈ Goal.id <$> nodes (Node (transformGoal (id, rg)) children))
  end.
Proof.
  intros Hc Hfuel. destruct (goals db !! id) as [rg|] eqn:Hg.
  2:{ unfold getGoalWithChildren. by rewrite find_getGoals_None. }
  pose proof (consistent_level _ _ _ Hc Hg) as Hl.
  destruct (buildGoalBranch_run db Hc fuel id rg Hg)
    as (children & Hrun & Hnodes); [lia|].
  exists children. split; [|split; [done|]].
  { unfold getGoalWithChildren. by rewrite (find_getGoals _ _ _ Hg), Hrun. }
  intros k [x Hk]. unfold deleteGoal, goals_delete.
  change (goals (set_goals db ?m)) with m.
  rewrite map_lookup_filter_None. split.
  - intros [Hn|Hall]; [congruence|]. specialize (Hall x Hk). simpl in Hall.
    rewrite (goals_delete_lookup db id k x Hc Hk) in Hall.
    apply list_elem_of_fmap. exists (transformGoal (k, x)). split; [done|].
    apply Hnodes. simpl. split; [unfold getGoal; by rewrite Hk|].
    destruct (decide (k = id)) as [|Hne]; [by left|]. right.
    destruct (decide (id ∈ ancestors db k)) as [|Hnot]; [done|].
    exfalso. by apply Hall.
  - intros Hin. apply list_elem_of_fmap in Hin as (g & -> & Hg').
    apply Hnodes in Hg' as [Hget Hcase]. right. intros x' Hx' Hnot.
    simpl in Hnot.
    apply (goals_delete_lookup db id _ x' Hc Hx') in Hnot as [Hne Hnotin].
    by destruct Hcase.
Qed.

(** ** [buildGoalTree] *)

Lemma buildGoalTree_nodes_other l (m : gmap string TreeNode) k :
  k ∉ Goal.id <$> l →
  fold_left (λ goalMap goal, <[Goal.id goal := mkTreeNode goal [] None]> goalMap)
    l m !! k
  = m !! k.
Proof.
  revert m. induction l as [|x l IH]; intros m Hk; [done|].
  rewrite fmap_cons, not_elem_of_cons in Hk. destruct Hk as [Hne Hk].
  simpl. rewrite IH by done. by rewrite lookup_insert_ne.
Qed.

Lemma buildGoalTree_nodes_lookup l (m : gmap string TreeNode) g :
  NoDup (Goal.id <$> l) → g ∈ l →
  fold_left (λ goalMap goal, <[Goal.id goal := mkTreeNode goal [] None]> goalMap)
    l m !! Goal.id g
  = Some (mkTreeNode g [] None).
Proof.
  revert m. induction l as [|x l IH]; intros m Hnd Hg;
    [by apply elem_of_nil in Hg|].
  rewrite fmap_cons in Hnd. apply NoDup_cons in Hnd as [Hx Hnd].
  simpl. apply elem_of_cons in Hg as [->|Hg].
  - rewrite buildGoalTree_nodes_other by done. apply lookup_insert_eq.
  - by apply IH.
Qed.

Section buildGoalTree.
Context (goals : list Goal.t).
Context (Hnd : NoDup (Goal.id <$> goals)).

Lemma goal_of_id g x :
  g ∈ goals → x ∈ goals → Goal.id g = Goal.id x → g = x.
Proof.
  intros [i Hi]%list_elem_of_lookup [j Hj]%list_elem_of_lookup Hid.
  assert (i = j) as ->.
  { apply (NoDup_lookup _ i j (Goal.id g) Hnd).
    - by rewrite list_lookup_fmap, Hi.
    - by rewrite list_lookup_fmap, Hj, Hid. }
  congruence.
Qed.

Lemma linked_snoc l1 x g :
  Goal.id x ∉ Goal.id <$> l1 →
  linked goals (l1 ++ [x]) g
  = mkTreeNode g
      (tn_children (linked goals l1 g)
       ++ (if decide (child_of (Goal.id g) x) then [Goal.id x] else []))
      (if bool_decide (Goal.id g = Goal.id x) && truthy (Goal.parentId g)
          && bool_decide (default "" (Goal.parentId g) ∈ Goal.id <$> goals)
       then Some (default "" (Goal.parentId g))
       else tn_parent (linked goals l1 g)).
Proof.
  intros Hx. unfold linked. simpl. f_equal.
  - rewrite filter_app, fmap_app. f_equal.
    rewrite filter_cons, filter_nil. by destruct (decide _).
  - rewrite fmap_app. simpl.
    destruct (decide (Goal.id g = Goal.id x)) as [Heq|Hne].
    + rewrite (bool_decide_eq_true_2 (Goal.id g = Goal.id x)) by done.
      rewrite (bool_decide_eq_true_2 (Goal.id g ∈ _)).
      2:{ apply elem_of_app. right. rewrite Heq. by left. }
      rewrite (bool_decide_eq_false_2 (Goal.id g ∈ Goal.id <$> l1))
        by (by rewrite Heq).
      done.
    + rewrite (bool_decide_eq_false_2 (Goal.id g = Goal.id x)) by done.
      simpl.
      rewrite (bool_decide_ext (Goal.id g ∈ (Goal.id <$> l1) ++ [Goal.id x])
                 (Goal.id g ∈ Goal.id <$> l1)); [done|].
      rewrite elem_of_app, list_elem_of_singleton. tauto.
Qed.

Lemma buildGoalTree_links l2 :
  ∀ l1 m roots,
    goals = l1 ++ l2 →
    roots = Goal.id <$> filter (λ g, truthy (Goal.parentId g) = false) l1 →
    (∀ k, k ∉ Goal.id <$> goals → m !! k = None) →
    (∀ g, g ∈ goals → m !! Goal.id g = Some (linked goals l1 g)) →
    (fold_left buildGoalTree_link l2 (m, roots)).2
    = Goal.id <$> filter (λ g, truthy (Goal.parentId g) = false) goals
    ∧ (∀ k, k ∉ Goal.id <$> goals →
            (fold_left buildGoalTree_link l2 (m, roots)).1 !! k = None)
    ∧ (∀ g, g ∈ goals →
            (fold_left buildGoalTree_link l2 (m, roots)).1 !! Goal.id g
            = Some (linked goals goals g)).
Proof.
  induction l2 as [|x l2 IH]; intros l1 m roots Hgoals Hroots Hnone Hsome.
  { rewrite app_nil_r in Hgoals. by subst l1. }
  assert (x ∈ goals) as Hx.
  { rewrite Hgoals. apply elem_of_app. right. by left. }
  assert (Goal.id x ∉ Goal.id <$> l1) as Hfresh.
  { pose proof Hnd as Hnd'. rewrite Hgoals, fmap_app, fmap_cons in Hnd'.
    apply NoDup_app in Hnd' as (_ & Hdisj & _). intros Hin.
    apply (Hdisj _ Hin). by left. }
  change (fold_left buildGoalTree_link (x :: l2) (m, roots))
    with (fold_left buildGoalTree_link l2 (buildGoalTree_link (m, roots) x)).
  destruct (buildGoalTree_link (m, roots) x) as [m' roots'] eqn:E.
  apply (IH (l1 ++ [x])); [by rewrite <-app_assoc|..];
    unfold buildGoalTree_link in E;
    destruct (truthy (Goal.parentId x)) eqn:Ht.
  - (* the roots, [x] has a parent *)
    rewrite filter_app, filter_cons, filter_nil.
    rewrite decide_False by (by rewrite Ht). rewrite app_nil_r.
    destruct (m !! default "" (Goal.parentId x)); by injection E as <- <-.
  - injection E as <- <-.
    rewrite filter_app, filter_cons, filter_nil, decide_True by done.
    by rewrite fmap_app, Hroots.
  - (* the keys outside *)
    intros k Hk.
    destruct (m !! default "" (Goal.parentId x)) as [parent|] eqn:Hp;
      injection E as <- <-; [|by apply Hnone].
    assert (k ≠ Goal.id x) as Hkx.
    { intros ->. apply Hk, list_elem_of_fmap. by exists x. }
    assert (k ≠ default "" (Goal.parentId x)) as Hkp.
    { intros ->. by rewrite (Hnone _ Hk) in Hp. }
    by rewrite lookup_alter_ne, lookup_insert_ne, Hnone.
  - intros k Hk. injection E as <- <-. by apply Hnone.
  - (* the nodes, [x] has a parent *)
    intros g Hg. rewrite (linked_snoc l1 x g Hfresh).
    destruct (Goal.parentId x) as [p|] eqn:Hpx; [|done]. simpl in E.
    assert (∀ k, child_of k x ↔ p = k) as Hchild.
    { intros k. unfold child_of. rewrite Hpx, Ht. split.
      - by intros [_ [= ->]].
      - by intros ->. }
    destruct (m !! p) as [parent|] eqn:Hp; injection E as <- <-.
    + assert (p ∈ Goal.id <$> goals) as Hpin.
      { destruct (decide (p ∈ Goal.id <$> goals)) as [|Hn]; [done|].
        by rewrite (Hnone _ Hn) in Hp. }
      destruct (decide (Goal.id g = Goal.id x)) as [Heq|Hne].
      * pose proof (goal_of_id g x Hg Hx Heq) as ->.
        rewrite lookup_alter_eq.
        rewrite (bool_decide_eq_true_2 (Goal.id x = Goal.id x)) by done.
        rewrite Hpx, Ht. simpl default.
        rewrite (bool_decide_eq_true_2 _ Hpin). simpl andb. cbv iota.
        destruct (decide (p = Goal.id x)) as [->|Hpne].
        -- rewrite lookup_insert_eq. simpl.
           rewrite decide_True by (by apply Hchild).
           rewrite (Hsome x Hx) in Hp. by injection Hp as <-.
        -- rewrite lookup_insert_ne by done. rewrite (Hsome x Hx). simpl.
           rewrite decide_False by (by rewrite Hchild).
           by rewrite app_nil_r.
      * rewrite lookup_alter_ne by done.
        rewrite (bool_decide_eq_false_2 (Goal.id g = Goal.id x)) by done.
        simpl andb. cbv iota.
        destruct (decide (p = Goal.id g)) as [->|Hpne].
        -- rewrite lookup_insert_eq.
           rewrite decide_True by (by apply Hchild).
           rewrite (Hsome g Hg) in Hp. by injection Hp as <-.
        -- rewrite lookup_insert_ne by done. rewrite (Hsome g Hg).
           rewrite decide_False by (by rewrite Hchild).
           by rewrite app_nil_r.
    + assert (p ∉ Goal.id <$> goals) as Hpout.
      { intros Hin. apply list_elem_of_fmap in Hin as (gp & -> & Hgp).
        by rewrite (Hsome gp Hgp) in Hp. }
      rewrite (Hsome g Hg).
      rewrite decide_False.
      2:{ rewrite Hchild. intros ->. apply Hpout, list_elem_of_fmap.
          by exists g. }
      rewrite app_nil_r.
      destruct (decide (Goal.id g = Goal.id x)) as [Heq|Hne].
      * pose proof (goal_of_id g x Hg Hx Heq) as ->.
        rewrite Hpx. simpl default.
        rewrite (bool_decide_eq_false_2 _ Hpout), andb_false_r. done.
      * by rewrite (bool_decide_eq_false_2 (Goal.id g = Goal.id x)).
  - (* the nodes, [x] has no parent *)
    intros g Hg. injection E as <- <-. rewrite (linked_snoc l1 x g Hfresh).
    rewrite (Hsome g Hg).
    rewrite decide_False by (unfold child_of; rewrite Ht; by intros [? _]).
    rewrite app_nil_r.
    destruct (decide (Goal.id g = Goal.id x)) as [Heq|Hne].
    + pose proof (goal_of_id g x Hg Hx Heq) as ->.
      by rewrite Ht, andb_false_r.
    + by rewrite (bool_decide_eq_false_2 (Goal.id g = Goal.id x)).
Qed.

Lemma buildGoalTree_linked :
  (buildGoalTree goals).2
  = Goal.id <$> filter (λ g, truthy (Goal.parentId g) = false) goals
  ∧ (∀ k, k ∉ Goal.id <$> goals → (buildGoalTree goals).1 !! k = None)
  ∧ (∀ g, g ∈ goals →
          (buildGoalTree goals).1 !! Goal.id g = Some (linked goals goals g)).
Proof.
  apply (buildGoalTree_links goals []); [done|done|..].
  - intros k Hk. unfold buildGoalTree_nodes.
    by rewrite buildGoalTree_nodes_other.
  - intros g Hg. unfold buildGoalTree_nodes.
    by rewrite buildGoalTree_nodes_lookup.
Qed.
End buildGoalTree.

Lemma getGoals_ids db k :
  k ∈ Goal.id <$> getGoals db no_filters ↔ is_Some (goals db !! k).
Proof.
  rewrite list_elem_of_fmap. split.
  - intros (g & -> & Hg). apply getGoals_all_elem in Hg.
    unfold getGoal in Hg. destruct (goals db !! Goal.id g); [by eexists|done].
  - intros [r Hr]. exists (transformGoal (k, r)). split; [done|].
    apply getGoals_all_elem. unfold getGoal. simpl. by rewrite Hr.
Qed.

(** X22.  [getGoalTree] builds one node for every stored goal and no other.
    The roots are the goals without parent (or with an empty one), in the
    order of [getGoals]; the children of a node are the goals that name it
    as their parent, in that order; the parent of a node is set when the
    goal names a parent that is stored.  A goal that names a parent that is
    not stored is a node, but is neither a root nor the child of a node. *)
Theorem getGoalTree_spec db :
  (getGoalTree db).2
  = Goal.id <$>
      filter (λ g, truthy (Goal.parentId g) = false) (getGoals db no_filters)
  ∧ (∀ k, goals db !! k = None → (getGoalTree db).1 !! k = None)
  ∧ (∀ g, getGoal db (Goal.id g) = Ok g →
          ∃ node,
            (getGoalTree db).1 !! Goal.id g = Some node
            ∧ tn_goal node = g
            ∧ tn_children node
              = Goal.id <$>
                  filter (child_of (Goal.id g)) (getGoals db no_filters)
            ∧ tn_parent node
              = if truthy (Goal.parentId g)
                   && bool_decide
                        (is_Some (goals db !! default "" (Goal.parentId g)))
                then Goal.parentId g
                else None).
Proof.
  destruct (buildGoalTree_linked (getGoals db no_filters)
              (getGoals_NoDup db no_filters)) as (H1 & H2 & H3).
  split; [exact H1|]. split.
  - intros k Hk. apply H2. rewrite getGoals_ids, Hk. by intros [? ?].
  - intros g Hg. apply getGoals_all_elem in Hg as Hin.
    exists (linked (getGoals db no_filters) (getGoals db no_filters) g).
    split; [by apply H3|]. split; [done|]. split; [done|].
    unfold linked. simpl.
    rewrite bool_decide_eq_true_2.
    2:{ apply list_elem_of_fmap. by exists g. }
    rewrite (bool_decide_ext _ _ (getGoals_ids db _)).
    destruct (Goal.parentId g) as [p|]; [|done]. simpl default.
    done.
Qed.

(** ** [calculateStreakDays] *)

Lemma calculateStreakDays_loop_spec goals events today rounds :
  ∀ i streak,
    streak ≤ calculateStreakDays_loop rounds goals events today i streak
             ≤ streak + Z.of_nat rounds
    ∧ (∀ j, 0 ≤ j < calculateStreakDays_loop rounds goals events today i streak
                    - streak →
            dayHasActivity goals events (subDays today (i + j)) = true)
    ∧ (calculateStreakDays_loop rounds goals events today i streak
       < streak + Z.of_nat rounds →
       dayHasActivity goals events
         (subDays today
            (i + (calculateStreakDays_loop rounds goals events today i streak
                  - streak)))
       = false).
Proof.
  induction rounds as [|rounds IH]; intros i streak.
  { simpl. split; [lia|]. split; [intros j ?|]; lia. }
  simpl calculateStreakDays_loop.
  destruct (dayHasActivity goals events (subDays today i)) eqn:Hi.
  - destruct (IH (i + 1) (streak + 1)) as (Hr & Hall & Hstop).
    split; [lia|]. split.
    + intros j Hj. destruct (decide (j = 0)) as [->|Hne].
      * by rewrite Z.add_0_r.
      * replace (i + j) with (i + 1 + (j - 1)) by lia. apply Hall. lia.
    + intros Hlt.
      replace (i + (calculateStreakDays_loop rounds goals events today (i + 1)
                      (streak + 1) - streak))
        with (i + 1 + (calculateStreakDays_loop rounds goals events today
                         (i + 1) (streak + 1) - (streak + 1))) by lia.
      apply Hstop. lia.
  - split; [lia|]. split; [intros j ?; lia|].
    intros _. by rewrite Z.sub_diag, Z.add_0_r.
Qed.

Lemma day_of_subDays date amount :
  day_of (subDays date amount) = day_of date - amount.
Proof.
  unfold day_of, subDays, ms_per_day.
  replace (date - amount * 86400000) with (date + - amount * 86400000) by lia.
  rewrite Z.div_add by done. lia.
Qed.

Lemma dayHasActivity_true goals events checkDate :
  dayHasActivity goals events checkDate = true
  ↔ has_activity goals events (day_of checkDate).
Proof.
  unfold dayHasActivity, has_activity.
  rewrite orb_true_iff, !existsb_exists.
  setoid_rewrite Z.eqb_eq. by setoid_rewrite list_elem_of_In.
Qed.

(** X23.  The streak is the number of consecutive days with activity (a
    goal updated or an event starting on that day), counted backwards from
    today and capped at 30: it lies between 0 and 30, each of that many days
    back from today has activity, and below 30 the next day back has
    none. *)
Theorem calculateStreakDays_spec goals events now :
  0 ≤ calculateStreakDays goals events now ≤ 30
  ∧ (∀ j, 0 ≤ j < calculateStreakDays goals events now →
          has_activity goals events (day_of now - j))
  ∧ (calculateStreakDays goals events now < 30 →
     ¬ has_activity goals events
         (day_of now - calculateStreakDays goals events now)).
Proof.
  unfold calculateStreakDays.
  destruct (calculateStreakDays_loop_spec goals events now 30 0 0)
    as (Hr & Hall & Hstop).
  split; [lia|]. split.
  - intros j Hj. rewrite <-day_of_subDays. apply dayHasActivity_true.
    apply (Hall j). lia.
  - intros Hlt. rewrite <-day_of_subDays, <-dayHasActivity_true.
    rewrite Z.sub_0_r, !Z.add_0_l in Hstop. rewrite Hstop; [done|lia].
Qed.

(** ** Subtrees *)

Lemma elem_of_descendants db a k :
  k ∈ descendants db a ↔ a ∈ ancestors db k.
Proof.
  unfold descendants. rewrite elem_of_dom. unfold is_Some.
  setoid_rewrite map_lookup_filter_Some. simpl. split.
  - by intros (x & _ & H).
  - intros H. destruct (ancestors_nonempty _ _ _ H) as [x Hx]. by exists x.
Qed.

Lemma ancestors_head db k p :
  parent_of db k = Some p → p ∈ ancestors db k.
Proof. intros H. unfold ancestors. simpl. rewrite H. by left. Qed.

Lemma ancestor_level db a k ra rk :
  goals_consistent db → a ∈ ancestors db k →
  goals db !! a = Some ra → goals db !! k = Some rk →
  GoalRow.level ra < GoalRow.level rk.
Proof.
  intros Hc Ha Hra Hrk.
  pose proof (ancestors_upto_levels 4 db k rk Hc Hrk) as Hall.
  rewrite Forall_forall in Hall. destruct (Hall a Ha) as (ra' & Hra' & Hlt).
  rewrite Hra in Hra'. by injection Hra' as <-.
Qed.

Lemma ancestor_exists db a k :
  goals_consistent db → a ∈ ancestors db k → is_Some (goals db !! a).
Proof.
  intros Hc Ha. destruct (ancestors_nonempty _ _ _ Ha) as [rk Hrk].
  pose proof (ancestors_upto_levels 4 db k rk Hc Hrk) as Hall.
  rewrite Forall_forall in Hall. destruct (Hall a Ha) as (ra & Hra & _).
  by exists ra.
Qed.

Lemma ancestors_upto_level_unique db n :
  goals_consistent db →
  ∀ k rk a b ra rb,
    goals db !! k = Some rk →
    a ∈ ancestors_upto n db k → b ∈ ancestors_upto n db k →
    goals db !! a = Some ra → goals db !! b = Some rb →
    GoalRow.level ra = GoalRow.level rb → a = b.
Proof.
  intros Hc. induction n as [|n IH]; intros k rk a b ra rb Hk Ha Hb Hra Hrb Hl.
  { by apply elem_of_nil in Ha. }
  simpl in Ha, Hb. destruct (parent_of db k) as [p|] eqn:Hp;
    [|by apply elem_of_nil in Ha].
  destruct (parent_of_Some _ _ _ _ Hk Hp) as [Hpid _].
  destruct (consistent_parent _ _ _ _ Hc Hk Hpid) as (rp & Hrp & _).
  pose proof (ancestors_upto_levels n db p rp Hc Hrp) as Hall.
  rewrite Forall_forall in Hall.
  apply elem_of_cons in Ha as [->|Ha], Hb as [->|Hb].
  - done.
  - destruct (Hall b Hb) as (rb' & Hrb' & Hlt).
    rewrite Hrb in Hrb'. injection Hrb' as <-.
    rewrite Hrp in Hra. injection Hra as <-. lia.
  - destruct (Hall a Ha) as (ra' & Hra' & Hlt).
    rewrite Hra in Hra'. injection Hra' as <-.
    rewrite Hrp in Hrb. injection Hrb as <-. lia.
  - by apply (IH p rp a b ra rb).
Qed.

(** The descendants of a goal are its children and their descendants. *)
Lemma descendants_children db a k :
  goals_consistent db →
  k ∈ descendants db a
  ↔ parent_of db k = Some a
    ∨ ∃ c, parent_of db c = Some a ∧ k ∈ descendants db c.
Proof.
  intros Hc. rewrite elem_of_descendants.
  setoid_rewrite elem_of_descendants. split.
  - intros H. unfold ancestors in H.
    apply (ancestors_upto_snoc 3) in H as [H|(b & Hb & Hp)]; [by left|].
    right. exists b. split; [done|]. by apply ancestors_upto_mono.
  - intros [H|(c & Hp & H)]; [by apply ancestors_head|].
    by eapply ancestors_closed.
Qed.

Lemma siblings_disjoint db a c c' :
  goals_consistent db →
  parent_of db c = Some a → parent_of db c' = Some a → c ≠ c' →
  (c' ∉ descendants db c)
  ∧ (∀ k, k ∈ descendants db c → k ∉ descendants db c').
Proof.
  intros Hc Hp Hp' Hne.
  assert (is_Some (goals db !! c)) as [rc Hrc].
  { unfold parent_of in Hp. destruct (goals db !! c); [by eexists|done]. }
  assert (is_Some (goals db !! c')) as [rc' Hrc'].
  { unfold parent_of in Hp'. destruct (goals db !! c'); [by eexists|done]. }
  destruct (parent_of_Some _ _ _ _ Hrc Hp) as [Hpid _].
  destruct (parent_of_Some _ _ _ _ Hrc' Hp') as [Hpid' _].
  destruct (consistent_parent _ _ _ _ Hc Hrc Hpid) as (ra & Hra & Hl).
  destruct (consistent_parent _ _ _ _ Hc Hrc' Hpid') as (ra' & Hra' & Hl').
  rewrite Hra in Hra'. injection Hra' as <-.
  split.
  - rewrite elem_of_descendants. intros H.
    pose proof (ancestor_level _ _ _ _ _ Hc H Hrc Hrc'). lia.
  - intros k. rewrite !elem_of_descendants. intros H H'.
    destruct (ancestors_nonempty _ _ _ H) as [rk Hrk].
    apply Hne.
    apply (ancestors_upto_level_unique db 4 Hc k rk c c' rc rc'); try done.
    lia.
Qed.

(** ** Shifting the levels of a subtree *)

Lemma matches_parent_filter a r :
  matches_filters (mkGoalFilters None None None (Some (Some a))) r = true
  ↔ GoalRow.parent_id r = Some a.
Proof. unfold matches_filters. simpl. apply bool_decide_eq_true. Qed.

Lemma relevel_accepted db cur k r a La delta now :
  row_accepted db k r = true →
  GoalRow.parent_id r = Some a →
  categories cur = categories db →
  GoalRow.level <$> goals cur !! a = Some La →
  GoalRow.level r + delta = La + 1 → 0 ≤ La → La + 1 ≤ 4 →
  row_accepted cur k (relevel delta now r) = true.
Proof.
  intros Hacc Hp Hcat Hla Heq H0 H4.
  destruct (row_accepted_inv _ _ _ Hacc) as (_ & Hch & Hfk).
  apply goals_checks_Ok in Hch as (Ht & _ & Hpr & Hd & Hself).
  apply goals_foreign_keys_Ok in Hfk as [Hpar Hcat'].
  rewrite Hp in Hpar. apply andb_true_iff in Hpar as [Hne _].
  apply row_accepted_intro.
  - unfold validate_goal_hierarchy. simpl. rewrite Hp, Hla. simpl.
    by rewrite Heq, Z.eqb_refl.
  - apply goals_checks_Ok. simpl. split; [done|]. split; [|done].
    apply andb_true_iff. rewrite !Z.leb_le. lia.
  - apply goals_foreign_keys_Ok. simpl. rewrite Hp, Hcat. split; [|done].
    rewrite Hne. simpl. apply bool_decide_eq_true_2.
    by rewrite <-(fmap_is_Some GoalRow.level), Hla.
Qed.

Lemma updateDescendantLevels_rec_unfold depth db goalId parentLevel now :
  updateDescendantLevels_rec depth db goalId parentLevel now
  = fold_left
      (λ db child,
         let newLevel := parentLevel + 1 in
         if newLevel <=? 4 then
           let db' :=
             match
               goals_update db (Goal.id child)
                 (mkGoalPatch None None None (Some newLevel) None None None None
                    None None)
                 now
             with
             | Ok (db', _) => db'
             | Err _ => db
             end in
           match depth with
           | O => db'
           | S depth' =>
               updateDescendantLevels_rec depth' db' (Goal.id child) newLevel now
           end
         else db)
      (getGoalChildren db goalId) db.
Proof. by destruct depth. Qed.

Section move.
Context (db : Database) (goalId : string) (old NEW : GoalRow.t).
Context (delta now : Z).
Context (Hc : goals_consistent db).
Context (Hold : goals db !! goalId = Some old).
Context (Hdelta : GoalRow.level NEW = GoalRow.level old + delta).
Context (HNEW : 1 ≤ GoalRow.level NEW).
Context (Hpar : ∀ p, GoalRow.parent_id NEW = Some p →
                     p ≠ goalId ∧ goalId ∉ ancestors db p).
Context (Hfits : ∀ k r, goalId ∈ ancestors db k → goals db !! k = Some r →
                        GoalRow.level r + delta ≤ 4).

Lemma moving_level sh cur a ra :
  moving db goalId NEW delta now sh cur →
  a = goalId ∨ a ∈ sh → goals db !! a = Some ra →
  GoalRow.level <$> goals cur !! a = Some (GoalRow.level ra + delta).
Proof.
  intros [_ Hcur] Ha Hra. rewrite Hcur, Hra. simpl.
  destruct (decide (a = goalId)) as [->|Hne].
  - rewrite Hold in Hra. injection Hra as <-. by rewrite Hdelta.
  - destruct Ha as [|Ha]; [done|]. by rewrite decide_True.
Qed.

Lemma inside_not_parent a :
  a = goalId ∨ goalId ∈ ancestors db a → GoalRow.parent_id NEW ≠ Some a.
Proof. intros Ha Hp. destruct (Hpar _ Hp) as [Hne Hnot]. by destruct Ha. Qed.

Lemma inside_acyclic a :
  a = goalId ∨ goalId ∈ ancestors db a → parent_of db goalId ≠ Some a.
Proof.
  intros Ha Hp. destruct (parent_of_Some _ _ _ _ Hold Hp) as [Hpid _].
  destruct Ha as [->|Ha].
  - by apply (accepted_not_self db goalId old (Hc _ _ Hold)).
  - destruct (consistent_parent _ _ _ _ Hc Hold Hpid) as (ra & Hra & Hl).
    pose proof (ancestor_level _ _ _ _ _ Hc Ha Hold Hra). lia.
Qed.

Lemma inside_level a ra :
  a = goalId ∨ goalId ∈ ancestors db a → goals db !! a = Some ra →
  1 ≤ GoalRow.level ra + delta.
Proof.
  intros [->|Ha] Hra.
  - rewrite Hold in Hra. injection Hra as <-. lia.
  - pose proof (ancestor_level _ _ _ _ _ Hc Ha Hold Hra). lia.
Qed.

Lemma inside_child a c rc :
  a = goalId ∨ goalId ∈ ancestors db a →
  goals db !! c = Some rc → parent_of db c = Some a →
  goalId ∈ ancestors db c ∧ c ≠ goalId.
Proof.
  intros Ha Hrc Hp. destruct (parent_of_Some _ _ _ _ Hrc Hp) as [Hpid _].
  split.
  - apply (ancestors_of_parent db c rc a Hc Hrc Hpid).
    destruct Ha as [->|Ha]; [by left|by right].
  - intros ->. by apply inside_acyclic in Hp.
Qed.

Lemma moving_children sh cur a c :
  moving db goalId NEW delta now sh cur →
  a = goalId ∨ goalId ∈ ancestors db a →
  (∀ k, k ∈ descendants db a → k ∉ sh) →
  c ∈ getGoalChildren cur a
  ↔ ∃ rc, goals db !! Goal.id c = Some rc
          ∧ parent_of db (Goal.id c) = Some a
          ∧ c = transformGoal (Goal.id c, rc).
Proof.
  intros [_ Hcur] Ha HS. unfold getGoalChildren. rewrite getGoals_elem.
  setoid_rewrite matches_parent_filter. split.
  - intros (r & Hr & Heq & Hp). rewrite Hcur in Hr.
    destruct (goals db !! Goal.id c) as [rc|] eqn:Hrc; [|done].
    simpl in Hr. injection Hr as Hr.
    destruct (decide (Goal.id c = goalId)) as [Hid|Hid].
    { subst r. by apply inside_not_parent in Hp. }
    assert (GoalRow.parent_id rc = Some a) as Hp'.
    { destruct (decide (Goal.id c ∈ sh)); by subst r. }
    pose proof (consistent_truthy _ _ _ _ Hc Hrc Hp') as Hpo.
    exists rc. split; [done|]. split; [done|].
    rewrite decide_False in Hr; [by subst r|].
    apply HS, elem_of_descendants. by apply ancestors_head.
  - intros (rc & Hrc & Hpo & Heq).
    destruct (parent_of_Some _ _ _ _ Hrc Hpo) as [Hp _].
    destruct (inside_child a _ rc Ha Hrc Hpo) as [_ Hid].
    exists rc. rewrite Hcur, Hrc. simpl. rewrite decide_False by done.
    rewrite decide_False; [done|].
    apply HS, elem_of_descendants. by apply ancestors_head.
Qed.

Lemma moving_update sh cur a ra c rc :
  moving db goalId NEW delta now sh cur →
  a = goalId ∨ goalId ∈ ancestors db a →
  a = goalId ∨ a ∈ sh →
  goals db !! a = Some ra →
  goals db !! c = Some rc → parent_of db c = Some a → c ∉ sh →
  goals_update cur c
    (mkGoalPatch None None None (Some (GoalRow.level ra + delta + 1)) None None
       None None None None) now
  = Ok (rewrite_goal cur c (relevel delta now rc), relevel delta now rc)
  ∧ moving db goalId NEW delta now (sh ∪ {[c]})
      (rewrite_goal cur c (relevel delta now rc))
  ∧ GoalRow.level ra + delta + 1 ≤ 4
  ∧ GoalRow.level rc = GoalRow.level ra + 1.
Proof.
  intros Hm Ha HaS Hra Hrc Hp HcS.
  destruct (parent_of_Some _ _ _ _ Hrc Hp) as [Hpid _].
  destruct (consistent_parent _ _ _ _ Hc Hrc Hpid) as (ra' & Hra' & Hl).
  rewrite Hra in Hra'. injection Hra' as <-.
  destruct (inside_child a c rc Ha Hrc Hp) as [Hin Hne].
  pose proof (Hfits c rc Hin Hrc) as Hfit.
  pose proof (inside_level a ra Ha Hra) as Hlow.
  pose proof (moving_level sh cur a ra Hm HaS Hra) as Hla.
  destruct Hm as [Hcat Hcur].
  assert (goals cur !! c = Some rc) as Hcurc.
  { rewrite Hcur, Hrc. simpl. by rewrite !decide_False. }
  assert (row_accepted cur c (relevel delta now rc) = true) as Hacc.
  { apply (relevel_accepted db cur c rc a (GoalRow.level ra + delta));
      try done; try lia. by apply Hc. }
  split; [|split; [|split; [lia|done]]].
  - replace (GoalRow.level ra + delta + 1) with (GoalRow.level rc + delta)
      by lia.
    by apply goals_update_Ok_intro.
  - split; [done|]. intros k. simpl.
    destruct (decide (c = k)) as [<-|Hck].
    + rewrite lookup_insert_eq, Hrc. simpl. rewrite decide_False by done.
      rewrite decide_True; [done|]. apply elem_of_union. right.
      by apply elem_of_singleton.
    + rewrite lookup_insert_ne by done. rewrite Hcur.
      destruct (goals db !! k) as [rk|]; [|done]. simpl.
      destruct (decide (k = goalId)); [done|].
      destruct (decide (k ∈ sh)) as [HkS|HkS].
      * rewrite decide_True; [done|]. apply elem_of_union. by left.
      * rewrite decide_False; [done|].
        rewrite elem_of_union, elem_of_singleton. intros [?|?]; by subst.
Qed.
Lemma updateDescendantLevels_fold depth a ra :
  (∀ depth', depth = S depth' →
     ∀ sh cur c rc,
       moving db goalId NEW delta now sh cur →
       c = goalId ∨ goalId ∈ ancestors db c →
       c = goalId ∨ c ∈ sh →
       goals db !! c = Some rc →
       depth' = Z.to_nat (4 - (GoalRow.level rc + delta)) →
       (∀ k, k ∈ descendants db c → k ∉ sh) →
       moving db goalId NEW delta now (sh ∪ descendants db c)
         (updateDescendantLevels_rec depth' cur c (GoalRow.level rc + delta)
            now)) →
  a = goalId ∨ goalId ∈ ancestors db a →
  goals db !! a = Some ra →
  depth = Z.to_nat (4 - (GoalRow.level ra + delta)) →
  ∀ cs sh cur,
    NoDup (Goal.id <$> cs) →
    (∀ c, c ∈ cs →
          ∃ rc, goals db !! Goal.id c = Some rc
                ∧ parent_of db (Goal.id c) = Some a) →
    moving db goalId NEW delta now sh cur →
    a = goalId ∨ a ∈ sh →
    (∀ c, c ∈ cs →
          (Goal.id c ∉ sh)
          ∧ (∀ k, k ∈ descendants db (Goal.id c) → k ∉ sh)) →
    moving db goalId NEW delta now
      (sh ∪ ⋃ ((λ c, {[Goal.id c]} ∪ descendants db (Goal.id c)) <$> cs))
      (fold_left
         (λ db child,
            let newLevel := GoalRow.level ra + delta + 1 in
            if newLevel <=? 4 then
              let db' :=
                match
                  goals_update db (Goal.id child)
                    (mkGoalPatch None None None (Some newLevel) None None None
                       None None None)
                    now
                with
                | Ok (db', _) => db'
                | Err _ => db
                end in
              match depth with
              | O => db'
              | S depth' =>
                  updateDescendantLevels_rec depth' db' (Goal.id child)
                    newLevel now
              end
            else db)
         cs cur).
Proof.
  intros Hrec Ha Hra Hdepth.
  induction cs as [|c cs IHcs]; intros sh cur Hnd Hch Hm HaS Hdisj.
  { simpl. by rewrite (right_id_L ∅ (∪)). }
  rewrite fmap_cons in Hnd. apply NoDup_cons in Hnd as [Hcnot Hnd].
  destruct (Hch c) as (rc & Hrc & Hp); [by left|].
  destruct (Hdisj c) as [HcS HdS]; [by left|].
  destruct (moving_update sh cur a ra (Goal.id c) rc Hm Ha HaS Hra Hrc Hp HcS)
    as (Hup & Hm1 & Hle & Hl).
  destruct (inside_child a (Goal.id c) rc Ha Hrc Hp) as [Hin _].
  assert (sh ∪ ⋃ ((λ c, {[Goal.id c]} ∪ descendants db (Goal.id c))
                   <$> c :: cs)
          = (sh ∪ {[Goal.id c]} ∪ descendants db (Goal.id c))
            ∪ ⋃ ((λ c, {[Goal.id c]} ∪ descendants db (Goal.id c)) <$> cs))
    as ->.
  { rewrite fmap_cons. simpl. by rewrite !(assoc_L (∪)). }
  destruct depth as [|depth']; [lia|].
  match goal with
  | |- context [fold_left ?f (c :: cs) cur] => set (STEP := f)
  end.
  change (fold_left STEP (c :: cs) cur) with (fold_left STEP cs (STEP cur c)).
  assert (STEP cur c
          = updateDescendantLevels_rec depth'
              (rewrite_goal cur (Goal.id c) (relevel delta now rc))
              (Goal.id c) (GoalRow.level ra + delta + 1) now) as ->.
  { unfold STEP. cbv beta zeta.
    by rewrite (proj2 (Z.leb_le _ _) Hle), Hup. }
  apply IHcs; [done|..].
  - intros c' Hc'. apply Hch. by right.
  - replace (GoalRow.level ra + delta + 1) with (GoalRow.level rc + delta)
      by lia.
    apply (Hrec depth' eq_refl); [done|by right| |done|lia|].
    + right. apply elem_of_union. right. by apply elem_of_singleton.
    + intros k Hk. rewrite elem_of_union, elem_of_singleton.
      intros [HkS| ->]; [by apply (HdS k)|].
      apply elem_of_descendants in Hk.
      pose proof (ancestor_level _ _ _ _ _ Hc Hk Hrc Hrc). lia.
  - destruct HaS as [|HaS]; [by left|]. right.
    apply elem_of_union. left. apply elem_of_union. by left.
  - intros c' Hc'.
    destruct (Hch c') as (rc' & Hrc' & Hp'); [by right|].
    destruct (Hdisj c') as [Hc'S Hd'S]; [by right|].
    assert (Goal.id c ≠ Goal.id c') as Hne.
    { intros Heq. apply Hcnot. rewrite Heq. apply list_elem_of_fmap.
      by exists c'. }
    destruct (siblings_disjoint db a _ _ Hc Hp Hp' Hne) as [H1 H2].
    destruct (siblings_disjoint db a _ _ Hc Hp' Hp (not_eq_sym Hne))
      as [H3 H4].
    split.
    + rewrite !elem_of_union, elem_of_singleton.
      intros [[?|?]|?]; [done|by apply Hne|done].
    + intros k Hk. rewrite !elem_of_union, elem_of_singleton.
      intros [[?|?]|?]; [by apply (Hd'S k)|by subst k|by apply (H4 k)].
Qed.

Lemma updateDescendantLevels_rec_step depth :
  (∀ depth', depth = S depth' →
     ∀ sh cur c rc,
       moving db goalId NEW delta now sh cur →
       c = goalId ∨ goalId ∈ ancestors db c →
       c = goalId ∨ c ∈ sh →
       goals db !! c = Some rc →
       depth' = Z.to_nat (4 - (GoalRow.level rc + delta)) →
       (∀ k, k ∈ descendants db c → k ∉ sh) →
       moving db goalId NEW delta now (sh ∪ descendants db c)
         (updateDescendantLevels_rec depth' cur c (GoalRow.level rc + delta)
            now)) →
  ∀ sh cur a ra,
    moving db goalId NEW delta now sh cur →
    a = goalId ∨ goalId ∈ ancestors db a →
    a = goalId ∨ a ∈ sh →
    goals db !! a = Some ra →
    depth = Z.to_nat (4 - (GoalRow.level ra + delta)) →
    (∀ k, k ∈ descendants db a → k ∉ sh) →
    moving db goalId NEW delta now (sh ∪ descendants db a)
      (updateDescendantLevels_rec depth cur a (GoalRow.level ra + delta) now).
Proof.
  intros Hrec sh cur a ra Hm Ha HaS Hra Hdepth HS.
  rewrite updateDescendantLevels_rec_unfold.
  assert (∀ c, c ∈ getGoalChildren cur a →
               ∃ rc, goals db !! Goal.id c = Some rc
                     ∧ parent_of db (Goal.id c) = Some a) as Hch.
  { intros c Hin.
    apply (moving_children sh cur a _ Hm Ha HS) in Hin as (rc & Hrc & Hp & _).
    by exists rc. }
  assert (∀ c rc, goals db !! c = Some rc → parent_of db c = Some a →
                  transformGoal (c, rc) ∈ getGoalChildren cur a) as Hch'.
  { intros c rc Hrc Hp. apply (moving_children sh cur a _ Hm Ha HS).
    by exists rc. }
  assert (descendants db a
          = ⋃ ((λ c, {[Goal.id c]} ∪ descendants db (Goal.id c))
                 <$> getGoalChildren cur a)) as ->.
  { apply set_eq. intros k.
    rewrite (descendants_children db a k Hc), elem_of_union_list. split.
    - intros [Hp|(c0 & Hp & Hk)].
      + assert (is_Some (goals db !! k)) as [rk Hrk].
        { unfold parent_of in Hp. destruct (goals db !! k); [by eexists|done]. }
        exists ({[k]} ∪ descendants db k). split.
        * apply list_elem_of_fmap. exists (transformGoal (k, rk)).
          split; [done|]. by apply Hch'.
        * apply elem_of_union. left. by apply elem_of_singleton.
      + assert (is_Some (goals db !! c0)) as [rc0 Hrc0].
        { unfold parent_of in Hp. destruct (goals db !! c0); [by eexists|done]. }
        exists ({[c0]} ∪ descendants db c0). split.
        * apply list_elem_of_fmap. exists (transformGoal (c0, rc0)).
          split; [done|]. by apply Hch'.
        * apply elem_of_union. by right.
    - intros (X & HX & Hk).
      apply list_elem_of_fmap in HX as (c & -> & Hin).
      destruct (Hch c Hin) as (rc & Hrc & Hp).
      apply elem_of_union in Hk as [Hk|Hk].
      + apply elem_of_singleton in Hk. subst k. by left.
      + right. by exists (Goal.id c). }
  apply (updateDescendantLevels_fold depth a ra); try done.
  - apply getGoals_NoDup.
  - intros c Hin. destruct (Hch c Hin) as (rc & Hrc & Hp). split.
    + apply HS, (descendants_children db a _ Hc). by left.
    + intros k Hk. apply HS, (descendants_children db a _ Hc). right.
      by exists (Goal.id c).
Qed.

Lemma updateDescendantLevels_rec_moving depth :
  ∀ sh cur a ra,
    moving db goalId NEW delta now sh cur →
    a = goalId ∨ goalId ∈ ancestors db a →
    a = goalId ∨ a ∈ sh →
    goals db !! a = Some ra →
    depth = Z.to_nat (4 - (GoalRow.level ra + delta)) →
    (∀ k, k ∈ descendants db a → k ∉ sh) →
    moving db goalId NEW delta now (sh ∪ descendants db a)
      (updateDescendantLevels_rec depth cur a (GoalRow.level ra + delta) now).
Proof.
  induction depth as [|depth IH]; apply updateDescendantLevels_rec_step.
  - by intros depth' [=].
  - by intros depth' [= <-].
Qed.
End move.

Lemma descendant_parent db goalId k :
  goalId ∈ ancestors db k →
  ∃ a rk, goals db !! k = Some rk
          ∧ GoalRow.parent_id rk = Some a
          ∧ (a = goalId ∨ goalId ∈ ancestors db a).
Proof.
  intros H. destruct (ancestors_nonempty _ _ _ H) as [rk Hrk].
  unfold ancestors in H. simpl in H.
  destruct (parent_of db k) as [a|] eqn:Hp; [|by apply elem_of_nil in H].
  destruct (parent_of_Some _ _ _ _ Hrk Hp) as [Hpid _].
  exists a, rk. split; [done|]. split; [done|].
  apply elem_of_cons in H as [->|H]; [by left|right].
  by apply (ancestors_upto_mono 3).
Qed.

(** X24.  Moving a goal with its subtree.  In a table that satisfies the
    storage constraints, let [moveGoal] succeed for a goal whose new parent
    is not one of its descendants and whose descendants all stay within
    level 4 when shifted by the change of level of the goal.  Then the table
    satisfies the storage constraints again and the level invariant holds;
    the goal is read back as it was returned; every descendant keeps its
    parent and has its level shifted by the same amount as the goal; every
    other goal is untouched. *)
Theorem moveGoal_subtree db goalId newParentId now db' g old :
  goals_consistent db →
  goals db !! goalId = Some old →
  moveGoal db goalId newParentId now = Ok (db', g) →
  (∀ p, newParentId = Some p → goalId ∉ ancestors db p) →
  (∀ k r, goalId ∈ ancestors db k → goals db !! k = Some r →
          GoalRow.level r + (Goal.level g - GoalRow.level old) ≤ 4) →
  goals_consistent db'
  ∧ level_invariant (goals db')
  ∧ getGoal db' goalId = Ok g
  ∧ (∀ k, k ≠ goalId → goalId ∉ ancestors db k →
          goals db' !! k = goals db !! k)
  ∧ (∀ k r, goalId ∈ ancestors db k → goals db !! k = Some r →
            ∃ r', goals db' !! k = Some r'
                  ∧ GoalRow.level r'
                    = GoalRow.level r + (Goal.level g - GoalRow.level old)
                  ∧ GoalRow.parent_id r' = GoalRow.parent_id r).
Proof.
  intros Hc Hold H Hout Hfits. unfold moveGoal in H.
  apply bind_Ok_inv in H as (goal & _ & H).
  apply bind_Ok_inv in H as (newLevel & _ & H).
  apply bind_Ok_inv in H as ([] & _ & H).
  apply bind_Ok_inv in H as ([db1 data] & Hup & H).
  apply goals_update_Ok_inv in Hup as (OLD & Hold' & [= -> ->] & Hacc).
  rewrite Hold in Hold'. injection Hold' as <-.
  set (NEW := update_goal_updated_at now _) in *.
  injection H as <- <-.
  change (Goal.level (transformGoal (goalId, NEW))) with newLevel in *.
  set (delta := newLevel - GoalRow.level old) in *.
  assert (GoalRow.level NEW = GoalRow.level old + delta) as Hdelta.
  { subst NEW delta. simpl. lia. }
  assert (1 ≤ GoalRow.level NEW) as HNEW.
  { destruct (row_accepted_inv _ _ _ Hacc) as (_ & Hch & _).
    apply goals_checks_Ok in Hch as (_ & Hl & _).
    apply andb_true_iff in Hl as [Hl _]. by apply Z.leb_le in Hl. }
  assert (∀ p, GoalRow.parent_id NEW = Some p →
               p ≠ goalId ∧ goalId ∉ ancestors db p) as Hpar.
  { intros p Hp. split.
    - intros ->. by apply (accepted_not_self _ _ _ Hacc).
    - apply Hout. subst NEW. simpl in Hp.
      by destruct (truthy newParentId). }
  assert (moving db goalId NEW delta now ∅ (rewrite_goal db goalId NEW))
    as Hm0.
  { split; [done|]. intros k. simpl.
    destruct (decide (goalId = k)) as [<-|Hne].
    - rewrite lookup_insert_eq, Hold. simpl. by rewrite decide_True.
    - rewrite lookup_insert_ne by done.
      destruct (goals db !! k); [|done]. simpl.
      rewrite decide_False by done. by rewrite decide_False. }
  assert (moving db goalId NEW delta now (∅ ∪ descendants db goalId)
            (updateDescendantLevels (rewrite_goal db goalId NEW) goalId
               newLevel now)) as Hm.
  { unfold updateDescendantLevels.
    replace newLevel with (GoalRow.level old + delta) by (subst delta; lia).
    apply (updateDescendantLevels_rec_moving db goalId old NEW delta now
             Hc Hold Hdelta HNEW Hpar Hfits); try done; by left. }
  rewrite (left_id_L ∅ (∪)) in Hm. clear Hm0.
  set (db' := updateDescendantLevels _ _ _ _) in *.
  destruct Hm as [Hcat Hcur].
  assert (goalId ∉ descendants db goalId) as Hself.
  { rewrite elem_of_descendants. intros Hin.
    pose proof (ancestor_level _ _ _ _ _ Hc Hin Hold Hold). lia. }
  assert (∀ k, k ≠ goalId → goalId ∉ ancestors db k →
               goals db' !! k = goals db !! k) as Hframe.
  { intros k Hne Hnot. rewrite Hcur. destruct (goals db !! k); [|done].
    simpl. rewrite decide_False by done.
    rewrite decide_False; [done|]. by rewrite elem_of_descendants. }
  assert (∀ k r, goalId ∈ ancestors db k → goals db !! k = Some r →
                 goals db' !! k = Some (relevel delta now r)) as Hdesc.
  { intros k r Hin Hr. rewrite Hcur, Hr. simpl.
    rewrite decide_False by (intros ->; by apply Hself, elem_of_descendants).
    rewrite decide_True; [done|]. by apply elem_of_descendants. }
  assert (goals db' !! goalId = Some NEW) as Hnew.
  { rewrite Hcur, Hold. simpl. by rewrite decide_True. }
  assert (goals_consistent db') as Hc'.
  { intros k x Hk.
    destruct (decide (k = goalId)) as [->|Hne].
    { rewrite Hnew in Hk. injection Hk as <-.
      rewrite <-Hacc. apply row_accepted_ext; [done|].
      intros p Hp. destruct (Hpar p Hp) as [Hpne Hpout].
      by rewrite Hframe. }
    destruct (decide (goalId ∈ ancestors db k)) as [Hin|Hnot].
    - destruct (descendant_parent db goalId k Hin)
        as (a & rk & Hrk & Hpid & Ha).
      rewrite (Hdesc k rk Hin Hrk) in Hk. injection Hk as <-.
      destruct (consistent_parent _ _ _ _ Hc Hrk Hpid) as (ra & Hra & Hl).
      apply (relevel_accepted db db' k rk a (GoalRow.level ra + delta));
        try done.
      + by apply Hc.
      + destruct Ha as [->|Ha].
        * rewrite Hnew. simpl. f_equal. rewrite Hold in Hra.
          injection Hra as <-. done.
        * by rewrite (Hdesc a ra Ha Hra).
      + lia.
      + pose proof (inside_level db goalId old NEW delta Hc Hold Hdelta HNEW
                      a ra Ha Hra). lia.
      + pose proof (Hfits k rk Hin Hrk) as Hfit. simpl in Hfit.
        subst delta. lia.
    - rewrite (Hframe k Hne Hnot) in Hk.
      rewrite <-(Hc k x Hk). apply row_accepted_ext; [done|].
      intros p Hp.
      rewrite Hframe; [done| |].
      + intros ->. apply Hnot, ancestors_head.
        by apply (consistent_truthy db k x).
      + intros Hin. apply Hnot.
        apply (ancestors_of_parent db k x p Hc Hk Hp). by right. }
  split; [done|]. split; [by apply consistent_level_invariant|].
  split; [unfold getGoal; by rewrite Hnew|]. split; [done|].
  intros k r Hin Hr. exists (relevel delta now r).
  split; [by apply Hdesc|]. done.
Qed.

(** ** The further properties at concrete tables *)

Lemma goals_consistent_decide db :
  bool_decide (map_Forall (λ id r, row_accepted db id r = true) (goals db))
  = true →
  goals_consistent db.
Proof. apply bool_decide_eq_true_1. Qed.

Lemma events_consistent_decide db :
  bool_decide (map_Forall (λ _ r, event_accepted db r = true) (events db))
  = true →
  events_consistent db.
Proof. apply bool_decide_eq_true_1. Qed.



(** The childless goal ["C"] moved under its sibling ["B"]. *)
Lemma moveGoal_childless_witness :
  goals_consistent db_family
  ∧ (∀ k x, goals db_family !! k = Some x → GoalRow.parent_id x ≠ Some "C")
  ∧ ∃ db' g,
      moveGoal db_family "C" (Some "B") 2000 = Ok (db', g)
      ∧ goals_consistent db'
      ∧ level_invariant (goals db')
      ∧ getGoal db' "C" = Ok g
      ∧ (∀ k, k ≠ "C" → goals db' !! k = goals db_family !! k)
      ∧ Goal.parentId g = Some "B".
Proof.
  assert (goals_consistent db_family) as Hc
    by (apply goals_consistent_decide; vm_compute; reflexivity).
  assert (∀ k x, goals db_family !! k = Some x
                 → GoalRow.parent_id x ≠ Some "C") as Hleaf.
  { apply (bool_decide_eq_true_1
             (map_Forall (λ (_ : string) x, GoalRow.parent_id x ≠ Some "C")
                (goals db_family))).
    vm_compute. reflexivity. }
  split; [exact Hc|]. split; [exact Hleaf|].
  assert (∃ db' g, moveGoal db_family "C" (Some "B") 2000 = Ok (db', g))
    as (db' & g & E) by (do 2 eexists; vm_compute; reflexivity).
  exists db', g. split; [exact E|].
  exact (moveGoal_childless db_family "C" (Some "B") 2000 db' g Hc Hleaf E).
Defined.

(** A goal of level 3 requested under ["B"], of level 2. *)
Lemma getChildLevel_rule_witness :
  goals db_family !! "B" = Some (sample_goal (Some "A") 2 100 completed (Some 10))
  ∧ (canHaveChildren
       (transformGoal ("B", sample_goal (Some "A") 2 100 completed (Some 10)))
     = true
     ↔ is_Some (getChildLevel 2))
  ∧ (¬ hierarchy_violated db_family input_child
     ↔ getChildLevel 2 = Some 3).
Proof.
  split; [vm_compute; reflexivity|].
  apply (getChildLevel_rule db_family "B"
           (sample_goal (Some "A") 2 100 completed (Some 10)) input_child).
  - vm_compute. reflexivity.
  - reflexivity.
  - discriminate.
Defined.

(** The goal of level 4 at the end of the chain below ["B"]. *)
Lemma getGoalAncestors_root_first_witness :
  goals_consistent db_chain
  ∧ ∃ l,
      getGoalAncestors 3 db_chain "E" = Some (Ok l)
      ∧ Goal.id <$> l = reverse (ancestors db_chain "E")
      ∧ Goal.level <$> l = seqZ 1 (4 - 1)
      ∧ Forall (λ a, getGoal db_chain (Goal.id a) = Ok a) l.
Proof.
  assert (goals_consistent db_chain) as Hc
    by (apply goals_consistent_decide; vm_compute; reflexivity).
  split; [exact Hc|].
  apply (getGoalAncestors_root_first db_chain "E"
           (sample_goal (Some "D") 4 0 active None) 3 Hc).
  - vm_compute. reflexivity.
  - lia.
Defined.

(** The goal ["C"] deleted with its descendants ["D"] and ["E"]. *)
Lemma deleteGoal_cascade_witness :
  goals_consistent db_chain
  ∧ goals (deleteGoal db_chain "C")
    = filter (λ d : string * GoalRow.t,
                d.1 ≠ "C" ∧ "C" ∉ ancestors db_chain d.1)
        (goals db_chain)
  ∧ goals_consistent (deleteGoal db_chain "C").
Proof.
  assert (goals_consistent db_chain) as Hc
    by (apply goals_consistent_decide; vm_compute; reflexivity).
  split; [exact Hc|].
  exact (deleteGoal_cascade db_chain "C" Hc).
Defined.


(** That event renamed, with its end moved to 11:00. *)
Lemma updateEvent_keeps_consistent_witness :
  events_consistent db_new_year
  ∧ ∃ db' e,
      updateEvent db_new_year input_longer 1700000001000 = Ok (db', e)
      ∧ getEvent db' "E" = Ok e
      ∧ (∀ k, k ≠ "E" → events db' !! k = events db_new_year !! k)
      ∧ events_consistent db'
      ∧ Event.startDate e ≤ Event.endDate e
      ∧ Event.updatedAt e = 1700000001000
      ∧ ∃ old,
          getEvent db_new_year "E" = Ok old
          ∧ Event.userId e = Event.userId old
          ∧ Event.createdAt e = Event.createdAt old.
Proof.
  assert (events_consistent db_new_year) as Hc
    by (apply events_consistent_decide; vm_compute; reflexivity).
  split; [exact Hc|].
  assert (∃ db' e, updateEvent db_new_year input_longer 1700000001000
                   = Ok (db', e)) as (db' & e & E)
    by (do 2 eexists; vm_compute; reflexivity).
  exists db', e. split; [exact E|].
  exact (updateEvent_keeps_consistent db_new_year input_longer 1700000001000
           db' e Hc E).
Defined.


(** The statistics of a root with two children. *)
Lemma getGoalStatistics_counts_witness :
  goals_consistent db_family
  ∧ gs_totalGoals (getGoalStatistics db_family)
    = Z.of_nat (size (goals db_family))
  ∧ (∀ i, 1 ≤ i ≤ 4 →
          goalsByLevel (getGoalStatistics db_family) !! i
          = Some (Num (Z.of_nat
                         (length (filter (λ g, Goal.level g = i)
                                    (getGoals db_family no_filters))))))
  ∧ n_completed (goalsByStatus (getGoalStatistics db_family))
    = gs_completedGoals (getGoalStatistics db_family)
  ∧ n_active (goalsByStatus (getGoalStatistics db_family))
    = gs_activeGoals (getGoalStatistics db_family)
  ∧ n_active (goalsByStatus (getGoalStatistics db_family))
    + n_completed (goalsByStatus (getGoalStatistics db_family))
    + n_paused (goalsByStatus (getGoalStatistics db_family))
    + n_cancelled (goalsByStatus (getGoalStatistics db_family))
    = gs_totalGoals (getGoalStatistics db_family)
  ∧ (0 <= gs_overallProgress (getGoalStatistics db_family) <= 100)%Q.
Proof.
  assert (goals_consistent db_family) as Hc
    by (apply goals_consistent_decide; vm_compute; reflexivity).
  split; [exact Hc|].
  exact (getGoalStatistics_counts db_family Hc).
Defined.


(** The active child ["C"] of a root at 75 set to 100. *)
Lemma updateProgressWithParentCalculation_total_witness :
  goals_consistent db_family
  ∧ ∃ db' g,
      updateProgressWithParentCalculation 4 db_family "C" 100 1000
      = Some (Ok (db', g))
      ∧ goals_consistent db'
      ∧ getGoal db' "C" = Ok g
      ∧ Goal.progress g = numeric_5_2 (Qmin 100 (Qmax 0 100))
      ∧ (∀ k, k ≠ "C" → k ∉ ancestors db_family "C" →
              goals db' !! k = goals db_family !! k)
      ∧ (∀ k r, goals db_family !! k = Some r →
                ∃ r', goals db' !! k = Some r' ∧ same_shape r r').
Proof.
  assert (goals_consistent db_family) as Hc
    by (apply goals_consistent_decide; vm_compute; reflexivity).
  split; [exact Hc|].
  apply (updateProgressWithParentCalculation_total db_family "C" 100 1000 4 Hc).
  - eexists. vm_compute. reflexivity.
  - lia.
Defined.


(** The root ["B"] moved under ["D"], the child of its child ["C"]. *)
Lemma moveGoal_accepted_iff_witness :
  goals_consistent db_chain
  ∧ "B" ∈ ancestors db_chain "D"
  ∧ is_Ok (moveGoal db_chain "B" (Some "D") 1000)
  ∧ (is_Ok (moveGoal db_chain "B" (Some "D") 1000)
     ↔ is_Some (goals db_chain !! "B")
       ∧ (truthy (Some "D") = true →
          ∃ p parent,
            Some "D" = Some p ∧ p ≠ "B"
            ∧ goals db_chain !! p = Some parent ∧ GoalRow.level parent < 4)).
Proof.
  assert (goals_consistent db_chain) as Hc
    by (apply goals_consistent_decide; vm_compute; reflexivity).
  split; [exact Hc|].
  split.
  { apply (bool_decide_eq_true_1 ("B" ∈ ancestors db_chain "D")).
    vm_compute. reflexivity. }
  split; [eexists; vm_compute; reflexivity|].
  exact (moveGoal_accepted_iff db_chain "B" (Some "D") 1000 Hc).
Defined.

(** The tree of ["C"], which has the child ["D"] and the grandchild ["E"]. *)
Lemma getGoalWithChildren_descendants_witness :
  goals_consistent db_chain
  ∧ ∃ children,
      getGoalWithChildren 4 db_chain "C"
      = Some (Ok (Node (transformGoal ("C", sample_goal (Some "B") 2 0 active None))
                    children))
      ∧ (∀ x, x ∈ nodes (Node (transformGoal
                                 ("C", sample_goal (Some "B") 2 0 active None))
                           children)
              ↔ getGoal db_chain (Goal.id x) = Ok x
                ∧ (Goal.id x = "C" ∨ "C" ∈ ancestors db_chain (Goal.id x)))
      ∧ (∀ k, is_Some (goals db_chain !! k) →
              goals (deleteGoal db_chain "C") !! k = None
              ↔ k ∈ Goal.id <$>
                    nodes (Node (transformGoal
                                   ("C", sample_goal (Some "B") 2 0 active None))
                             children)).
Proof.
  assert (goals_consistent db_chain) as Hc
    by (apply goals_consistent_decide; vm_compute; reflexivity).
  split; [exact Hc|].
  assert (4 ≤ 4)%nat as Hfuel by lia.
  exact (getGoalWithChildren_descendants db_chain "C" 4 Hc Hfuel).
Defined.

(** The goal ["C"] of level 2, with its child ["D"] and grandchild ["E"],
    moved to the top: all three rise by one level. *)
Lemma moveGoal_subtree_witness :
  goals_consistent db_chain
  ∧ goals db_chain !! "C" = Some (sample_goal (Some "B") 2 0 active None)
  ∧ ∃ db' g,
      moveGoal db_chain "C" None 1000 = Ok (db', g)
      ∧ (∀ p, @None string = Some p → "C" ∉ ancestors db_chain p)
      ∧ (∀ k r, "C" ∈ ancestors db_chain k → goals db_chain !! k = Some r →
                GoalRow.level r
                + (Goal.level g
                   - GoalRow.level (sample_goal (Some "B") 2 0 active None))
                ≤ 4)
      ∧ goals_consistent db'
      ∧ level_invariant (goals db')
      ∧ getGoal db' "C" = Ok g
      ∧ (∀ k, k ≠ "C" → "C" ∉ ancestors db_chain k →
              goals db' !! k = goals db_chain !! k)
      ∧ (∀ k r, "C" ∈ ancestors db_chain k → goals db_chain !! k = Some r →
                ∃ r', goals db' !! k = Some r'
                      ∧ GoalRow.level r'
                        = GoalRow.level r
                          + (Goal.level g
                             - GoalRow.level
                                 (sample_goal (Some "B") 2 0 active None))
                      ∧ GoalRow.parent_id r' = GoalRow.parent_id r).
Proof.
  assert (goals_consistent db_chain) as Hc
    by (apply goals_consistent_decide; vm_compute; reflexivity).
  assert (goals db_chain !! "C"
          = Some (sample_goal (Some "B") 2 0 active None)) as Hold
    by (vm_compute; reflexivity).
  split; [exact Hc|]. split; [exact Hold|].
  assert (∃ db' g, moveGoal db_chain "C" None 1000 = Ok (db', g)
                   ∧ Goal.level g = 1)
    as (db' & g & E & Hg)
    by (do 2 eexists; split; vm_compute; reflexivity).
  exists db', g. split; [exact E|].
  assert (∀ p, @None string = Some p → "C" ∉ ancestors db_chain p) as Hout
    by (intros p Hp; discriminate Hp).
  assert (∀ k r, "C" ∈ ancestors db_chain k → goals db_chain !! k = Some r →
                 GoalRow.level r
                 + (Goal.level g
                    - GoalRow.level (sample_goal (Some "B") 2 0 active None))
                 ≤ 4) as Hfits.
  { intros k r _ Hr. rewrite Hg. simpl.
    pose proof (consistent_level _ _ _ Hc Hr). lia. }
  split; [exact Hout|]. split; [exact Hfits|].
  exact (moveGoal_subtree db_chain "C" None 1000 db' g _ Hc Hold E Hout Hfits).
Defined.
